(** * hyprAgent: the security gate, the patch tools, the configuration
      backends and the conversation loop, embedded and verified

    The Go sources are translated function by function.  Go strings are byte
    strings and are modelled by [string]; [(T, error)] results are modelled by
    [result] and plain [error] results by [option string]; the process
    environment, the working directory, the clock and the file tree live in
    an explicit [World] that effectful functions thread through.

    The Go standard library ([strings], [path/filepath], [os], [bufio]) and
    the diff-match-patch library are not part of the repository.  The
    functions of the former that the code calls are modelled here after
    their documented Unix behaviour; the latter, [json.Marshal],
    [json.Unmarshal] and the [%q] verb are parameters of the functions that
    call them.

    The file has the model first (one module per Go package), then the
    concrete situations and the notions the statements use, then the
    properties: facts about strings, paths and snapshots, and after them
    the security gate, apply-patch, the parser, the file tools, the
    conversation loop, detection and rollback. *)

From Stdlib Require Import ZArith String Ascii List.
From stdpp Require Import gmap strings list fin_maps sorting pretty.

(** ** Results of fallible calls *)

Inductive result (A : Type) : Type :=
| Ok (a : A)
| Err (msg : string).
Arguments Ok {A} a.
Arguments Err {A} msg.

(** The double quote character, for the literals that contain one. *)
Definition dq : string := String "034"%char "".

(** The newline character. *)
Definition nl : string := String "010"%char "".

(** ** Package strings *)

Module GoStrings.

Definition HasPrefix (s prefix : string) : bool := String.prefix prefix s.

Definition HasSuffix (s suffix : string) : bool :=
  String.prefix (String.rev suffix) (String.rev s).

Fixpoint Contains (s substr : string) : bool :=
  String.prefix substr s ||
  match s with
  | String _ r => Contains r substr
  | EmptyString => false
  end.

(** [strings.Split(s, sep)] for a one-byte separator: never empty. *)
Fixpoint Split (s : string) (sep : ascii) : list string :=
  match s with
  | EmptyString => [""]
  | String c r =>
      if Ascii.eqb c sep then "" :: Split r sep
      else match Split r sep with
           | h :: t => String c h :: t
           | [] => [String c ""]
           end
  end.

(** [strings.SplitN(s, sep, 2)] for a one-byte separator. *)
Fixpoint SplitN2 (s : string) (sep : ascii) : list string :=
  match s with
  | EmptyString => [""]
  | String c r =>
      if Ascii.eqb c sep then [""; r]
      else match SplitN2 r sep with
           | h :: t => String c h :: t
           | [] => [String c ""]
           end
  end.

Definition Join (elems : list string) (sep : string) : string :=
  String.concat sep elems.

Definition TrimSuffix (s suffix : string) : string :=
  if HasSuffix s suffix
  then String.substring 0 (String.length s - String.length suffix) s
  else s.

(** White space as [unicode.IsSpace] sees it, on the UTF-8 bytes:
    the six ASCII blanks, U+0085, U+00A0 (two bytes), U+1680,
    U+2000..U+200A, U+2028, U+2029, U+202F, U+205F, U+3000 (three). *)
Definition space1 (c : ascii) : bool :=
  let n := nat_of_ascii c in
  (n =? 32) || ((9 <=? n) && (n <=? 13)).

Definition space2 (c d : ascii) : bool :=
  let n := nat_of_ascii d in
  (nat_of_ascii c =? 194) && ((n =? 133) || (n =? 160)).

Definition space3 (c d e : ascii) : bool :=
  let a := nat_of_ascii c in
  let b := nat_of_ascii d in
  let n := nat_of_ascii e in
  ((a =? 225) && (b =? 154) && (n =? 128)) ||
  ((a =? 226) && (b =? 128) &&
     (((128 <=? n) && (n <=? 138)) || (n =? 168) || (n =? 169) || (n =? 175))) ||
  ((a =? 226) && (b =? 129) && (n =? 159)) ||
  ((a =? 227) && (b =? 128) && (n =? 128)).

(** Drop the leading white-space runes; [p2] and [p3] recognise the
    multi-byte ones in reading order. *)
Fixpoint trimLeftWith (p2 : ascii → ascii → bool)
         (p3 : ascii → ascii → ascii → bool) (s : string) : string :=
  match s with
  | EmptyString => s
  | String c r =>
      if space1 c then trimLeftWith p2 p3 r
      else match r with
           | EmptyString => s
           | String d r1 =>
               if p2 c d then trimLeftWith p2 p3 r1
               else match r1 with
                    | EmptyString => s
                    | String e r2 =>
                        if p3 c d e then trimLeftWith p2 p3 r2 else s
                    end
           end
  end.

Definition TrimSpace (s : string) : string :=
  let l := trimLeftWith space2 space3 s in
  String.rev
    (trimLeftWith (λ c d, space2 d c) (λ c d e, space3 e d c) (String.rev l)).

End GoStrings.

(** ** Package path/filepath (Unix: the separator is the slash) *)

Module Filepath.

Definition Separator : ascii := "/"%char.

Definition IsAbs (path : string) : bool := GoStrings.HasPrefix path "/".

(** Deprecated in Go for this very reason: a plain byte-prefix test. *)
Definition HasPrefix (p prefix : string) : bool := GoStrings.HasPrefix p prefix.

(** One element of the path against the elements kept so far (most
    recent first): empty and dot elements vanish, a dot-dot removes the
    element before it, is dropped at the root, and is kept in front of a
    relative path. *)
Definition cleanStep (rooted : bool) (kept : list string) (e : string)
  : list string :=
  if (e =? "")%string || (e =? ".")%string then kept
  else if (e =? "..")%string then
    match kept with
    | top :: rest => if (top =? "..")%string then e :: kept else rest
    | [] => if rooted then [] else [e]
    end
  else e :: kept.

Definition cleanElems (rooted : bool) (elems : list string) : list string :=
  rev (fold_left (cleanStep rooted) elems []).

Definition Clean (path : string) : string :=
  let rooted := IsAbs path in
  let elems := cleanElems rooted (GoStrings.Split path Separator) in
  if rooted then "/" +:+ GoStrings.Join elems "/"
  else match elems with
       | [] => "."
       | _ => GoStrings.Join elems "/"
       end.

(** [filepath.Join]: leading empty elements are skipped, the rest is
    joined with slashes and cleaned; all empty gives the empty string. *)
Fixpoint Join (elem : list string) : string :=
  match elem with
  | [] => ""
  | e :: rest =>
      if (e =? "")%string then Join rest
      else Clean (GoStrings.Join elem "/")
  end.

Fixpoint dropSlashes (s : string) : string :=
  match s with
  | String c r => if Ascii.eqb c Separator then dropSlashes r else s
  | EmptyString => s
  end.

Definition stripTrailingSlashes (s : string) : string :=
  String.rev (dropSlashes (String.rev s)).

Definition Base (path : string) : string :=
  if (path =? "")%string then "."
  else
    let p := stripTrailingSlashes path in
    let last_elem := List.last (GoStrings.Split p Separator) "" in
    if (last_elem =? "")%string then "/" else last_elem.

(** The elements [Rel] walks over: a path that is empty or ends in a
    separator has no element after it. *)
Definition relElems (s : string) : list string :=
  let l := GoStrings.Split s Separator in
  if (List.last l "" =? "")%string then removelast l else l.

Fixpoint relSkip (b t : list string) : list string * list string :=
  match b, t with
  | x :: b', y :: t' => if (x =? y)%string then relSkip b' t' else (b, t)
  | _, _ => (b, t)
  end.

Definition Rel (basepath targpath : string) : result string :=
  let base := Clean basepath in
  let targ := Clean targpath in
  let cannot := Err ("Rel: can't make " +:+ targpath +:+ " relative to " +:+ basepath) in
  if (targ =? base)%string then Ok "."
  else
    let base := if (base =? ".")%string then "" else base in
    if negb (Bool.eqb (IsAbs base) (IsAbs targ)) then cannot
    else
      match relSkip (relElems base) (relElems targ) with
      | (".." :: _, _ :: _) => cannot
      | ([], t) => Ok (GoStrings.Join t "/")
      | (b, t) =>
          let ups := GoStrings.Join (replicate (length b) "..") "/" in
          match t with
          | [] => Ok ups
          | _ => Ok (ups +:+ "/" +:+ GoStrings.Join t "/")
          end
      end.

Fixpoint dropToSlash (s : string) : string :=
  match s with
  | String c r => if Ascii.eqb c Separator then s else dropToSlash r
  | EmptyString => s
  end.

(** [filepath.Dir]: everything up to and including the last separator,
    cleaned; a path without separator has directory dot. *)
Definition Dir (path : string) : string :=
  Clean (String.rev (dropToSlash (String.rev path))).

End Filepath.

(** ** Package os: environment, working directory, clock and file tree

    The file tree maps cleaned absolute paths to nodes.  Paths are resolved
    lexically against the working directory; symbolic links and permissions
    are not modelled, so every existing file can be read and overwritten. *)

Module OS.

Inductive node : Type :=
| File (data : string)
| Dir.

Record World : Type := mkWorld {
  env : gmap string string;
  cwd : string;
  clock : string;   (* time.Now().Format("20060102-150405") *)
  fs : gmap string node
}.

Definition setFs (w : World) (f : gmap string node) : World :=
  {| env := env w; cwd := cwd w; clock := clock w; fs := f |}.

Definition Getenv (w : World) (key : string) : string :=
  default "" (env w !! key).

Definition UserHomeDir (w : World) : result string :=
  let v := Getenv w "HOME" in
  if (v =? "")%string then Err "$HOME is not defined" else Ok v.

(** The file a path string denotes for the operating system. *)
Definition abspath (w : World) (name : string) : string :=
  if Filepath.IsAbs name then Filepath.Clean name
  else Filepath.Join [cwd w; name].

Definition lookupPath (w : World) (name : string) : option node :=
  if (name =? "")%string then None
  else
    let q := abspath w name in
    if (q =? "/")%string then Some Dir else fs w !! q.

(** [os.Stat(name)] succeeded. *)
Definition Stat (w : World) (name : string) : bool :=
  match lookupPath w name with
  | Some _ => true
  | None => false
  end.

Definition ReadFile (w : World) (name : string) : result string :=
  match lookupPath w name with
  | Some (File data) => Ok data
  | Some Dir => Err ("read " +:+ name +:+ ": is a directory")
  | None => Err ("open " +:+ name +:+ ": no such file or directory")
  end.

Definition isDir (w : World) (q : string) : bool :=
  match lookupPath w q with
  | Some Dir => true
  | _ => false
  end.

(** [os.WriteFile], and [os.Create] followed by a write that stores all
    its bytes: create or truncate the file, then store the bytes. *)
Definition WriteFile (w : World) (name data : string) : result World :=
  match lookupPath w name with
  | Some Dir => Err ("open " +:+ name +:+ ": is a directory")
  | _ =>
      let q := abspath w name in
      if negb (name =? "")%string && isDir w (Filepath.Dir q)
      then Ok (setFs w (<[q := File data]> (fs w)))
      else Err ("open " +:+ name +:+ ": no such file or directory")
  end.

(** [os.Create]: create the file, or truncate it. *)
Definition Create (w : World) (name : string) : result World := WriteFile w name "".

(** [File.WriteString] on the file [Create] opened for [name].  The
    write can stop part-way (a full disk, an I/O error): [fault] is [None]
    when all bytes are stored, and [Some (n, e)] when the first [n] bytes
    are stored and the write fails with [e]. *)
Definition WriteString (fault : option (nat * string)) (w : World) (name data : string)
  : World * option string :=
  let q := abspath w name in
  match fault with
  | None => (setFs w (<[q := File data]> (fs w)), None)
  | Some (n, e) => (setFs w (<[q := File (String.substring 0 n data)]> (fs w)), Some e)
  end.

(** The chain of directories down to a cleaned absolute path. *)
Fixpoint ancestorsFrom (prefix : string) (elems : list string) : list string :=
  match elems with
  | [] => []
  | e :: rest =>
      let d := prefix +:+ "/" +:+ e in
      d :: ancestorsFrom d rest
  end.

Definition ancestors (q : string) : list string :=
  ancestorsFrom "" (Filepath.relElems (String.substring 1 (String.length q) q)).

Fixpoint mkdirs (f : gmap string node) (ds : list string)
  : result (gmap string node) :=
  match ds with
  | [] => Ok f
  | d :: rest =>
      match f !! d with
      | Some Dir => mkdirs f rest
      | Some (File _) => Err ("mkdir " +:+ d +:+ ": not a directory")
      | None => mkdirs (<[d := Dir]> f) rest
      end
  end.

Definition MkdirAll (w : World) (path : string) : result World :=
  if (path =? "")%string then Err "mkdir : no such file or directory"
  else
    match mkdirs (fs w) (ancestors (abspath w path)) with
    | Ok f => Ok (setFs w f)
    | Err e => Err e
    end.

(** Walking down the directories [ds], whether a regular file is met before
    a missing entry: a path below a regular file fails with ENOTDIR, a path
    below a missing entry with ENOENT. *)
Fixpoint throughFile (f : gmap string node) (ds : list string) : bool :=
  match ds with
  | [] => false
  | d :: rest =>
      match f !! d with
      | Some (File _) => true
      | Some Dir => throughFile f rest
      | None => false
      end
  end.

(** [os.IsNotExist(err)] for the error of [os.Stat(name)]: the call failed
    with ENOENT.  It is false when the call succeeded and when it failed
    with ENOTDIR. *)
Definition IsNotExist (w : World) (name : string) : bool :=
  negb (Stat w name) &&
  ((name =? "")%string
   || negb (throughFile (fs w) (removelast (ancestors (abspath w name))))).

End OS.

(** ** Package configuration: settings and the security gate *)

Module Configuration.

Definition ConfigSourceType : Type := string.
Definition SourceNative : ConfigSourceType := "native".
Definition SourceHyDE : ConfigSourceType := "hyde".
Definition SourceOmarchy : ConfigSourceType := "omarchy".

Record LLMConfig : Type := {
  Provider : string;
  OpenAIKey : string;
  AnthropicKey : string;
  GeminiKey : string;
  OpenAIModel : string;
  AnthropicModel : string;
  GeminiModel : string;
  OllamaHost : string;
  OllamaModel : string
}.

Record AgentConfig : Type := {
  MaxTurns : Z;
  Debug : bool
}.

Record BackendSecurity : Type := {
  AllowedDirs : list string;
  AllowedFiles : list string
}.

Record SecurityConfig : Type := {
  Native : BackendSecurity;
  Hyde : BackendSecurity;
  Omarchy : BackendSecurity
}.

Record Config : Type := {
  LLM : LLMConfig;
  Agent : AgentConfig;
  Security : SecurityConfig
}.

Definition DefaultConfig : Config :=
  {| LLM := {| Provider := "openai"; OpenAIKey := ""; AnthropicKey := "";
               GeminiKey := ""; OpenAIModel := ""; AnthropicModel := "";
               GeminiModel := ""; OllamaHost := ""; OllamaModel := "" |};
     Agent := {| MaxTurns := 25; Debug := false |};
     Security :=
       {| Native :=
            {| AllowedDirs := ["."; "./scripts"; "./themes"];
               AllowedFiles :=
                 ["hyprland.conf"; "hyprpaper.conf"; "hypridle.conf";
                  "hyprlock.conf"; "keybindings.conf"; "windowrules.conf";
                  "monitors.conf"; "workspaces.conf"; "animations.conf";
                  "userprefs.conf"] |};
          Hyde :=
            {| AllowedDirs :=
                 ["."; "./Configs"; "./scripts"; "./themes"; "./animations";
                  "./shaders"; "./hyprlock"; "./workflows"];
               AllowedFiles :=
                 ["hyprland.conf"; "hyde.conf"; "hypridle.conf";
                  "hyprlock.conf"; "keybindings.conf"; "windowrules.conf";
                  "monitors.conf"; "workspaces.conf"; "workflows.conf";
                  "animations.conf"; "shaders.conf"; "userprefs.conf";
                  "pyprland.toml"] |};
          Omarchy :=
            {| AllowedDirs := ["."; "./omarchy"; "./scripts"; "./themes"];
               AllowedFiles :=
                 ["hyprland.conf"; "keybindings.conf"; "windowrules.conf";
                  "monitors.conf"; "workspaces.conf"] |} |} |}.

(** The [switch] on the backend type at the head of [IsPathAllowed]. *)
Definition securityOf (c : Config) (backendType : ConfigSourceType)
  : option BackendSecurity :=
  if (backendType =? SourceNative)%string then Some (Native (Security c))
  else if (backendType =? SourceHyDE)%string then Some (Hyde (Security c))
  else if (backendType =? SourceOmarchy)%string then Some (Omarchy (Security c))
  else None.

Definition configRootOf (home : string) : string :=
  Filepath.Join [home; ".config"; "hypr"].

(** The absolute path the gate reasons about. *)
Definition absTargetOf (configRoot targetPath : string) : string :=
  if Filepath.IsAbs targetPath then Filepath.Clean targetPath
  else Filepath.Clean (Filepath.Join [configRoot; targetPath]).

Definition allowedFileMatch (relPath absTarget allowedFile : string) : bool :=
  (relPath =? allowedFile)%string ||
  (Filepath.Base absTarget =? allowedFile)%string.

Definition allowedDirMatch (configRoot absTarget allowedDir : string) : bool :=
  let allowedDirAbs := Filepath.Clean (Filepath.Join [configRoot; allowedDir]) in
  (absTarget =? allowedDirAbs)%string ||
  Filepath.HasPrefix absTarget (allowedDirAbs +:+ "/").

(** [IsPathAllowed] returns Go's pair: the verdict and the error. *)
Definition IsPathAllowed (c : Config) (w : OS.World)
           (backendType : ConfigSourceType) (targetPath : string)
  : bool * option string :=
  match securityOf c backendType with
  | None => (false, Some ("unknown backend type: " +:+ backendType))
  | Some sec =>
      match OS.UserHomeDir w with
      | Err e => (false, Some e)
      | Ok home =>
          let configRoot := configRootOf home in
          let absTarget := absTargetOf configRoot targetPath in
          if negb (Filepath.HasPrefix absTarget configRoot) then
            (false, Some ("path " +:+ targetPath +:+
                          " is outside Hyprland config directory"))
          else
            match Filepath.Rel configRoot absTarget with
            | Err e => (false, Some e)
            | Ok relPath =>
                if existsb (allowedFileMatch relPath absTarget)
                           (AllowedFiles sec) then (true, None)
                else if existsb (allowedDirMatch configRoot absTarget)
                                (AllowedDirs sec) then (true, None)
                else
                  (false, Some ("path " +:+ relPath +:+
                                " is not in the allowed list for " +:+
                                backendType +:+ " backend"))
            end
      end
  end.

(** *** The line model of a configuration file *)

Inductive LineType : Type :=
| LineTypeEmpty
| LineTypeComment
| LineTypeVariable
| LineTypeKeyValue
| LineTypeSectionStart
| LineTypeSectionEnd
| LineTypeUnknown.

Record ConfigLine : Type := {
  LineNum : Z;
  Raw : string;
  Type_ : LineType;
  Key : string;
  Value : string
}.

Record IR : Type := { Lines : list ConfigLine }.

(** [IR.String]: every raw line followed by a newline. *)
Definition String_ (ir : IR) : string :=
  fold_right (λ line acc, Raw line +:+ nl +:+ acc) "" (Lines ir).

(** *** bufio.Scanner with the default line splitter *)

Definition MaxScanTokenSize : Z := 65536.

Definition dropCR (s : string) : string := GoStrings.TrimSuffix s (String "013"%char "").

(** The pieces between newlines, with no line after a final newline. *)
Definition newlineElems (data : string) : list string :=
  let l := GoStrings.Split data "010"%char in
  if (List.last l "" =? "")%string then removelast l else l.

(** All the tokens [Scan] yields, or the scanner's error when a line does
    not fit the buffer. *)
Definition scanLines (data : string) : result (list string) :=
  let ls := newlineElems data in
  if existsb (λ l, (MaxScanTokenSize <=? Z.of_nat (String.length l))%Z) ls
  then Err "bufio.Scanner: token too long"
  else Ok (dropCR <$> ls).

Definition classify (lineNum : Z) (raw : string) : ConfigLine :=
  let trimmed := GoStrings.TrimSpace raw in
  let line ty k v :=
    {| LineNum := lineNum; Raw := raw; Type_ := ty; Key := k; Value := v |} in
  if (trimmed =? "")%string then line LineTypeEmpty "" ""
  else if GoStrings.HasPrefix trimmed "#" then line LineTypeComment "" ""
  else if GoStrings.HasPrefix trimmed "$" then
    match GoStrings.SplitN2 trimmed "="%char with
    | [k; v] => line LineTypeVariable (GoStrings.TrimSpace k) (GoStrings.TrimSpace v)
    | _ => line LineTypeVariable "" ""
    end
  else if GoStrings.HasSuffix trimmed "{" then
    line LineTypeSectionStart
         (GoStrings.TrimSpace (GoStrings.TrimSuffix trimmed "{")) ""
  else if (trimmed =? "}")%string then line LineTypeSectionEnd "" ""
  else if GoStrings.Contains trimmed "=" then
    match GoStrings.SplitN2 trimmed "="%char with
    | [k; v] => line LineTypeKeyValue (GoStrings.TrimSpace k) (GoStrings.TrimSpace v)
    | _ => line LineTypeKeyValue "" ""
    end
  else line LineTypeUnknown "" "".

(** The scanning loop of [Parse] over the bytes of the file. *)
Definition parseText (data : string) : result IR :=
  match scanLines data with
  | Err e => Err e
  | Ok ls =>
      Ok {| Lines := imap (λ i raw, classify (Z.of_nat i + 1) raw) ls |}
  end.

(** *** The backend variants

    The three Go types hold the same data (the Omarchy and HyDE structs
    embed the native one and override [Type] and [Detect]); the variant
    is a tag and the methods dispatch on it. *)

Inductive BackendKind : Type := KNative | KHyDE | KOmarchy.

Record Backend : Type := {
  kind : BackendKind;
  ConfigPath : string
}.

Definition NewNativeBackend : Backend := {| kind := KNative; ConfigPath := "" |}.

Definition withConfigPath (b : Backend) (p : string) : Backend :=
  {| kind := kind b; ConfigPath := p |}.

Definition TypeOf (b : Backend) : ConfigSourceType :=
  match kind b with
  | KNative => SourceNative
  | KHyDE => SourceHyDE
  | KOmarchy => SourceOmarchy
  end.

(** The default root every [Detect] falls back to for an empty argument. *)
Definition rootOrDefault (w : OS.World) (rootPath : string) : result string :=
  if (rootPath =? "")%string then
    match OS.UserHomeDir w with
    | Err e => Err e
    | Ok home => Ok (Filepath.Join [home; ".config"; "hypr"])
    end
  else Ok rootPath.

Definition DetectNative (b : Backend) (w : OS.World) (rootPath : string)
  : Backend * result bool :=
  match rootOrDefault w rootPath with
  | Err e => (b, Err e)
  | Ok rootPath =>
      let configPath := Filepath.Join [rootPath; "hyprland.conf"] in
      if OS.Stat w configPath then (withConfigPath b configPath, Ok true)
      else (b, Ok false)
  end.

Definition DetectHyDE (b : Backend) (w : OS.World) (rootPath : string)
  : Backend * result bool :=
  match rootOrDefault w rootPath with
  | Err e => (b, Err e)
  | Ok rootPath =>
      let found := (withConfigPath b (Filepath.Join [rootPath; "hyprland.conf"]), Ok true) in
      if negb (OS.Getenv w "HYDE_CONFIG_HOME" =? "")%string then found
      else if OS.Stat w (Filepath.Join [rootPath; "hyde.conf"]) then found
      else
        let configsDir := Filepath.Join [rootPath; "Configs"] in
        let scriptsDir := Filepath.Join [rootPath; "scripts"] in
        if negb (OS.IsNotExist w configsDir) || negb (OS.IsNotExist w scriptsDir)
        then found
        else (b, Ok false)
  end.

Definition DetectOmarchy (b : Backend) (w : OS.World) (rootPath : string)
  : Backend * result bool :=
  match rootOrDefault w rootPath with
  | Err e => (b, Err e)
  | Ok rootPath =>
      let omarchyDir := Filepath.Join [rootPath; "omarchy"] in
      if OS.IsNotExist w omarchyDir then (b, Ok false)
      else
        let configPath := Filepath.Join [rootPath; "hyprland.conf"] in
        if OS.Stat w configPath then (withConfigPath b configPath, Ok true)
        else (b, Ok false)
  end.

Definition Detect (b : Backend) (w : OS.World) (rootPath : string)
  : Backend * result bool :=
  match kind b with
  | KNative => DetectNative b w rootPath
  | KHyDE => DetectHyDE b w rootPath
  | KOmarchy => DetectOmarchy b w rootPath
  end.

Definition ListSources (b : Backend) : result (list string) :=
  if (ConfigPath b =? "")%string then Err "config path not detected"
  else Ok [ConfigPath b].

Definition Parse (b : Backend) (w : OS.World) : result IR :=
  if (ConfigPath b =? "")%string then Err "config path not set"
  else
    match OS.ReadFile w (ConfigPath b) with
    | Err e => Err e
    | Ok data => parseText data
    end.

(** [Save]: create (truncate) the file and write every raw line followed
    by a newline through a buffered writer. *)
Definition Save (b : Backend) (w : OS.World) (ir : IR) : OS.World * option string :=
  if (ConfigPath b =? "")%string then (w, Some "config path not set")
  else
    match OS.WriteFile w (ConfigPath b) (String_ ir) with
    | Err e => (w, Some e)
    | Ok w' => (w', None)
    end.

Section BackendPatching.

(** The diff-match-patch library, as far as [ApplyPatch] uses it. *)
Variable Patch : Type.
Variable PatchFromText : string → result (list Patch).
Variable PatchApply : list Patch → string → string * list bool.

(** What the operating system does to the write of [data] into the file
    just created for [name]: see [OS.WriteString]. *)
Variable writeFault : OS.World → string → string → option (nat * string).

(** [ApplyPatch] of the backend: no cleanup of the patch text, no gate
    and no snapshot.  The file is created (truncated) first and written
    second, so a failing write leaves it truncated. *)
Definition ApplyPatch (b : Backend) (w : OS.World) (path patchText : string)
  : OS.World * option string :=
  let target :=
    if (path =? "")%string then
      if (ConfigPath b =? "")%string then Err "config path not set"
      else Ok (ConfigPath b)
    else Ok path in
  match target with
  | Err e => (w, Some e)
  | Ok targetPath =>
      match OS.ReadFile w targetPath with
      | Err e => (w, Some ("failed to read config file " +:+ targetPath +:+ ": " +:+ e))
      | Ok text =>
          match PatchFromText patchText with
          | Err e => (w, Some ("failed to parse patch: " +:+ e))
          | Ok patches =>
              let '(newText, results) := PatchApply patches text in
              if existsb negb results then (w, Some "some patches failed to apply")
              else
                match OS.Create w targetPath with
                | Err e => (w, Some e)
                | Ok w1 =>
                    OS.WriteString (writeFault w1 targetPath newText) w1 targetPath newText
                end
          end
      end
  end.

End BackendPatching.

End Configuration.

(** ** Package safety: snapshots *)

Module Safety.

Record SnapshotService : Type := { BackupDir : string }.

Definition NewSnapshotService (w : OS.World) (backupDir : string)
  : OS.World * result SnapshotService :=
  let dir :=
    if (backupDir =? "")%string then
      match OS.UserHomeDir w with
      | Err e => Err e
      | Ok home => Ok (Filepath.Join [home; ".local"; "share"; "hyprAgent"; "backups"])
      end
    else Ok backupDir in
  match dir with
  | Err e => (w, Err e)
  | Ok backupDir =>
      match OS.MkdirAll w backupDir with
      | Err e => (w, Err e)
      | Ok w' => (w', Ok {| BackupDir := backupDir |})
      end
  end.

(** [copyFile]: open the source, create (truncate) the destination, copy.
    The source is read after the destination was truncated, as [io.Copy]
    does. *)
Definition copyFile (w : OS.World) (src dst : string) : OS.World * option string :=
  match OS.lookupPath w src with
  | None => (w, Some ("open " +:+ src +:+ ": no such file or directory"))
  | Some _ =>
      match OS.WriteFile w dst "" with
      | Err e => (w, Some e)
      | Ok w1 =>
          match OS.lookupPath w1 src with
          | Some (OS.File data) =>
              (OS.setFs w1 (<[OS.abspath w1 dst := OS.File data]> (OS.fs w1)), None)
          | _ => (w1, Some ("read " +:+ src +:+ ": is a directory"))
          end
      end
  end.

Fixpoint snapshotFiles (w : OS.World) (snapshotDir : string) (files : list string)
  : OS.World * option string :=
  match files with
  | [] => (w, None)
  | src :: rest =>
      let base := Filepath.Base src in
      let dst := Filepath.Join [snapshotDir; base] in
      match copyFile w src dst with
      | (w', Some e) => (w', Some ("failed to copy " +:+ src +:+ ": " +:+ e))
      | (w', None) => snapshotFiles w' snapshotDir rest
      end
  end.

Definition CreateSnapshot (s : SnapshotService) (w : OS.World) (files : list string)
  : OS.World * result string :=
  let id := OS.clock w in
  let snapshotDir := Filepath.Join [BackupDir s; id] in
  match OS.MkdirAll w snapshotDir with
  | Err e => (w, Err e)
  | Ok w1 =>
      match snapshotFiles w1 snapshotDir files with
      | (w2, Some e) => (w2, Err e)
      | (w2, None) => (w2, Ok id)
      end
  end.

Fixpoint restoreFiles (w : OS.World) (snapshotDir : string) (targetFiles : list string)
  : OS.World * option string :=
  match targetFiles with
  | [] => (w, None)
  | target :: rest =>
      let base := Filepath.Base target in
      let src := Filepath.Join [snapshotDir; base] in
      if OS.Stat w src then
        match copyFile w src target with
        | (w', Some e) => (w', Some ("failed to restore " +:+ target +:+ ": " +:+ e))
        | (w', None) => restoreFiles w' snapshotDir rest
        end
      else restoreFiles w snapshotDir rest
  end.

Definition Restore (s : SnapshotService) (w : OS.World) (id : string)
           (targetFiles : list string) : OS.World * option string :=
  let snapshotDir := Filepath.Join [BackupDir s; id] in
  if OS.IsNotExist w snapshotDir then
    (w, Some ("snapshot " +:+ id +:+ " not found"))
  else restoreFiles w snapshotDir targetFiles.

End Safety.

(** ** Package assistant: messages, tools and the conversation loop *)

Module FunctionCall.
Record t : Type := mk { Name : string; Arguments : string }.
End FunctionCall.

Module ToolCall.
Record t : Type := mk { ID : string; Type_ : string; Function : FunctionCall.t }.
End ToolCall.

Module Message.
Record t : Type := mk {
  Role : string;
  Content : string;
  Name : string;
  ToolCalls : list ToolCall.t;
  ToolCallID : string
}.
(** The zero value a freshly made slice holds. *)
Definition zero : t := mk "" "" "" [] "".
End Message.

Module ToolDefinition.
Record t : Type := mk { Name : string; Description : string; Parameters : string }.
End ToolDefinition.

Module StatusUpdate.
Record t : Type := mk { Message : string }.
End StatusUpdate.

(** The types of the genai SDK the Gemini provider builds and reads.  [J]
    stands for [map[string]interface{}]. *)
Module Genai.

Inductive Part (J : Type) : Type :=
| Text (s : string)
| FunctionCall (name : string) (args : J)
| FunctionResponse (name : string) (response : J)
| OtherPart.
Arguments Text {J} s.
Arguments FunctionCall {J} name args.
Arguments FunctionResponse {J} name response.
Arguments OtherPart {J}.

Record Content (J : Type) : Type := mkContent {
  Role : string;
  Parts : list (Part J)
}.
Arguments mkContent {J} Role Parts.
Arguments Role {J}.
Arguments Parts {J}.

Record FunctionDeclaration : Type := mkDecl {
  Name : string;
  Description : string
}.

(** A candidate holds a pointer to its content, which may be nil. *)
Record Candidate (J : Type) : Type := mkCandidate {
  CandidateContent : option (Content J)
}.
Arguments mkCandidate {J} CandidateContent.
Arguments CandidateContent {J}.

Record GenerateContentResponse (J : Type) : Type := mkResponse {
  Candidates : list (Candidate J)
}.
Arguments mkResponse {J} Candidates.
Arguments Candidates {J}.

End Genai.

(** The types of the go-openai client the OpenAI provider builds and
    reads. *)
Module Openai.

Record ToolCall : Type := mkToolCall {
  ID : string;
  Type_ : string;
  FunctionName : string;
  FunctionArguments : string
}.

Record ChatCompletionMessage : Type := mkMessage {
  Role : string;
  Content : string;
  Name : string;
  ToolCalls : list ToolCall;
  ToolCallID : string
}.

Record Tool : Type := mkTool {
  ToolType : string;
  ToolName : string;
  ToolDescription : string;
  ToolParameters : string
}.

Record ChatCompletionRequest : Type := mkRequest {
  Model : string;
  Messages : list ChatCompletionMessage;
  Tools : list Tool
}.

Record ChatCompletionResponse : Type := mkResponse {
  Choices : list ChatCompletionMessage   (* the message of each choice *)
}.

End Openai.

Module Assistant.

Import Configuration.

Definition RoleSystem : string := "system".
Definition RoleUser : string := "user".
Definition RoleAssistant : string := "assistant".
Definition RoleTool : string := "tool".

(** [%v] of an error value. *)
Definition fmtV (err : option string) : string := default "<nil>" err.

(** *** The file access tools

    The file, discovery and patch tools take their arguments already
    decoded from JSON; the rollback tool decodes its own.  A field
    name that several Go structs share ([Path], [Config], [Backend], ...)
    carries the initials of its struct here. *)

Record ReadFileTool : Type := {
  rfConfig : Config;
  rfBackend : Backend
}.

Record ReadFileArgs : Type := { rfPath : string }.

Definition ReadFileTool_Execute (t : ReadFileTool) (w : OS.World) (a : ReadFileArgs)
  : result string :=
  let backendType := TypeOf (rfBackend t) in
  match IsPathAllowed (rfConfig t) w backendType (rfPath a) with
  | (true, None) =>
      match OS.ReadFile w (rfPath a) with
      | Err e => Err ("failed to read file: " +:+ e)
      | Ok content => Ok content
      end
  | (_, err) => Err ("access denied: " +:+ fmtV err)
  end.

Record ListDirTool : Type := {
  ldConfig : Config;
  ldBackend : Backend
}.

Record ListDirArgs : Type := { ldPath : string }.

(** [os.ReadDir]: the entries of a directory, sorted by file name, each
    with its directory flag. *)
Definition ReadDir (w : OS.World) (name : string) : result (list (string * bool)) :=
  match OS.lookupPath w name with
  | None => Err ("open " +:+ name +:+ ": no such file or directory")
  | Some (OS.File _) => Err ("readdir " +:+ name +:+ ": not a directory")
  | Some OS.Dir =>
      let q := OS.abspath w name in
      let children :=
        filter (λ kv : string * OS.node,
                  Filepath.Dir kv.1 = q ∧ kv.1 ≠ "/")
               (map_to_list (OS.fs w)) in
      let entry (kv : string * OS.node) :=
        (Filepath.Base kv.1,
         match kv.2 with OS.Dir => true | OS.File _ => false end) in
      Ok (merge_sort (λ x y : string * bool, String.le x.1 y.1) (entry <$> children))
  end.

Section FileTools.

(** [json.Marshal] of a slice of strings, from the standard library (the
    slice is nil, not empty, when the directory has no entry). *)
Variable jsonMarshalStrings : list string → string.

Definition ListDirTool_Execute (t : ListDirTool) (w : OS.World) (a : ListDirArgs)
  : result string :=
  let backendType := TypeOf (ldBackend t) in
  match IsPathAllowed (ldConfig t) w backendType (ldPath a) with
  | (true, None) =>
      match ReadDir w (ldPath a) with
      | Err e => Err ("failed to read directory: " +:+ e)
      | Ok entries =>
          let names :=
            (λ e : string * bool, if e.2 then e.1 +:+ "/" else e.1) <$> entries in
          Ok (jsonMarshalStrings names)
      end
  | (_, err) => Err ("access denied: " +:+ fmtV err)
  end.

End FileTools.

(** *** Discovery *)

Record DetectRootTool : Type := { Backends : list Backend }.

Section Discovery.

(** [%q] of a slice of strings, from package fmt. *)
Variable fmtQ : list string → string.

(** The loop of [DetectRootTool.Execute]; the backends are returned
    too, since [Detect] records the path it found in them. *)
Fixpoint detectLoop (w : OS.World) (bs : list Backend) : list Backend * string :=
  match bs with
  | [] => ([], "{" +:+ dq +:+ "type" +:+ dq +:+ ": " +:+ dq +:+ "unknown" +:+ dq +:+ "}")
  | b :: rest =>
      match Detect b w "" with
      | (b', Ok true) =>
          let sources :=
            match ListSources b' with Ok l => l | Err _ => [] end in
          (b' :: rest,
           "{" +:+ dq +:+ "type" +:+ dq +:+ ": " +:+ dq +:+ TypeOf b' +:+ dq +:+
           ", " +:+ dq +:+ "sources" +:+ dq +:+ ": " +:+ fmtQ sources +:+ "}")
      | (b', _) =>
          let '(rest', out) := detectLoop w rest in
          (b' :: rest', out)
      end
  end.

Definition DetectRootTool_Execute (t : DetectRootTool) (w : OS.World)
  : DetectRootTool * result string :=
  let '(bs, out) := detectLoop w (Backends t) in
  ({| Backends := bs |}, Ok out).

End Discovery.

(** *** Patching *)

Record ApplyPatchTool : Type := {
  apBackend : Backend;
  apSnapshot : option Safety.SnapshotService;   (* a nil pointer is [None] *)
  apConfig : Config;
  apConfirm : option (string → bool)             (* never called *)
}.

Record ApplyPatchArgs : Type := {
  apPath : string;
  apPatch : string
}.

(** The first cleanup loop: fence lines toggle [inBlock] and are dropped,
    the other lines are kept while [inBlock] is false. *)
Fixpoint stripFences (inBlock : bool) (lines : list string) : list string :=
  match lines with
  | [] => []
  | line :: rest =>
      let trimmed := GoStrings.TrimSpace line in
      if GoStrings.HasPrefix trimmed "```" then stripFences (negb inBlock) rest
      else if negb inBlock then line :: stripFences inBlock rest
      else stripFences inBlock rest
  end.

Definition isFiller (line : string) : bool :=
  let trimmed := GoStrings.TrimSpace line in
  GoStrings.HasPrefix trimmed "***" ||
  (GoStrings.HasPrefix trimmed "---" && negb (GoStrings.Contains line "@@")) ||
  GoStrings.HasPrefix trimmed "Here is" ||
  GoStrings.HasPrefix trimmed "Shall I".

Definition sanitizePatch (patch : string) : string :=
  let patch :=
    if GoStrings.Contains patch "```" then
      GoStrings.Join (stripFences false (GoStrings.Split patch "010"%char)) nl
    else patch in
  let lines := GoStrings.Split patch "010"%char in
  let filteredLines := filter (λ line, isFiller line = false) lines in
  GoStrings.TrimSpace (GoStrings.Join filteredLines nl).

(** The indices of the hunks that did not apply. *)
Fixpoint failedFrom (i : nat) (results : list bool) : list nat :=
  match results with
  | [] => []
  | success :: rest =>
      if success then failedFrom (S i) rest else i :: failedFrom (S i) rest
  end.

(** The target file: the explicit path, or the backend's first source. *)
Definition targetOf (t : ApplyPatchTool) (a : ApplyPatchArgs) : result string :=
  if (apPath a =? "")%string then
    match ListSources (apBackend t) with
    | Ok (s :: _) => Ok s
    | _ => Err "could not determine target file"
    end
  else Ok (apPath a).

Section Patching.

(** The diff-match-patch library: parsed hunks, the parser of a patch
    text, and the application of hunks to a text with one success flag
    per hunk. *)
Variable Patch : Type.
Variable PatchFromText : string → result (list Patch).
Variable PatchApply : list Patch → string → string * list bool.

(** The Apply and Write steps. *)
Definition applyAndWrite (w : OS.World) (targetPath originalContent patch : string)
  : OS.World * result string :=
  match PatchFromText patch with
  | Err e =>
      (w, Err ("failed to parse patch: " +:+ e +:+
               ". Ensure you're using the output from make_patch tool"))
  | Ok patches =>
      let '(newContent, results) := PatchApply patches originalContent in
      let failedPatches := failedFrom 0 results in
      if (0 <? length failedPatches)%nat then
        (w, Err ("patch application failed: " +:+ pretty (length failedPatches) +:+
                 " out of " +:+ pretty (length results) +:+
                 " hunks failed to apply. The file may have been modified since you read it. Please re-read the file and regenerate the patch"))
      else
        match OS.WriteFile w targetPath newContent with
        | Err e => (w, Err ("failed to write patched file: " +:+ e))
        | Ok w' => (w', Ok ("Patch applied successfully to " +:+ targetPath))
        end
  end.

(** The Snapshot step, then Apply and Write. *)
Definition snapshotThenApply (t : ApplyPatchTool) (w : OS.World)
           (targetPath originalContent patch : string) : OS.World * result string :=
  match ListSources (apBackend t), apSnapshot t with
  | Ok sources, Some s =>
      match Safety.CreateSnapshot s w sources with
      | (w1, Err e) => (w1, Err ("failed to create snapshot: " +:+ e))
      | (w1, Ok _) => applyAndWrite w1 targetPath originalContent patch
      end
  | _, _ => applyAndWrite w targetPath originalContent patch
  end.

Definition ApplyPatchTool_Execute (t : ApplyPatchTool) (w : OS.World)
           (a : ApplyPatchArgs) : OS.World * result string :=
  let patch := sanitizePatch (apPatch a) in
  if negb (GoStrings.Contains patch "@@") then
    (w, Err "invalid patch format: missing @@ markers. The patch must be in unified diff format generated by make_patch tool")
  else
    let backendType := TypeOf (apBackend t) in
    match targetOf t a with
    | Err e => (w, Err e)
    | Ok targetPath =>
        match IsPathAllowed (apConfig t) w backendType targetPath with
        | (true, None) =>
            match OS.ReadFile w targetPath with
            | Err e =>
                (w, Err ("failed to read target file " +:+ targetPath +:+ ": " +:+ e))
            | Ok originalContent =>
                snapshotThenApply t w targetPath originalContent patch
            end
        | (_, err) => (w, Err ("write access denied: " +:+ fmtV err))
        end
    end.

End Patching.

(** *** Rollback *)

Record RollbackTool : Type := { rbSnapshot : option Safety.SnapshotService }.

Record RollbackArgs : Type := { SnapshotID : string }.

Section Rollback.

(** [ParseArgs] into a [RollbackArgs]: [json.Unmarshal], which fails on
    text that is not JSON and on a [snapshot_id] that is not a string. *)
Variable ParseArgs : string → result RollbackArgs.

Definition RollbackTool_Execute (t : RollbackTool) (w : OS.World) (args : string)
  : OS.World * result string :=
  match ParseArgs args with
  | Err e => (w, Err e)
  | Ok a =>
      if (SnapshotID a =? "")%string then
        (w, Ok "Error: Snapshot ID required (automatic latest detection not implemented yet)")
      else
        (w, Ok "Rollback not fully implemented. Please manually restore from ~/.local/share/hyprAgent/backups/")
  end.

End Rollback.

(** *** The registry and the agent

    Calls of the logger are left out: they write to the log only.

    [P] is the state of the model provider and of everything behind it,
    [W] the state the tools act on.  A call of the provider returns the
    response, or its error together with what [ctx.Err()] reports right
    after the failed call. *)

Inductive CtxErr : Type := CtxNone | DeadlineExceeded | Canceled.

Inductive ChatOutcome : Type :=
| ChatOk (resp : Message.t)
| ChatErr (err : string) (ctx : CtxErr).

Section Agent.

Context {P W : Type}.

Record Tool : Type := {
  Definition_ : ToolDefinition.t;
  Execute : W → string → W * result string
}.

Definition LLMProvider : Type :=
  P → list Message.t → list ToolDefinition.t → P * ChatOutcome.

Record ToolRegistry : Type := { tools : gmap string Tool }.

Definition NewToolRegistry : ToolRegistry := {| tools := ∅ |}.

Definition Register (r : ToolRegistry) (t : Tool) : ToolRegistry :=
  {| tools := <[ToolDefinition.Name (Definition_ t) := t]> (tools r) |}.

Definition Get (r : ToolRegistry) (name : string) : option Tool :=
  tools r !! name.

(** Go iterates a map in no fixed order; the order of [map_to_list]
    stands for one of them. *)
Definition Definitions (r : ToolRegistry) : list ToolDefinition.t :=
  (λ kv : string * Tool, Definition_ kv.2) <$> map_to_list (tools r).

Record Agent : Type := {
  provider : LLMProvider;
  registry : ToolRegistry;
  history : list Message.t;
  system : string;
  updates : list StatusUpdate.t   (* the buffered channel, oldest first *)
}.

Definition NewAgent (provider : LLMProvider) (registry : ToolRegistry)
           (systemPrompt : string) : Agent :=
  {| provider := provider; registry := registry; history := [];
     system := systemPrompt; updates := [] |}.

Definition withHistory (a : Agent) (h : list Message.t) : Agent :=
  {| provider := provider a; registry := registry a; history := h;
     system := system a; updates := updates a |}.

(** A send that never blocks: dropped when the ten slots are taken.
    Receiving from the channel is the presentation layer's business and
    happens outside this model. *)
Definition sendUpdate (a : Agent) (msg : string) : Agent :=
  if (length (updates a) <? 10)%nat then
    {| provider := provider a; registry := registry a; history := history a;
       system := system a; updates := updates a ++ [StatusUpdate.mk msg] |}
  else a.

Definition actionLabel (name : string) : option string :=
  if (name =? "detect_installation_root")%string then Some "Detecting Hyprland installation..."
  else if (name =? "list_dir")%string then Some "Listing directory contents..."
  else if (name =? "read_file")%string then Some "Reading configuration file..."
  else if (name =? "parse_config")%string then Some "Parsing configuration structure..."
  else if (name =? "make_patch")%string then Some "Generating configuration patch..."
  else if (name =? "apply_patch")%string then Some "Requesting to apply patch..."
  else None.

(** The state the goroutines of one fan-out share: the agent (for its
    update channel), the tools' world and the result slots. *)
Definition Fanout : Type := (Agent * W * list Message.t)%type.

(** The body of the goroutine started for call number [i]. *)
Definition runToolCall (i : nat) (tc : ToolCall.t) (st : Fanout) : Fanout :=
  let '(a, w, results) := st in
  let name := FunctionCall.Name (ToolCall.Function tc) in
  let a := match actionLabel name with
           | Some label => sendUpdate a label
           | None => a
           end in
  match Get (registry a) name with
  | None =>
      (a, w,
       <[i := Message.mk RoleTool ("Error: Tool " +:+ name +:+ " not found")
                         name [] (ToolCall.ID tc)]> results)
  | Some tool =>
      let '(w', r) := Execute tool w (FunctionCall.Arguments (ToolCall.Function tc)) in
      let '(a, output) :=
        match r with
        | Err e => (sendUpdate a ("Error in " +:+ name +:+ ": " +:+ e), "Error: " +:+ e)
        | Ok output => (sendUpdate a ("Finished " +:+ name), output)
        end in
      (a, w', <[i := Message.mk RoleTool output name [] (ToolCall.ID tc)]> results)
  end.

(** Fan-out and fan-in: one slot per call, the goroutines run to
    completion in the order [order] (each taken as one step), and the
    slots are read after the last one finished. *)
Definition dispatch (a : Agent) (w : W) (calls : list ToolCall.t) (order : list nat)
  : Fanout :=
  foldl (λ st i, match calls !! i with
                 | Some tc => runToolCall i tc st
                 | None => st
                 end)
        (a, w, replicate (length calls) Message.zero) order.

Definition maxTurns : nat := 25.

Definition loopLimitText : string :=
  "Error: Agent loop limit reached without final response. I got stuck trying to solve this.".

Section Loop.

(** The completion order of the goroutines of turn [i] when it
    issues [n] calls. *)
Variable sched : nat → nat → list nat.

(** The [for] loop with [n] iterations left, at turn index [i]. *)
Fixpoint turns (n i : nat) (a : Agent) (e : P * W) : Agent * (P * W) * result string :=
  match n with
  | O => (sendUpdate a "Error: Loop limit reached", e, Ok loopLimitText)
  | S n' =>
      let a := sendUpdate a ("Thinking (Turn " +:+ pretty (i + 1)%nat +:+ ")...") in
      let '(p', outcome) := provider a e.1 (history a) (Definitions (registry a)) in
      match outcome with
      | ChatErr err DeadlineExceeded =>
          (sendUpdate a "Request timed out", (p', e.2),
           Err "LLM request timed out after waiting too long. The API may be slow or unavailable")
      | ChatErr err Canceled =>
          (sendUpdate a "Request cancelled", (p', e.2), Err "request was cancelled")
      | ChatErr err CtxNone =>
          (sendUpdate a "Error communicating with LLM", (p', e.2), Err err)
      | ChatOk resp =>
          let a := withHistory a (history a ++ [resp]) in
          match Message.ToolCalls resp with
          | [] => (sendUpdate a "Done", (p', e.2), Ok (Message.Content resp))
          | calls =>
              let '(a, w', results) :=
                dispatch a e.2 calls (sched i (length calls)) in
              turns n' (S i) (withHistory a (history a ++ results)) (p', w')
          end
      end
  end.

Definition ProcessMessage (a : Agent) (e : P * W) (input : string)
  : Agent * (P * W) * result string :=
  let a := sendUpdate a "Analysing request..." in
  let a :=
    if (length (history a) =? 0)%nat && negb (system a =? "")%string
    then withHistory a (history a ++ [Message.mk RoleSystem (system a) "" [] ""])
    else a in
  let a := withHistory a (history a ++ [Message.mk RoleUser input "" [] ""]) in
  turns maxTurns 0 a e.

End Loop.

Definition Reset (a : Agent) : Agent := withHistory a [].

End Agent.

Arguments Tool : clear implicits.
Arguments ToolRegistry : clear implicits.
Arguments LLMProvider : clear implicits.
Arguments Agent : clear implicits.

(** *** The providers

    The SDKs are not part of the repository: the call that reaches the
    service is a parameter, acting on the state [Svc] of everything behind it
    (the client, the network, the context and its deadline).  A provider
    either returns Go's pair or panics on an index or a nil pointer. *)

Inductive outcome (A : Type) : Type :=
| Returned (r : result A)
| Panicked.
Arguments Returned {A} r.
Arguments Panicked {A}.

(** [ctx.Err().Error()] *)
Definition ctxText (c : CtxErr) : string :=
  match c with
  | CtxNone => "<nil>"
  | DeadlineExceeded => "context deadline exceeded"
  | Canceled => "context canceled"
  end.

Section Providers.

Context {Svc : Type}.

(** What [ctx.Err()] reports in a given state. *)
Variable ctxErr : Svc → CtxErr.

(** A provider as the loop sees it.  The loop has no handler for a
    panic, which ends the program; it is shown as a failed call. *)
Definition asProvider (chat : Svc → list Message.t → list ToolDefinition.t → Svc * outcome Message.t)
  : LLMProvider Svc :=
  λ s messages tools,
    match chat s messages tools with
    | (s', Returned (Ok m)) => (s', ChatOk m)
    | (s', Returned (Err e)) => (s', ChatErr e (ctxErr s'))
    | (s', Panicked) => (s', ChatErr "panic" (ctxErr s'))
    end.

Section Gemini.

Context {J : Type}.

(** [json.Unmarshal] into a map: the map afterwards and whether it
    succeeded; the map literal with the one key [result]; [json.Marshal]
    of a map, as a string. *)
Variable unmarshalMap : string → J * bool.
Variable resultMap : string → J.
Variable marshalMap : J → string.

(** [cs.SendMessage]: the model's tools and system instruction, the
    session history and the parts to send. *)
Variable SendMessage :
  Svc → list (list Genai.FunctionDeclaration) → option (Genai.Content J) →
  list (Genai.Content J) → list (Genai.Part J) →
  Svc * result (Genai.GenerateContentResponse J).

Definition geminiRole (msg : Message.t) : string :=
  if (Message.Role msg =? RoleAssistant)%string then "model"
  else if (Message.Role msg =? RoleTool)%string then "function"
  else "user".

Definition geminiParts (msg : Message.t) : list (Genai.Part J) :=
  (if (Message.Content msg =? "")%string then []
   else [Genai.Text (Message.Content msg)]) ++
  ((λ tc : ToolCall.t,
      Genai.FunctionCall (FunctionCall.Name (ToolCall.Function tc))
        (unmarshalMap (FunctionCall.Arguments (ToolCall.Function tc))).1)
     <$> Message.ToolCalls msg) ++
  (if (Message.Role msg =? RoleTool)%string then
     [Genai.FunctionResponse (Message.Name msg)
        (let '(response, ok) := unmarshalMap (Message.Content msg) in
         if ok then response else resultMap (Message.Content msg))]
   else []).

(** The replay loop: a system message sets the system instruction, every
    other message is appended to the session history. *)
Fixpoint replay (messages : list Message.t) (sys : option (Genai.Content J))
         (hist : list (Genai.Content J))
  : option (Genai.Content J) * list (Genai.Content J) :=
  match messages with
  | [] => (sys, hist)
  | msg :: rest =>
      if (Message.Role msg =? RoleSystem)%string then
        replay rest (Some (Genai.mkContent "" [Genai.Text (Message.Content msg)])) hist
      else
        replay rest sys (hist ++ [Genai.mkContent (geminiRole msg) (geminiParts msg)])
  end.

Fixpoint parseParts (parts : list (Genai.Part J)) (result : Message.t) : Message.t :=
  match parts with
  | [] => result
  | part :: rest =>
      parseParts rest
        match part with
        | Genai.Text txt =>
            Message.mk (Message.Role result) (Message.Content result +:+ txt)
                       (Message.Name result) (Message.ToolCalls result)
                       (Message.ToolCallID result)
        | Genai.FunctionCall name args =>
            Message.mk (Message.Role result) (Message.Content result)
                       (Message.Name result)
                       (Message.ToolCalls result ++
                        [ToolCall.mk "" "function" (FunctionCall.mk name (marshalMap args))])
                       (Message.ToolCallID result)
        | _ => result
        end
  end.

Definition parseResponse (resp : Genai.GenerateContentResponse J) : outcome Message.t :=
  match Genai.Candidates resp with
  | [] => Returned (Err "no candidates returned")
  | cand :: _ =>
      match Genai.CandidateContent cand with
      | None => Panicked
      | Some content =>
          Returned (Ok (parseParts (Genai.Parts content)
                                   (Message.mk RoleAssistant "" "" [] "")))
      end
  end.

Definition GeminiProvider_Chat (s : Svc) (messages : list Message.t)
           (tools : list ToolDefinition.t) : Svc * outcome Message.t :=
  let toolDecls :=
    match tools with
    | [] => []
    | _ => [(λ t, Genai.mkDecl (ToolDefinition.Name t) (ToolDefinition.Description t))
              <$> tools]
    end in
  let '(sys, hist) := replay messages None [] in
  match last hist with
  | Some lastMsg =>
      if (Genai.Role lastMsg =? "user")%string then
        match SendMessage s toolDecls sys (removelast hist) (Genai.Parts lastMsg) with
        | (s', Err e) => (s', Returned (Err e))
        | (s', Ok resp) => (s', parseResponse resp)
        end
      else (s, Returned (Err "last message was not from user"))
  | None => (s, Returned (Err "last message was not from user"))
  end.

End Gemini.

Section OpenAI.

(** [client.CreateChatCompletion] and [time.Sleep] (in seconds). *)
Variable CreateChatCompletion :
  Svc → Openai.ChatCompletionRequest → Svc * result Openai.ChatCompletionResponse.
Variable Sleep : Svc → nat → Svc.

Record OpenAIProvider : Type := { model : string }.

Definition openaiMessage (msg : Message.t) : Openai.ChatCompletionMessage :=
  let role :=
    if (Message.Role msg =? RoleSystem)%string then "system"
    else if (Message.Role msg =? RoleAssistant)%string then "assistant"
    else if (Message.Role msg =? RoleTool)%string then "tool"
    else "user" in
  let toolCalls :=
    (λ tc : ToolCall.t,
       Openai.mkToolCall (ToolCall.ID tc) (ToolCall.Type_ tc)
         (FunctionCall.Name (ToolCall.Function tc))
         (FunctionCall.Arguments (ToolCall.Function tc)))
      <$> Message.ToolCalls msg in
  let content :=
    if (role =? "tool")%string && (Message.Content msg =? "")%string then "{}"
    else Message.Content msg in
  Openai.mkMessage role content (Message.Name msg) toolCalls (Message.ToolCallID msg).

Definition openaiRequest (p : OpenAIProvider) (messages : list Message.t)
           (tools : list ToolDefinition.t) : Openai.ChatCompletionRequest :=
  Openai.mkRequest (model p) (openaiMessage <$> messages)
    ((λ t, Openai.mkTool "function" (ToolDefinition.Name t)
             (ToolDefinition.Description t) (ToolDefinition.Parameters t)) <$> tools).

Definition fromOpenai (msg : Openai.ChatCompletionMessage) : Message.t :=
  Message.mk RoleAssistant (Openai.Content msg) ""
    ((λ tc, ToolCall.mk (Openai.ID tc) (Openai.Type_ tc)
              (FunctionCall.mk (Openai.FunctionName tc) (Openai.FunctionArguments tc)))
       <$> Openai.ToolCalls msg)
    "".

Definition maxRetries : nat := 3.

(** The retry loop with [n] attempts left, at attempt number [attempt]. *)
Fixpoint attempts (n attempt : nat) (p : OpenAIProvider) (s : Svc)
         (messages : list Message.t) (tools : list ToolDefinition.t)
         (lastErr : option string) : Svc * outcome Message.t :=
  match n with
  | O =>
      (s, Returned (Err ("openai completion failed after " +:+ pretty maxRetries +:+
                         " attempts: " +:+ default "%!w(<nil>)" lastErr)))
  | S n' =>
      let s := if (0 <? attempt)%nat then Sleep s (2 ^ attempt) else s in
      match CreateChatCompletion s (openaiRequest p messages tools) with
      | (s', Err e) =>
          match ctxErr s' with
          | CtxNone => attempts n' (S attempt) p s' messages tools (Some e)
          | c => (s', Returned (Err ("openai completion error (context): " +:+ ctxText c)))
          end
      | (s', Ok resp) =>
          match Openai.Choices resp with
          | [] => (s', Panicked)
          | msg :: _ => (s', Returned (Ok (fromOpenai msg)))
          end
      end
  end.

Definition OpenAIProvider_Chat (p : OpenAIProvider) (s : Svc) (messages : list Message.t)
           (tools : list ToolDefinition.t) : Svc * outcome Message.t :=
  attempts maxRetries 0 p s messages tools None.

End OpenAI.

End Providers.

End Assistant.

(** ** Package main: the wiring *)

Module Main.

Import Configuration Assistant.

Definition hydeBackend : Backend := {| kind := KHyDE; ConfigPath := "" |}.
Definition nativeBackend : Backend := NewNativeBackend.
Definition omarchyBackend : Backend := {| kind := KOmarchy; ConfigPath := "" |}.

Definition backends : list Backend := [hydeBackend; nativeBackend; omarchyBackend].

(** The loop of [main] that picks the active backend: the first that
    detects, the native one by default.  The error of [Detect] is
    ignored. *)
Fixpoint detectActive (w : OS.World) (bs : list Backend) (dflt : Backend) : Backend :=
  match bs with
  | [] => dflt
  | b :: rest =>
      match Detect b w "" with
      | (b', Ok true) => b'
      | _ => detectActive w rest dflt
      end
  end.

Definition buildSystemPrompt (cfg : Config) (backendType : ConfigSourceType) : string :=
  let sec := default (Native (Security cfg)) (securityOf cfg backendType) in
  let allowedDirsStr := GoStrings.Join (AllowedDirs sec) ", " in
  let allowedFilesStr := GoStrings.Join (AllowedFiles sec) ", " in
  GoStrings.Join
    ["You are HyprAgent, an expert assistant for configuring the Hyprland window manager.";
     "Your goal is to help the user modify their Hyprland configuration safely and correctly.";
     "";
     "ENVIRONMENT:";
     "- Installation Type: " +:+ backendType;
     "- Allowed Directories: " +:+ allowedDirsStr;
     "- Allowed Files: " +:+ allowedFilesStr;
     "";
     "SECURITY CONSTRAINTS:";
     "- You can ONLY read/write files within the allowed directories and files listed above.";
     "- Any attempt to access files outside these paths will be rejected.";
     "- The configuration root is ~/.config/hypr/";
     "";
     "GUIDELINES:";
     "1. DETECTION: Start by using 'detect_installation_root' to understand the environment (Native, HyDE, Omarchy).";
     "2. EXPLORATION: Use 'list_dir' and 'read_file' to locate relevant config files within allowed paths.";
     "3. ANALYSIS: Read the config files to understand the current state.";
     "4. PLANNING: Formulate a plan.";
     "5. PATCHING PROTOCOL (IMPORTANT):";
     "   - FIRST, use 'make_patch' to generate the diff.";
     "   - STOP and show this diff to the user in your response.";
     "   - ASK the user for confirmation (e.g., " +:+ dq +:+ "Shall I apply this change?" +:+ dq +:+ ").";
     "   - WAIT for the user to reply " +:+ dq +:+ "Yes" +:+ dq +:+ " or " +:+ dq +:+ "Apply" +:+ dq +:+ ".";
     "   - ONLY THEN use 'apply_patch' to execute the change.";
     "   - DO NOT call 'apply_patch' in the same turn as 'make_patch'.";
     "6. SAFETY:";
     "   - The system automatically snapshots files before 'apply_patch'.";
     "   - Verify that your generated config is valid Hyprland syntax.";
     "7. ROLLBACK:";
     "   - If the user says " +:+ dq +:+ "undo" +:+ dq +:+ ", " +:+ dq +:+ "revert" +:+ dq +:+
       ", or " +:+ dq +:+ "it broke" +:+ dq +:+ ", use the 'rollback' tool.";
     ""]
    nl.

(** The agent as [main] builds it: from the provider, the registry and the
    system prompt.  The prompt is all that depends on the configuration. *)
Definition newAgent {P W : Type} (cfg : Config) (detectedType : ConfigSourceType)
           (llm : LLMProvider P) (registry : ToolRegistry W) : Agent P W :=
  NewAgent llm registry (buildSystemPrompt cfg detectedType).

End Main.

(** ** Concrete situations used by the examples below *)

Module Scenario.

Import Configuration Assistant.

(** A home directory with a native Hyprland configuration. *)
Definition userEnv : gmap string string := {[ "HOME" := "/home/user" ]}.

Definition nativeTree : gmap string OS.node :=
  list_to_map
    [("/home", OS.Dir); ("/home/user", OS.Dir); ("/home/user/.config", OS.Dir);
     ("/home/user/.config/hypr", OS.Dir);
     ("/home/user/.config/hypr/hyprland.conf", OS.File ("a=1" +:+ nl))].

Definition nativeWorld : OS.World :=
  OS.mkWorld userEnv "/home/user" "20260101-120000" nativeTree.

(** The same, with the [omarchy] directory of an Omarchy installation. *)
Definition omarchyWorld : OS.World :=
  OS.setFs nativeWorld (<["/home/user/.config/hypr/omarchy" := OS.Dir]> nativeTree).

(** A directory beside the configuration root whose name starts with the
    root's name. *)
Definition siblingPath : string := "/home/user/.config/hypr-backup/hyprland.conf".

(** A well-formed patch wrapped in a code fence. *)
Definition hunk : string :=
  "@@ -1,4 +1,4 @@" +:+ nl +:+ " a=" +:+ nl +:+ "-1" +:+ nl +:+ "+2" +:+ nl +:+ " %0A" +:+ nl.

Definition fencedPatch : string :=
  "```diff" +:+ nl +:+ hunk +:+ "```".

(** A stand-in for the diff library that knows the one hunk above. *)
Definition toyFromText (text : string) : result (list (string * string)) :=
  if (text =? GoStrings.TrimSpace hunk)%string then Ok [("a=1" +:+ nl, "a=2" +:+ nl)]
  else Err "invalid patch string".

Fixpoint toyApply (patches : list (string * string)) (text : string)
  : string * list bool :=
  match patches with
  | [] => (text, [])
  | (old, new) :: rest =>
      if (text =? old)%string
      then let '(t, r) := toyApply rest new in (t, true :: r)
      else let '(t, r) := toyApply rest text in (t, false :: r)
  end.

(** A provider that asks for a tool on every turn and counts its calls. *)
Definition busyProvider : LLMProvider nat :=
  λ n _ _,
    (S n, ChatOk (Message.mk RoleAssistant "" ""
                    [ToolCall.mk "call_1" "function" (FunctionCall.mk "noop" "{}")] "")).

(** Goroutines finishing in the order they were started. *)
Definition fifo : nat → nat → list nat := λ _ n, seq 0 n.

Definition fiveTurns : Config :=
  {| Configuration.LLM := Configuration.LLM DefaultConfig;
     Configuration.Agent := {| MaxTurns := 5; Debug := false |};
     Configuration.Security := Configuration.Security DefaultConfig |}.

(** A snapshot that holds an older copy of the configuration. *)
Definition backups : Safety.SnapshotService :=
  {| Safety.BackupDir := "/home/user/.local/share/hyprAgent/backups" |}.

Definition snapshotTree : gmap string OS.node :=
  list_to_map
    [("/home/user/.local", OS.Dir); ("/home/user/.local/share", OS.Dir);
     ("/home/user/.local/share/hyprAgent", OS.Dir);
     ("/home/user/.local/share/hyprAgent/backups", OS.Dir);
     ("/home/user/.local/share/hyprAgent/backups/20260101-110000", OS.Dir);
     ("/home/user/.local/share/hyprAgent/backups/20260101-110000/hyprland.conf",
      OS.File ("a=0" +:+ nl))] ∪ nativeTree.

Definition snapshotWorld : OS.World := OS.setFs nativeWorld snapshotTree.

(** Three tool calls issued at once, and goroutines that finish in the
    reverse order.  The tools log their name in the shared world, so the
    order of execution is visible there. *)
Definition echoTool (name : string) : Tool (list string) :=
  {| Definition_ := ToolDefinition.mk name "echo" "{}";
     Execute := λ w args, (w ++ [name], Ok (name +:+ args)) |}.

Definition echoRegistry : ToolRegistry (list string) :=
  Register (Register NewToolRegistry (echoTool "first")) (echoTool "second").

Definition threeCalls : list ToolCall.t :=
  [ToolCall.mk "id_a" "function" (FunctionCall.mk "first" "(1)");
   ToolCall.mk "id_b" "function" (FunctionCall.mk "second" "(2)");
   ToolCall.mk "id_c" "function" (FunctionCall.mk "third" "(3)")].

Definition threeCallsThenDone : LLMProvider nat :=
  λ n _ _,
    (S n, ChatOk (match n with
                  | O => Message.mk RoleAssistant "" "" threeCalls ""
                  | S _ => Message.mk RoleAssistant "done" "" [] ""
                  end)).

Definition lifo : nat → nat → list nat := λ _ n, rev (seq 0 n).

(** The patch tool of a detected native backend, with and without a
    snapshot service. *)
Definition detectedNative : Backend :=
  {| kind := KNative; ConfigPath := "/home/user/.config/hypr/hyprland.conf" |}.

Definition patchTool (snapshot : option Safety.SnapshotService) : ApplyPatchTool :=
  {| apBackend := detectedNative; apSnapshot := snapshot;
     apConfig := DefaultConfig; apConfirm := None |}.

Definition patchArgs : ApplyPatchArgs := {| apPath := ""; apPatch := hunk |}.

(** The snapshot world after the patch was applied once: the hunk is stale. *)
Definition patchedWorld : OS.World :=
  OS.setFs snapshotWorld
    (<["/home/user/.config/hypr/hyprland.conf" := OS.File ("a=2" +:+ nl)]> snapshotTree).

(** The process started in the configuration root itself. *)
Definition rootWorld : OS.World :=
  OS.mkWorld userEnv "/home/user/.config/hypr" "20260101-120000" nativeTree.

(** The process started in a directory beside the configuration root. *)
Definition besideWorld : OS.World :=
  OS.mkWorld userEnv "/home/user/.config/other" "20260101-120000" nativeTree.

Definition readTool : ReadFileTool :=
  {| rfConfig := DefaultConfig; rfBackend := detectedNative |}.

(** A home directory where the configuration root is a regular file. *)
Definition fileRootWorld : OS.World :=
  OS.setFs nativeWorld
    (list_to_map
       [("/home", OS.Dir); ("/home/user", OS.Dir); ("/home/user/.config", OS.Dir);
        ("/home/user/.config/hypr", OS.File "")]).




(** The patch tool of a backend that detected nothing, so that it cannot
    list its source, and a patch with an explicit target. *)
Definition undetectedTool : ApplyPatchTool :=
  {| apBackend := NewNativeBackend; apSnapshot := Some backups;
     apConfig := DefaultConfig; apConfirm := None |}.

Definition explicitArgs : ApplyPatchArgs :=
  {| apPath := "/home/user/.config/hypr/hyprland.conf"; apPatch := hunk |}.

(** A stand-in for the JSON decoder of the rollback arguments that knows
    the empty object and the object with one snapshot id. *)
Definition rollbackJSON (id : string) : string :=
  "{" +:+ dq +:+ "snapshot_id" +:+ dq +:+ ": " +:+ dq +:+ id +:+ dq +:+ "}".

Definition decodeRollback (args : string) : result RollbackArgs :=
  if (args =? "{}")%string then Ok {| SnapshotID := "" |}
  else if (args =? rollbackJSON "20260101-110000")%string
       then Ok {| SnapshotID := "20260101-110000" |}
       else Err "unexpected end of JSON input".

End Scenario.

Import Configuration Assistant.

(** ** Notions used in the statements *)

(** What [IR.String] writes for lines with the given raw texts. *)
Definition serialize (ls : list string) : string :=
  fold_right (λ l acc, l +:+ nl +:+ acc) "" ls.

(** An element without separator. *)
Definition noSlash (e : string) : Prop := GoStrings.Split e "/"%char = [e].

(** An element [Clean] keeps as it is. *)
Definition plain (e : string) : Prop :=
  e ≠ "" ∧ e ≠ "." ∧ e ≠ ".." ∧ noSlash e.

(** The elements a rooted path is cleaned to. *)
Definition rootedElems (p : string) : list string :=
  Filepath.cleanElems true (GoStrings.Split p "/"%char).

(** A relative path climbs when its cleaned form keeps a dot-dot. *)
Definition climbs (p : string) : Prop :=
  ".." ∈ Filepath.cleanElems false (GoStrings.Split p "/"%char).

(** The statement that an accepted relative path is read where it was
    authorized only if the working directory is the configuration root. *)
Definition sameFileOnlyAtRoot : Prop :=
  ∀ (c : Config) (w : OS.World) (backendType : ConfigSourceType) (p home : string),
    OS.UserHomeDir w = Ok home →
    Filepath.IsAbs p = false →
    IsPathAllowed c w backendType p = (true, None) →
    OS.abspath w p = absTargetOf (configRootOf home) p →
    OS.cwd w = configRootOf home.

(** Two worlds that differ in the file tree only. *)
Definition sameProcess (w w' : OS.World) : Prop :=
  OS.cwd w' = OS.cwd w ∧ OS.env w' = OS.env w ∧ OS.clock w' = OS.clock w.

(** The destinations a snapshot of [files] writes. *)
Definition snapshotTargets (s : Safety.SnapshotService) (w : OS.World)
           (files : list string) : list string :=
  (λ src, OS.abspath w (Filepath.Join [Filepath.Join [Safety.BackupDir s; OS.clock w];
                                        Filepath.Base src])) <$> files.


(** A result slot filled for the call [tc]: a tool message that carries
    the call's id and name, and whose content is the not-found text for an
    unregistered name, or else the output (or the embedded error) of one
    execution of the tool on the call's arguments. *)
Definition slotFilled {W : Type} (reg : ToolRegistry W) (tc : ToolCall.t)
           (m : Message.t) : Prop :=
  let name := FunctionCall.Name (ToolCall.Function tc) in
  Message.Role m = RoleTool ∧
  Message.ToolCallID m = ToolCall.ID tc ∧
  Message.Name m = name ∧
  match Get reg name with
  | None => Message.Content m = "Error: Tool " +:+ name +:+ " not found"
  | Some tool =>
      ∃ w0, Message.Content m =
            match (Execute tool w0 (FunctionCall.Arguments (ToolCall.Function tc))).2 with
            | Ok output => output
            | Err e => "Error: " +:+ e
            end
  end.

(** A provider wrapped so that its state also counts the calls made. *)
Definition counting {P : Type} (prov : LLMProvider P) : LLMProvider (P * nat) :=
  λ s h d, let '(p', o) := prov s.1 h d in ((p', S s.2), o).

(** The restoring behaviour the rollback capability is expected to show:
    every target with a same-named copy in the snapshot holds that copy
    afterwards. *)
Definition restoresSnapshot (s : Safety.SnapshotService) (id : string)
           (targets : list string) (w w' : OS.World) : Prop :=
  ∀ target data,
    target ∈ targets →
    OS.ReadFile w (Filepath.Join [Safety.BackupDir s; id; Filepath.Base target]) = Ok data →
    OS.ReadFile w' target = Ok data.

(** A string without the separator. *)
Definition sepFree (sep : ascii) (e : string) : Prop := GoStrings.Split e sep = [e].

(** The last message of a conversation that is not a system message. *)
Definition lastSpoken (messages : list Message.t) : option Message.t :=
  last (List.filter (λ m, negb (Message.Role m =? RoleSystem)%string) messages).

(** A client wrapped so that its state also counts the requests made. *)
Definition countingRequests {Svc : Type}
           (create : Svc → Openai.ChatCompletionRequest →
                     Svc * result Openai.ChatCompletionResponse)
  : Svc * nat → Openai.ChatCompletionRequest →
    (Svc * nat) * result Openai.ChatCompletionResponse :=
  λ s req, let '(s', r) := create s.1 req in ((s', S s.2), r).

(** ** Stand-ins for the model services, used by the examples *)

Module Services.

(** A Gemini service that answers every message with one function call
    and counts the messages sent; JSON maps are kept as their text. *)
Definition geminiSend (s : nat) (_ : list (list Genai.FunctionDeclaration))
           (_ : option (Genai.Content string)) (_ : list (Genai.Content string))
           (_ : list (Genai.Part string))
  : nat * result (Genai.GenerateContentResponse string) :=
  (S s, Ok (Genai.mkResponse
              [Genai.mkCandidate
                 (Some (Genai.mkContent "model" [Genai.FunctionCall "first" "{}"]))])).

Definition geminiChat : nat → list Message.t → list ToolDefinition.t → nat * outcome Message.t :=
  GeminiProvider_Chat (λ s, (s, true)) (λ s, s) (λ j, j) geminiSend.

Definition geminiAgent : Agent nat (list string) :=
  NewAgent (asProvider (λ _, CtxNone) geminiChat) Scenario.echoRegistry "".

(** An OpenAI service that fails every request. *)
Definition failingClient (s : unit) (_ : Openai.ChatCompletionRequest)
  : unit * result Openai.ChatCompletionResponse := (s, Err "503").

Definition openaiAgent : Agent (unit * nat) unit :=
  NewAgent (asProvider (λ _, CtxNone)
              (OpenAIProvider_Chat (λ _, CtxNone) (countingRequests failingClient)
                 (λ s _, s) {| model := "gpt" |}))
           NewToolRegistry "".

(** The configuration file without its final newline. *)
Definition unterminatedWorld : OS.World :=
  OS.setFs Scenario.nativeWorld
    (<["/home/user/.config/hypr/hyprland.conf" := OS.File "a=1"]> Scenario.nativeTree).

(** A home directory without any Hyprland configuration. *)
Definition emptyWorld : OS.World := OS.setFs Scenario.nativeWorld ∅.

End Services.

(** * Properties *)

(** ** Basic facts about strings *)

Module StringFacts.

Lemma app_cons (c : ascii) (s t : string) : String c s +:+ t = String c (s +:+ t).
Proof. reflexivity. Qed.

Lemma app_nil_l (t : string) : "" +:+ t = t.
Proof. reflexivity. Qed.

Lemma app_nil_r (s : string) : s +:+ "" = s.
Proof. induction s as [|c s IH]; [reflexivity|]. by rewrite app_cons, IH. Qed.

Lemma app_assoc (a b c : string) : (a +:+ b) +:+ c = a +:+ (b +:+ c).
Proof. induction a as [|x a IH]; [reflexivity|]. by rewrite !app_cons, IH. Qed.

Lemma Split_not_nil (s : string) (sep : ascii) : GoStrings.Split s sep ≠ [].
Proof.
  induction s as [|c s IH]; simpl; [discriminate|].
  destruct (Ascii.eqb c sep); [discriminate|].
  destruct (GoStrings.Split s sep); [contradiction|discriminate].
Qed.

(** Joining what [Split] produced gives the string back. *)
Lemma Join_Split (s : string) (sep : ascii) :
  GoStrings.Join (GoStrings.Split s sep) (String sep "") = s.
Proof.
  unfold GoStrings.Join.
  induction s as [|c s IH]; [reflexivity|]. simpl.
  destruct (Ascii.eqb_spec c sep) as [->|Hne].
  - pose proof (Split_not_nil s sep) as Hnil.
    destruct (GoStrings.Split s sep) as [|h t] eqn:E; [contradiction|].
    change (String.concat (String sep "") ("" :: h :: t))
      with (String sep (String.concat (String sep "") (h :: t))).
    by rewrite IH.
  - pose proof (Split_not_nil s sep) as Hnil.
    destruct (GoStrings.Split s sep) as [|h t] eqn:E; [contradiction|].
    destruct t as [|h' t].
    + simpl in *. by rewrite IH.
    + change (String.concat (String sep "") (String c h :: h' :: t))
        with (String c (String.concat (String sep "") (h :: h' :: t))).
      by rewrite IH.
Qed.

(** Splitting distributes over a separator in the middle. *)
Lemma Split_app_sep (a b : string) (sep : ascii) :
  GoStrings.Split (a +:+ String sep b) sep = GoStrings.Split a sep ++ GoStrings.Split b sep.
Proof.
  induction a as [|c a IH].
  - rewrite app_nil_l. simpl. by rewrite Ascii.eqb_refl.
  - rewrite app_cons. simpl. rewrite IH.
    destruct (Ascii.eqb c sep); [reflexivity|].
    pose proof (Split_not_nil a sep).
    destruct (GoStrings.Split a sep); [contradiction|reflexivity].
Qed.

(** The last piece of a split string is empty when the string ends with
    the separator. *)
Lemma Split_last_terminated (body : string) (sep : ascii) :
  List.last (GoStrings.Split (body +:+ String sep "") sep) "" = "".
Proof. rewrite Split_app_sep. simpl. apply last_last. Qed.

End StringFacts.

(** ** Cleaning paths *)

Module PathFacts.

Lemma Split_noSlash (s : string) : Forall noSlash (GoStrings.Split s "/"%char).
Proof.
  induction s as [|c s IH]; [by repeat constructor|].
  cbn [GoStrings.Split]. destruct (Ascii.eqb c "/") eqn:Hc.
  - constructor; [reflexivity|exact IH].
  - pose proof (StringFacts.Split_not_nil s "/"%char).
    destruct (GoStrings.Split s "/"%char) as [|h t]; [contradiction|].
    apply Forall_cons in IH as [Hh Ht]. constructor; [|exact Ht].
    unfold noSlash in *. cbn [GoStrings.Split]. by rewrite Hc, Hh.
Qed.

Lemma Join_cons2 (x y : string) (l : list string) :
  GoStrings.Join (x :: y :: l) "/" = x +:+ String "/"%char (GoStrings.Join (y :: l) "/").
Proof. reflexivity. Qed.

(** Splitting undoes joining, for elements without separator. *)
Lemma Split_Join (l : list string) :
  l ≠ [] → Forall noSlash l → GoStrings.Split (GoStrings.Join l "/") "/"%char = l.
Proof.
  induction l as [|x l IH]; [done|]. intros _ Hl.
  apply Forall_cons in Hl as [Hx Hl].
  destruct l as [|y l]; [exact Hx|].
  rewrite Join_cons2, StringFacts.Split_app_sep, Hx, IH; done.
Qed.

Lemma plain_noSlash (l : list string) : Forall plain l → Forall noSlash l.
Proof. intros H. eapply Forall_impl; [exact H|]. by intros e (_&_&_&?). Qed.

Lemma Join_inj (l1 l2 : list string) :
  Forall plain l1 → Forall plain l2 →
  GoStrings.Join l1 "/" = GoStrings.Join l2 "/" → l1 = l2.
Proof.
  intros H1 H2 Heq.
  assert (Hempty : ∀ l, Forall plain l → GoStrings.Join l "/" = "" → l = []).
  { intros [|x l] Hl Hj; [done|]. exfalso.
    pose proof (Split_Join (x :: l) ltac:(done) (plain_noSlash _ Hl)) as Hs.
    rewrite Hj in Hs. injection Hs as <- _. apply Forall_cons in Hl as [(?&_) _]. done. }
  destruct l1 as [|x1 l1].
  - symmetry. apply Hempty; [done|]. by rewrite <- Heq.
  - destruct l2 as [|x2 l2]; [by apply Hempty|].
    rewrite <- (Split_Join (x1 :: l1)), <- (Split_Join (x2 :: l2)), Heq;
      auto using plain_noSlash.
Qed.

Lemma cleanStep_plain (rooted : bool) (kept : list string) (e : string) :
  plain e → Filepath.cleanStep rooted kept e = e :: kept.
Proof.
  intros (H1 & H2 & H3 & _). unfold Filepath.cleanStep.
  apply String.eqb_neq in H1, H2, H3. by rewrite H1, H2, H3.
Qed.

Lemma fold_plain (rooted : bool) (elems : list string) : ∀ kept,
  Forall plain elems →
  fold_left (Filepath.cleanStep rooted) elems kept = rev elems ++ kept.
Proof.
  induction elems as [|e elems IH]; intros kept H; [reflexivity|].
  apply Forall_cons in H as [He H]. cbn [fold_left rev].
  rewrite cleanStep_plain, IH, <- app_assoc; done.
Qed.

(** What a rooted path keeps is plain. *)
Lemma cleanStep_rooted_plain (kept : list string) (e : string) :
  Forall plain kept → noSlash e → Forall plain (Filepath.cleanStep true kept e).
Proof.
  intros Hk He. unfold Filepath.cleanStep.
  destruct (String.eqb_spec e "") as [|H1]; [done|].
  destruct (String.eqb_spec e ".") as [|H2]; [done|]. cbn [orb].
  destruct (String.eqb_spec e "..") as [->|H3].
  - destruct kept as [|top rest]; [done|].
    apply Forall_cons in Hk as [(_&_&Ht&_) Hr].
    apply String.eqb_neq in Ht. by rewrite Ht.
  - by constructor.
Qed.

Lemma fold_rooted_plain (elems : list string) : ∀ kept,
  Forall noSlash elems → Forall plain kept →
  Forall plain (fold_left (Filepath.cleanStep true) elems kept).
Proof.
  induction elems as [|e elems IH]; intros kept He Hk; [done|].
  apply Forall_cons in He as [He Hes]. cbn [fold_left].
  apply IH; [done|]. by apply cleanStep_rooted_plain.
Qed.

Lemma rootedElems_plain (p : string) : Forall plain (rootedElems p).
Proof.
  unfold rootedElems, Filepath.cleanElems. apply Forall_rev.
  apply fold_rooted_plain; [apply Split_noSlash|constructor].
Qed.

Lemma Clean_rooted (p : string) :
  Filepath.IsAbs p = true → Filepath.Clean p = "/" +:+ GoStrings.Join (rootedElems p) "/".
Proof. intros H. unfold Filepath.Clean. by rewrite H. Qed.

Lemma IsAbs_slash (s : string) : Filepath.IsAbs ("/" +:+ s) = true.
Proof. by destruct s. Qed.

Lemma prefix_nil (s : string) : String.prefix "" s = true.
Proof. by destruct s. Qed.

Lemma IsAbs_app (a b : string) : Filepath.IsAbs a = true → Filepath.IsAbs (a +:+ b) = true.
Proof.
  destruct a as [|c a]; [discriminate|]. rewrite StringFacts.app_cons.
  unfold Filepath.IsAbs, GoStrings.HasPrefix. cbn [String.prefix].
  destruct (Ascii.ascii_dec _ _); [|done]. intros _. apply prefix_nil.
Qed.

Lemma IsAbs_Clean (p : string) : Filepath.IsAbs p = true → Filepath.IsAbs (Filepath.Clean p) = true.
Proof. intros H. rewrite Clean_rooted by done. apply IsAbs_slash. Qed.

(** The elements of a cleaned rooted path are the ones it was built from. *)
Lemma rootedElems_slash_Join (l : list string) :
  Forall plain l → rootedElems ("/" +:+ GoStrings.Join l "/") = l.
Proof.
  intros Hl. unfold rootedElems, Filepath.cleanElems.
  change ("/" +:+ GoStrings.Join l "/") with ("" +:+ String "/"%char (GoStrings.Join l "/")).
  rewrite StringFacts.Split_app_sep. cbn [GoStrings.Split app fold_left].
  change (Filepath.cleanStep true [] "") with (@nil string).
  destruct l as [|x l]; [reflexivity|].
  rewrite Split_Join by (done || by apply plain_noSlash).
  rewrite fold_plain by done. by rewrite app_nil_r, rev_involutive.
Qed.

Lemma rootedElems_Clean (p : string) :
  Filepath.IsAbs p = true → rootedElems (Filepath.Clean p) = rootedElems p.
Proof.
  intros H. rewrite Clean_rooted by done.
  apply rootedElems_slash_Join, rootedElems_plain.
Qed.

(** Cleaning a rooted path twice is cleaning it once. *)
Lemma Clean_idempotent (p : string) :
  Filepath.IsAbs p = true → Filepath.Clean (Filepath.Clean p) = Filepath.Clean p.
Proof.
  intros H. rewrite (Clean_rooted (Filepath.Clean p)) by by apply IsAbs_Clean.
  by rewrite rootedElems_Clean, <- Clean_rooted.
Qed.

(** Two rooted paths clean to the same string exactly when they clean to
    the same elements. *)
Lemma Clean_eq_elems (p q : string) :
  Filepath.IsAbs p = true → Filepath.IsAbs q = true →
  Filepath.Clean p = Filepath.Clean q ↔ rootedElems p = rootedElems q.
Proof.
  intros Hp Hq. rewrite !Clean_rooted by done. split; [|by intros ->].
  intros H. injection H as H. apply Join_inj; auto using rootedElems_plain.
Qed.

(** In a relative path a kept dot-dot is never removed again. *)
Lemma dotdot_persists (elems : list string) : ∀ kept,
  ".." ∈ kept → ".." ∈ fold_left (Filepath.cleanStep false) elems kept.
Proof.
  induction elems as [|e elems IH]; intros kept Hk; [done|].
  cbn [fold_left]. apply IH. unfold Filepath.cleanStep.
  destruct (_ || _); [done|].
  destruct (String.eqb_spec e "..") as [->|_]; [|by apply list_elem_of_further].
  destruct kept as [|top rest]; [by apply elem_of_nil in Hk|].
  destruct (String.eqb_spec top "..") as [->|Hne]; [apply list_elem_of_here|].
  apply elem_of_cons in Hk as [?|?]; done.
Qed.

(** A relative path that never climbs above its start is cleaned the same
    way on top of any rooted path. *)
Lemma fold_transfer (elems : list string) : ∀ kept below,
  ".." ∉ kept →
  ".." ∉ fold_left (Filepath.cleanStep false) elems kept →
  fold_left (Filepath.cleanStep true) elems (kept ++ below)
  = fold_left (Filepath.cleanStep false) elems kept ++ below.
Proof.
  induction elems as [|e elems IH]; intros kept below Hk Hfinal; [done|].
  cbn [fold_left] in *.
  assert (Hstep : ".." ∉ Filepath.cleanStep false kept e).
  { intros Hin. by apply Hfinal, dotdot_persists. }
  rewrite <- IH by done. f_equal.
  unfold Filepath.cleanStep in *.
  destruct (_ || _); [done|].
  destruct (String.eqb_spec e "..") as [->|_]; [|done].
  destruct kept as [|top rest].
  - exfalso. apply Hstep, list_elem_of_here.
  - cbn [app]. destruct (String.eqb_spec top "..") as [->|_]; [|done].
    exfalso. apply Hk, list_elem_of_here.
Qed.

Lemma elem_of_rev {A} (x : A) (l : list A) : x ∈ rev l ↔ x ∈ l.
Proof. rewrite !list_elem_of_In. symmetry. apply in_rev. Qed.

Lemma rootedElems_under (base p : string) :
  ¬ climbs p →
  rootedElems (base +:+ String "/"%char p)
  = rootedElems base ++ Filepath.cleanElems false (GoStrings.Split p "/"%char).
Proof.
  intros Hp. unfold rootedElems, Filepath.cleanElems.
  rewrite StringFacts.Split_app_sep, fold_left_app.
  pose proof (fold_transfer (GoStrings.Split p "/"%char) []
                (fold_left (Filepath.cleanStep true) (GoStrings.Split base "/"%char) []))
    as Ht.
  cbn [app] in Ht. rewrite Ht; [by rewrite rev_app_distr|apply not_elem_of_nil|].
  intros Hin. apply Hp. unfold climbs, Filepath.cleanElems. by apply elem_of_rev.
Qed.

Lemma Join2 (base p : string) :
  Filepath.IsAbs base = true →
  Filepath.Join [base; p] = Filepath.Clean (base +:+ String "/"%char p).
Proof.
  intros H. cbn [Filepath.Join].
  destruct (String.eqb_spec base "") as [->|_]; [discriminate|reflexivity].
Qed.

(** Under two rooted directories, a relative path that does not climb
    denotes the same cleaned path exactly when the directories clean to
    the same path. *)
Lemma Join_same_iff (base1 base2 p : string) :
  Filepath.IsAbs base1 = true → Filepath.IsAbs base2 = true → ¬ climbs p →
  Filepath.Join [base1; p] = Filepath.Join [base2; p]
  ↔ Filepath.Clean base1 = Filepath.Clean base2.
Proof.
  intros H1 H2 Hp. rewrite !Join2 by done.
  rewrite !Clean_eq_elems by (done || by apply IsAbs_app).
  rewrite !rootedElems_under by done.
  split; [apply app_inv_tail|by intros ->].
Qed.

(** *** The backup directory lies outside the configuration root *)

Lemma Join_app (l1 l2 : list string) :
  l1 ≠ [] → l2 ≠ [] →
  GoStrings.Join (l1 ++ l2) "/" = GoStrings.Join l1 "/" +:+ String "/"%char (GoStrings.Join l2 "/").
Proof.
  intros H1 H2. induction l1 as [|x l1 IH]; [done|].
  destruct l1 as [|y l1].
  - destruct l2 as [|z l2]; [done|reflexivity].
  - change ((x :: y :: l1) ++ l2) with (x :: y :: (l1 ++ l2)).
    rewrite !Join_cons2. change (y :: l1 ++ l2) with ((y :: l1) ++ l2).
    rewrite IH by done. by rewrite StringFacts.app_assoc.
Qed.

Lemma prefix_app (a x y : string) :
  String.prefix (a +:+ x) (a +:+ y) = String.prefix x y.
Proof.
  induction a as [|c a IH]; [reflexivity|].
  rewrite !StringFacts.app_cons. cbn [String.prefix].
  by destruct (Ascii.ascii_dec c c).
Qed.

(** The elements of a path made of a rooted directory and plain names. *)
Lemma rootedElems_names (base : string) (names : list string) :
  Filepath.IsAbs base = true → names ≠ [] → Forall plain names →
  rootedElems (base +:+ String "/"%char (GoStrings.Join names "/")) = rootedElems base ++ names.
Proof.
  intros Hb Hne Hn.
  assert (Hc : Filepath.cleanElems false (GoStrings.Split (GoStrings.Join names "/") "/"%char)
               = names).
  { unfold Filepath.cleanElems.
    rewrite Split_Join by (done || by apply plain_noSlash).
    rewrite fold_plain by done. by rewrite app_nil_r, rev_involutive. }
  rewrite rootedElems_under; [by rewrite Hc|].
  unfold climbs. rewrite Hc. intros Hin.
  eapply Forall_forall in Hn as (_&_&?&_); [|exact Hin]. done.
Qed.

(** A cleaned path under the home directory, by its elements. *)
Lemma Join_home (home : string) (names : list string) :
  Filepath.IsAbs home = true → names ≠ [] → Forall plain names →
  Filepath.Join (home :: names)
  = "/" +:+ GoStrings.Join (rootedElems home ++ names) "/".
Proof.
  intros Hh Hne Hn. cbn [Filepath.Join].
  destruct (String.eqb_spec home "") as [->|_]; [discriminate|].
  destruct names as [|n names]; [done|].
  change (GoStrings.Join (home :: n :: names) "/")
    with (home +:+ String "/"%char (GoStrings.Join (n :: names) "/")).
  rewrite Clean_rooted by (by apply IsAbs_app).
  by rewrite rootedElems_names.
Qed.

(** The configuration root is not a byte prefix of a file in a snapshot
    directory under the default backup directory of the same home. *)
Lemma root_not_prefix_of_backup (elems : list string) (id base : string) :
  String.prefix
    ("/" +:+ GoStrings.Join (elems ++ [".config"; "hypr"]) "/")
    ("/" +:+ GoStrings.Join
               (elems ++ [".local"; "share"; "hyprAgent"; "backups"; id; base]) "/")
  = false.
Proof.
  destruct elems as [|e elems]; [reflexivity|].
  rewrite !Join_app by done.
  set (a := GoStrings.Join (e :: elems) "/").
  change ("/" +:+ a +:+ String "/"%char ?x) with (("/" +:+ a) +:+ String "/"%char x).
  by rewrite prefix_app.
Qed.

Ltac plain_names :=
  repeat first [apply Forall_nil | apply Forall_cons; split
               | by (repeat split; (discriminate || reflexivity)) | assumption].

(** Under the wiring of [main] (the default backup directory, a timestamp
    as snapshot id, sources with plain file names), a snapshot never
    writes a file whose cleaned absolute path starts with the
    configuration root. *)
Lemma snapshot_outside_config_root (w : OS.World) (home target : string)
      (s : Safety.SnapshotService) (sources : list string) :
  Filepath.IsAbs home = true →
  Safety.BackupDir s = Filepath.Join [home; ".local"; "share"; "hyprAgent"; "backups"] →
  plain (OS.clock w) →
  Forall (λ src, plain (Filepath.Base src)) sources →
  Filepath.IsAbs target = true →
  Filepath.HasPrefix (Filepath.Clean target) (configRootOf home) = true →
  OS.abspath w target ∉ snapshotTargets s w sources.
Proof.
  intros Habs Hdir Hclock Hsrcs Htarget Hprefix Hin.
  apply list_elem_of_fmap in Hin as (src & Heq & Hsrc).
  eapply Forall_forall in Hsrcs; [|exact Hsrc].
  pose proof (rootedElems_plain home) as Hplain.
  set (H := rootedElems home) in *.
  assert (Hb : Safety.BackupDir s
               = "/" +:+ GoStrings.Join (H ++ [".local"; "share"; "hyprAgent"; "backups"]) "/").
  { rewrite Hdir. apply Join_home; [done|done|plain_names]. }
  assert (Hd : Filepath.Join [Safety.BackupDir s; OS.clock w]
               = "/" +:+ GoStrings.Join
                           (H ++ [".local"; "share"; "hyprAgent"; "backups"; OS.clock w]) "/").
  { rewrite Join_home; [|rewrite Hb; apply IsAbs_slash|done|plain_names].
    rewrite Hb, rootedElems_slash_Join, <- app_assoc; [done|].
    apply Forall_app. split; [done|plain_names]. }
  assert (Hf : Filepath.Join [Filepath.Join [Safety.BackupDir s; OS.clock w]; Filepath.Base src]
               = "/" +:+ GoStrings.Join
                           (H ++ [".local"; "share"; "hyprAgent"; "backups"; OS.clock w;
                                  Filepath.Base src]) "/").
  { rewrite Join_home; [|rewrite Hd; apply IsAbs_slash|done|plain_names].
    rewrite Hd, rootedElems_slash_Join, <- app_assoc; [done|].
    apply Forall_app. split; [done|plain_names]. }
  unfold OS.abspath in Heq. rewrite Htarget, Hf, IsAbs_slash in Heq.
  rewrite (Clean_rooted ("/" +:+ _)) in Heq by apply IsAbs_slash.
  rewrite rootedElems_slash_Join in Heq by (apply Forall_app; split; [done|plain_names]).
  rewrite Heq in Hprefix. unfold configRootOf in Hprefix.
  rewrite Join_home in Hprefix; [|done|done|plain_names].
  unfold Filepath.HasPrefix, GoStrings.HasPrefix in Hprefix.
  fold H in Hprefix. by rewrite root_not_prefix_of_backup in Hprefix.
Qed.


End PathFacts.

(** ** The effect of snapshots on the file tree *)

Module SnapshotFacts.

Lemma sameProcess_refl w : sameProcess w w.
Proof. by repeat split. Qed.

Lemma sameProcess_trans w1 w2 w3 : sameProcess w1 w2 → sameProcess w2 w3 → sameProcess w1 w3.
Proof. unfold sameProcess. intros (?&?&?) (?&?&?). repeat split; congruence. Qed.

Lemma sameProcess_setFs w f : sameProcess w (OS.setFs w f).
Proof. by repeat split. Qed.

Lemma abspath_sameProcess w w' name : sameProcess w w' → OS.abspath w' name = OS.abspath w name.
Proof. intros (Hc&_). unfold OS.abspath. by rewrite Hc. Qed.

Lemma WriteFile_Ok w name data w' :
  OS.WriteFile w name data = Ok w' →
  w' = OS.setFs w (<[OS.abspath w name := OS.File data]> (OS.fs w)).
Proof.
  unfold OS.WriteFile. intros H.
  destruct (OS.lookupPath w name) as [[d|]|]; try discriminate;
    destruct (_ && _); by inversion H.
Qed.

(** [MkdirAll] creates directories where nothing was; what exists stays. *)
Lemma mkdirs_keeps (ds : list string) : ∀ f f' q,
  OS.mkdirs f ds = Ok f' → is_Some (f !! q) → f' !! q = f !! q.
Proof.
  induction ds as [|d ds IH]; intros f f' q H Hq; cbn [OS.mkdirs] in H.
  - by inversion H.
  - destruct (f !! d) as [[data|]|] eqn:Hd; [discriminate|by eapply IH|].
    assert (q ≠ d) by (intros ->; rewrite Hd in Hq; by destruct Hq).
    rewrite (IH _ _ q H); rewrite lookup_insert_ne; done.
Qed.

Lemma MkdirAll_keeps w path w' q :
  OS.MkdirAll w path = Ok w' → is_Some (OS.fs w !! q) →
  sameProcess w w' ∧ OS.fs w' !! q = OS.fs w !! q.
Proof.
  unfold OS.MkdirAll. destruct (path =? "")%string; [discriminate|].
  destruct (OS.mkdirs _ _) as [f|e] eqn:Hm; [|discriminate].
  intros [= <-] Hq. split; [apply sameProcess_setFs|]. by eapply mkdirs_keeps.
Qed.

(** [copyFile] touches the destination only, whether it succeeds or not. *)
Lemma copyFile_frame w src dst w' r q :
  Safety.copyFile w src dst = (w', r) → q ≠ OS.abspath w dst →
  sameProcess w w' ∧ OS.fs w' !! q = OS.fs w !! q.
Proof.
  unfold Safety.copyFile. intros H Hq.
  destruct (OS.lookupPath w src); [|inversion H; subst; split; [apply sameProcess_refl|done]].
  destruct (OS.WriteFile w dst "") as [w1|e] eqn:Hw;
    [|inversion H; subst; split; [apply sameProcess_refl|done]].
  apply WriteFile_Ok in Hw. subst w1.
  destruct (OS.lookupPath _ src) as [[data|]|]; inversion H; subst;
    (split; [by repeat split|]); cbn [OS.fs OS.setFs];
    rewrite ?lookup_insert_ne; done.
Qed.

Lemma snapshotFiles_frame (snapshotDir : string) (files : list string) : ∀ w w' r q,
  Safety.snapshotFiles w snapshotDir files = (w', r) →
  (∀ src, src ∈ files → OS.abspath w (Filepath.Join [snapshotDir; Filepath.Base src]) ≠ q) →
  sameProcess w w' ∧ OS.fs w' !! q = OS.fs w !! q.
Proof.
  induction files as [|src files IH]; intros w w' r q H Hq; cbn [Safety.snapshotFiles] in H.
  - inversion H; subst. split; [apply sameProcess_refl|done].
  - destruct (Safety.copyFile w src _) as [w1 [e|]] eqn:Hc.
    + inversion H; subst. eapply copyFile_frame; [exact Hc|].
      intros Heq. eapply Hq; [apply list_elem_of_here|by symmetry].
    + destruct (copyFile_frame _ _ _ _ _ q Hc) as [Hp1 Hf1].
      { intros Heq. eapply Hq; [apply list_elem_of_here|by symmetry]. }
      destruct (IH w1 w' r q H) as [Hp2 Hf2].
      { intros src' Hin. rewrite (abspath_sameProcess _ _ _ Hp1).
        apply Hq. by apply list_elem_of_further. }
      split; [by eapply sameProcess_trans|congruence].
Qed.

(** A snapshot, complete or interrupted by an error, leaves every existing
    node that is not one of its destinations as it was. *)
Lemma CreateSnapshot_frame s w files w' r q :
  Safety.CreateSnapshot s w files = (w', r) →
  is_Some (OS.fs w !! q) → q ∉ snapshotTargets s w files →
  sameProcess w w' ∧ OS.fs w' !! q = OS.fs w !! q.
Proof.
  unfold Safety.CreateSnapshot. intros H Hq Hnot.
  destruct (OS.MkdirAll w _) as [w1|e] eqn:Hm;
    [|inversion H; subst; split; [apply sameProcess_refl|done]].
  destruct (MkdirAll_keeps _ _ _ q Hm Hq) as [Hp1 Hf1].
  destruct (Safety.snapshotFiles w1 _ files) as [w2 r2] eqn:Hs.
  destruct (snapshotFiles_frame _ _ _ _ _ q Hs) as [Hp2 Hf2].
  { intros src Hin Heq. apply Hnot. unfold snapshotTargets.
    apply list_elem_of_fmap. exists src. split; [|done].
    by rewrite <- Heq, (abspath_sameProcess _ _ _ Hp1). }
  assert (w' = w2) as -> by (destruct r2; by inversion H).
  split; [by eapply sameProcess_trans|congruence].
Qed.

(** Reading a file depends on its node only. *)
Lemma ReadFile_frame w w' name :
  sameProcess w w' →
  OS.fs w' !! OS.abspath w name = OS.fs w !! OS.abspath w name →
  OS.ReadFile w' name = OS.ReadFile w name.
Proof.
  intros Hp Hf. unfold OS.ReadFile, OS.lookupPath.
  by rewrite (abspath_sameProcess _ _ _ Hp), Hf.
Qed.

Lemma ReadFile_is_Some w name data :
  OS.ReadFile w name = Ok data → is_Some (OS.fs w !! OS.abspath w name).
Proof.
  unfold OS.ReadFile, OS.lookupPath.
  destruct (name =? "")%string; [discriminate|].
  destruct (OS.abspath w name =? "/")%string; [discriminate|].
  destruct (OS.fs w !! OS.abspath w name); [eauto|discriminate].
Qed.

Lemma failedFrom_nil (results : list bool) : ∀ i,
  failedFrom i results = [] → false ∉ results.
Proof.
  induction results as [|[] rs IH]; intros i H Hin; cbn [failedFrom] in H.
  - by apply elem_of_nil in Hin.
  - apply elem_of_cons in Hin as [?|Hin]; [done|]. by eapply IH.
  - discriminate.
Qed.


(** [MkdirAll] creates directories only. *)
Lemma mkdirs_File (ds : list string) : ∀ f f' q data,
  OS.mkdirs f ds = Ok f' → f' !! q = Some (OS.File data) → f !! q = Some (OS.File data).
Proof.
  induction ds as [|d ds IH]; intros f f' q data H Hq; cbn [OS.mkdirs] in H.
  - by inversion H; subst.
  - destruct (f !! d) as [[x|]|] eqn:Hd; [discriminate|by eapply IH|].
    pose proof (IH _ _ _ _ H Hq) as H1.
    destruct (decide (d = q)) as [->|Hne];
      [by rewrite lookup_insert_eq in H1|by rewrite lookup_insert_ne in H1].
Qed.

Lemma lookupPath_File w name data :
  OS.lookupPath w name = Some (OS.File data) ↔
  name ≠ "" ∧ OS.abspath w name ≠ "/" ∧ OS.fs w !! OS.abspath w name = Some (OS.File data).
Proof.
  unfold OS.lookupPath.
  destruct (String.eqb_spec name "") as [->|Hne]; [split; [discriminate|intros [? _]; done]|].
  destruct (String.eqb_spec (OS.abspath w name) "/") as [E|E];
    [split; [discriminate|intros (_&?&_); done]|].
  split; [done|]. by intros (_&_&?).
Qed.

Lemma ReadFile_File w name data :
  OS.ReadFile w name = Ok data ↔ OS.lookupPath w name = Some (OS.File data).
Proof.
  unfold OS.ReadFile. destruct (OS.lookupPath w name) as [[d|]|]; split; congruence.
Qed.

(** A snapshot of a single file that succeeds leaves a copy at its
    destination, and the copy holds the bytes the file had before, unless
    the file is its own destination. *)
Lemma CreateSnapshot_single s w src w1 id :
  Safety.CreateSnapshot s w [src] = (w1, Ok id) →
  let dst := Filepath.Join [Filepath.Join [Safety.BackupDir s; id]; Filepath.Base src] in
  id = OS.clock w ∧ sameProcess w w1 ∧
  ∃ data, OS.ReadFile w1 dst = Ok data ∧
          (OS.abspath w src ≠ OS.abspath w dst → OS.ReadFile w src = Ok data).
Proof.
  unfold Safety.CreateSnapshot. cbn [Safety.snapshotFiles].
  destruct (OS.MkdirAll w _) as [wm|e] eqn:Hm; [|discriminate].
  set (dst := Filepath.Join [Filepath.Join [Safety.BackupDir s; OS.clock w]; Filepath.Base src]).
  unfold Safety.copyFile.
  destruct (OS.lookupPath wm src) as [n|] eqn:Hsrc; [|discriminate].
  destruct (OS.WriteFile wm dst "") as [wa|e] eqn:Hw; [|discriminate].
  destruct (OS.lookupPath wa src) as [[data|]|] eqn:Hsrc2; try discriminate.
  intros [= <- <-]. split; [done|].
  assert (Hpm : sameProcess w wm).
  { unfold OS.MkdirAll in Hm. destruct (_ =? "")%string; [discriminate|].
    destruct (OS.mkdirs _ _); inversion Hm. apply sameProcess_setFs. }
  assert (Hdst : dst ≠ "" ∧ OS.abspath wm dst ≠ "/").
  { unfold OS.WriteFile, OS.lookupPath in Hw.
    destruct (String.eqb_spec dst "") as [E|E]; [by rewrite andb_false_l in Hw|].
    split; [done|]. destruct (String.eqb_spec (OS.abspath wm dst) "/"); [discriminate|done]. }
  pose proof (WriteFile_Ok _ _ _ _ Hw) as ->.
  split; [by repeat split; cbn; apply Hpm|].
  exists data. split.
  - apply ReadFile_File, lookupPath_File. cbn [OS.fs OS.setFs].
    change (OS.abspath (OS.setFs _ _) dst) with (OS.abspath wm dst).
    change (OS.abspath (OS.setFs wm ?f) dst) with (OS.abspath wm dst).
    repeat split; [tauto|tauto|apply lookup_insert_eq].
  - intros Hne. apply lookupPath_File in Hsrc2 as (Hs1 & Hs2 & Hs3).
    change (OS.abspath (OS.setFs wm ?f) src) with (OS.abspath wm src) in *.
    cbn [OS.fs OS.setFs] in Hs3.
    rewrite !(abspath_sameProcess _ _ _ Hpm) in *.
    rewrite lookup_insert_ne in Hs3 by done.
    apply ReadFile_File, lookupPath_File. repeat split; [done|done|].
    unfold OS.MkdirAll in Hm. destruct (_ =? "")%string; [discriminate|].
    destruct (OS.mkdirs _ _) as [f|] eqn:Hmk; inversion Hm; subst wm.
    by eapply mkdirs_File.
Qed.

Lemma ListSources_single (b : Backend) (sources : list string) :
  ListSources b = Ok sources → ConfigPath b ≠ "" ∧ sources = [ConfigPath b].
Proof.
  unfold ListSources. destruct (String.eqb_spec (ConfigPath b) ""); [discriminate|].
  by intros [= <-].
Qed.

Lemma WriteFile_ReadFile w name data w' :
  OS.WriteFile w name data = Ok w' → OS.ReadFile w' name = Ok data.
Proof.
  intros Hw. pose proof (WriteFile_Ok _ _ _ _ Hw) as ->.
  apply ReadFile_File, lookupPath_File.
  change (OS.abspath (OS.setFs w ?f) name) with (OS.abspath w name).
  unfold OS.WriteFile, OS.lookupPath in Hw.
  destruct (String.eqb_spec name "") as [E|E]; [by rewrite andb_false_l in Hw|].
  destruct (String.eqb_spec (OS.abspath w name) "/"); [discriminate|].
  repeat split; [done|done|]. cbn [OS.fs OS.setFs]. apply lookup_insert_eq.
Qed.

(** *** Restoring *)

(** A copy that succeeds: the destination holds the bytes of the source,
    and nothing else changed. *)
Lemma copyFile_Ok w src dst w' :
  Safety.copyFile w src dst = (w', None) →
  sameProcess w w' ∧
  (∀ q, q ≠ OS.abspath w dst → OS.fs w' !! q = OS.fs w !! q) ∧
  ∃ data, OS.ReadFile w' dst = Ok data ∧
          (OS.abspath w src ≠ OS.abspath w dst → OS.ReadFile w src = Ok data).
Proof.
  intros H. split; [|split].
  - revert H. unfold Safety.copyFile.
    destruct (OS.lookupPath w src); [|discriminate].
    destruct (OS.WriteFile w dst "") as [wa|e] eqn:Hw; [|discriminate].
    pose proof (WriteFile_Ok _ _ _ _ Hw) as ->.
    destruct (OS.lookupPath _ src) as [[data|]|]; try discriminate.
    intros [= <-]. by repeat split.
  - intros q Hq. by eapply copyFile_frame.
  - revert H. unfold Safety.copyFile.
    destruct (OS.lookupPath w src) as [n|]; [|discriminate].
    destruct (OS.WriteFile w dst "") as [wa|e] eqn:Hw; [|discriminate].
    destruct (OS.lookupPath wa src) as [[data|]|] eqn:Hsrc; try discriminate.
    intros [= <-]. pose proof (WriteFile_Ok _ _ _ _ Hw) as ->.
    exists data. split.
    + assert (Hdst : dst ≠ "" ∧ OS.abspath w dst ≠ "/").
      { unfold OS.WriteFile, OS.lookupPath in Hw.
        destruct (String.eqb_spec dst "") as [E|E]; [by rewrite andb_false_l in Hw|].
        split; [done|]. destruct (String.eqb_spec (OS.abspath w dst) "/"); [discriminate|done]. }
      apply ReadFile_File, lookupPath_File. cbn [OS.fs OS.setFs].
      change (OS.abspath (OS.setFs _ _) dst) with (OS.abspath w dst).
      repeat split; [tauto|tauto|apply lookup_insert_eq].
    + intros Hne. apply lookupPath_File in Hsrc as (Hs1 & Hs2 & Hs3).
      change (OS.abspath (OS.setFs w ?f) src) with (OS.abspath w src) in *.
      cbn [OS.fs OS.setFs] in Hs3. rewrite lookup_insert_ne in Hs3 by done.
      by apply ReadFile_File, lookupPath_File.
Qed.

Lemma Stat_frame w w' name :
  sameProcess w w' →
  OS.fs w' !! OS.abspath w name = OS.fs w !! OS.abspath w name →
  OS.Stat w' name = OS.Stat w name.
Proof.
  intros Hp Hf. unfold OS.Stat, OS.lookupPath.
  by rewrite (abspath_sameProcess _ _ _ Hp), Hf.
Qed.

(** [Restore] writes its targets only. *)
Lemma restoreFiles_frame (dir : string) (targets : list string) : ∀ w w' r q,
  Safety.restoreFiles w dir targets = (w', r) →
  (∀ t, t ∈ targets → OS.abspath w t ≠ q) →
  sameProcess w w' ∧ OS.fs w' !! q = OS.fs w !! q.
Proof.
  induction targets as [|t targets IH]; intros w w' r q H Hq; cbn [Safety.restoreFiles] in H.
  - inversion H; subst. split; [apply sameProcess_refl|done].
  - assert (Hrest : ∀ t', t' ∈ targets → OS.abspath w t' ≠ q)
      by (intros t' Hin; apply Hq; by apply list_elem_of_further).
    destruct (OS.Stat w _); [|by eapply IH].
    destruct (Safety.copyFile w _ t) as [w1 [e|]] eqn:Hc.
    + inversion H; subst. eapply copyFile_frame; [exact Hc|].
      intros Heq. eapply Hq; [apply list_elem_of_here|by symmetry].
    + destruct (copyFile_frame _ _ _ _ _ q Hc) as [Hp1 Hf1].
      { intros Heq. eapply Hq; [apply list_elem_of_here|by symmetry]. }
      destruct (IH w1 w' r q H) as [Hp2 Hf2].
      { intros t' Hin. rewrite (abspath_sameProcess _ _ _ Hp1). by apply Hrest. }
      split; [by eapply sameProcess_trans|congruence].
Qed.

(** A restore that succeeds, over targets that denote different files
    none of which is itself one of the snapshot's copies: a target with a
    same-named copy in the snapshot directory holds the bytes of that copy
    afterwards, and a target without one is left as it was. *)
Lemma restoreFiles_copies_back (dir : string) (targets : list string) : ∀ w w',
  Safety.restoreFiles w dir targets = (w', None) →
  NoDup (OS.abspath w <$> targets) →
  (∀ t t', t ∈ targets → t' ∈ targets →
           OS.abspath w (Filepath.Join [dir; Filepath.Base t']) ≠ OS.abspath w t) →
  ∀ t, t ∈ targets →
    if OS.Stat w (Filepath.Join [dir; Filepath.Base t])
    then ∃ data, OS.ReadFile w (Filepath.Join [dir; Filepath.Base t]) = Ok data ∧
                 OS.ReadFile w' t = Ok data
    else OS.ReadFile w' t = OS.ReadFile w t.
Proof.
  induction targets as [|t0 targets IH]; intros w w' H Hnd Halias t Hin;
    [by apply elem_of_nil in Hin|].
  cbn [Safety.restoreFiles] in H. rewrite fmap_cons in Hnd.
  apply NoDup_cons in Hnd as [Hfresh Hnd].
  assert (Hother : ∀ t', t' ∈ targets → OS.abspath w t' ≠ OS.abspath w t0).
  { intros t' Hin' Heq. apply Hfresh. rewrite <- Heq. apply list_elem_of_fmap. eauto. }
  set (src0 := Filepath.Join [dir; Filepath.Base t0]) in *.
  destruct (OS.Stat w src0) eqn:Hstat.
  - destruct (Safety.copyFile w src0 t0) as [w1 [e|]] eqn:Hc; [discriminate|].
    destruct (copyFile_Ok _ _ _ _ Hc) as (Hp1 & Hf1 & data & Hd1 & Hd2).
    assert (Hsrc0 : OS.ReadFile w src0 = Ok data).
    { apply Hd2. apply Halias; apply list_elem_of_here. }
    destruct (restoreFiles_frame _ _ _ _ _ (OS.abspath w t0) H) as [Hp2 Hf2].
    { intros t' Hin'. rewrite (abspath_sameProcess _ _ _ Hp1). by apply Hother. }
    apply elem_of_cons in Hin as [->|Hin].
    + fold src0. rewrite Hstat. exists data. split; [done|].
      rewrite <- Hd1. apply ReadFile_frame; [done|].
      by rewrite (abspath_sameProcess _ _ _ Hp1).
    + assert (Hsame : OS.fs w1 !! OS.abspath w (Filepath.Join [dir; Filepath.Base t])
                      = OS.fs w !! OS.abspath w (Filepath.Join [dir; Filepath.Base t])).
      { apply Hf1. apply Halias; [apply list_elem_of_here|by apply list_elem_of_further]. }
      specialize (IH w1 w' H).
      rewrite <- (Stat_frame _ _ _ Hp1 Hsame), <- (ReadFile_frame _ _ _ Hp1 Hsame).
      rewrite <- (ReadFile_frame w w1 t Hp1) by (apply Hf1; by apply Hother).
      apply IH; [|  |done].
      * erewrite list_fmap_ext; [exact Hnd|]. intros; by apply abspath_sameProcess.
      * intros t1 t2 H1 H2. rewrite !(abspath_sameProcess _ _ _ Hp1).
        apply Halias; by apply list_elem_of_further.
  - apply elem_of_cons in Hin as [->|Hin].
    + fold src0. rewrite Hstat.
      destruct (restoreFiles_frame _ _ _ _ _ (OS.abspath w t0) H) as [Hp2 Hf2]; [done|].
      by apply ReadFile_frame.
    + apply (IH w w' H); [done| |done].
      intros t1 t2 H1 H2. apply Halias; by apply list_elem_of_further.
Qed.

End SnapshotFacts.

(** ** The security gate *)

(** X1. Whenever the cleaned target does not start with the bytes of the
    configuration root, the gate denies, for every backend type. *)
Lemma IsPathAllowed_outside_bytes_denied (c : Config) (w : OS.World)
      (backendType : ConfigSourceType) (targetPath home : string) :
  OS.UserHomeDir w = Ok home →
  Filepath.HasPrefix (absTargetOf (configRootOf home) targetPath) (configRootOf home) = false →
  ∃ reason, IsPathAllowed c w backendType targetPath = (false, Some reason).
Proof.
  intros Hhome Hpre. unfold IsPathAllowed.
  destruct (securityOf c backendType); [|eauto].
  rewrite Hhome. cbv zeta. rewrite Hpre. simpl. eauto.
Qed.

Lemma IsPathAllowed_outside_bytes_denied_witness :
  ∃ reason, IsPathAllowed DefaultConfig Scenario.nativeWorld SourceNative "/etc/passwd"
            = (false, Some reason).
Proof.
  apply (IsPathAllowed_outside_bytes_denied DefaultConfig Scenario.nativeWorld
           SourceNative "/etc/passwd" "/home/user"); reflexivity.
Defined.

(** C1, at the input where the code departs from it: a file in a directory
    beside the configuration root, whose name merely starts with the root's
    name, is outside the root by the gate's own directory test, and the
    gate allows it under the Native variant. *)
Theorem IsPathAllowed_sibling_directory_allowed :
  let root := configRootOf "/home/user" in
  root = "/home/user/.config/hypr" ∧
  absTargetOf root Scenario.siblingPath = Scenario.siblingPath ∧
  allowedDirMatch root (absTargetOf root Scenario.siblingPath) "." = false ∧
  IsPathAllowed DefaultConfig Scenario.nativeWorld SourceNative Scenario.siblingPath
  = (true, None).
Proof. vm_compute. repeat split; reflexivity. Qed.

(** ** apply-patch *)

Section ApplyPatch.

Variable Patch : Type.
Variable PatchFromText : string → result (list Patch).
Variable PatchApply : list Patch → string → string * list bool.

(** The Apply and Write steps end in an error that leaves the world as it
    is, or in a write of the patched text after every hunk applied. *)
Lemma applyAndWrite_cases w targetPath originalContent patch :
  (∃ msg, applyAndWrite Patch PatchFromText PatchApply w targetPath originalContent patch
          = (w, Err msg)) ∨
  (∃ patches newContent results w',
     PatchFromText patch = Ok patches ∧
     PatchApply patches originalContent = (newContent, results) ∧
     (false ∉ results) ∧
     OS.WriteFile w targetPath newContent = Ok w' ∧
     applyAndWrite Patch PatchFromText PatchApply w targetPath originalContent patch
     = (w', Ok ("Patch applied successfully to " +:+ targetPath))).
Proof.
  unfold applyAndWrite.
  destruct (PatchFromText patch) as [patches|e]; [|eauto].
  destruct (PatchApply patches originalContent) as [newContent results] eqn:Ha.
  destruct (failedFrom 0 results) as [|i l] eqn:Hf; cbn [length Nat.ltb Nat.leb]; [|eauto].
  destruct (OS.WriteFile w targetPath newContent) as [w'|e] eqn:Hw; [|eauto].
  right. exists patches, newContent, results, w'.
  repeat (split; [done|]). split; [by eapply SnapshotFacts.failedFrom_nil|done].
Qed.

Lemma applyAndWrite_failed_hunk w targetPath originalContent patch patches newContent results :
  PatchFromText patch = Ok patches →
  PatchApply patches originalContent = (newContent, results) →
  false ∈ results →
  ∃ msg, applyAndWrite Patch PatchFromText PatchApply w targetPath originalContent patch
         = (w, Err msg).
Proof.
  intros Hp Ha Hin.
  destruct (applyAndWrite_cases w targetPath originalContent patch)
    as [?|(ps & nc & rs & w' & Hp' & Ha' & Hnot & _)]; [done|].
  rewrite Hp in Hp'. injection Hp' as <-. rewrite Ha in Ha'. injection Ha' as <- <-. done.
Qed.

(** When some hunk of the patch does not apply to the content read from
    the target, apply-patch reports an error and the target holds the same
    bytes after the call as before it, provided the target is not itself
    one of the copies the snapshot step writes. *)
Lemma apply_patch_failed_hunk (t : ApplyPatchTool) (w : OS.World) (a : ApplyPatchArgs)
        (targetPath originalContent : string) (patches : list Patch)
        (newContent : string) (results : list bool) :
  targetOf t a = Ok targetPath →
  OS.ReadFile w targetPath = Ok originalContent →
  PatchFromText (sanitizePatch (apPatch a)) = Ok patches →
  PatchApply patches originalContent = (newContent, results) →
  false ∈ results →
  (∀ s sources, apSnapshot t = Some s → ListSources (apBackend t) = Ok sources →
                OS.abspath w targetPath ∉ snapshotTargets s w sources) →
  ∃ w' msg, ApplyPatchTool_Execute Patch PatchFromText PatchApply t w a = (w', Err msg) ∧
            OS.ReadFile w' targetPath = Ok originalContent.
Proof.
  intros Htarget Hread Hparse Happly Hfail Hdisj. unfold ApplyPatchTool_Execute.
  destruct (negb _); [eauto|]. rewrite Htarget.
  destruct (IsPathAllowed _ _ _ _) as [[] [reason|]]; eauto.
  rewrite Hread. unfold snapshotThenApply.
  destruct (ListSources (apBackend t)) as [sources|e] eqn:Hsrc;
    [destruct (apSnapshot t) as [s|] eqn:Hsnap|].
  2,3: destruct (applyAndWrite_failed_hunk w targetPath _ _ _ _ _ Hparse Happly Hfail)
         as [msg ->]; eauto.
  destruct (Safety.CreateSnapshot s w sources) as [w1 r] eqn:Hcs.
  destruct (SnapshotFacts.CreateSnapshot_frame _ _ _ _ _ (OS.abspath w targetPath) Hcs)
    as [Hp Hf]; [by eapply SnapshotFacts.ReadFile_is_Some|by eapply Hdisj|].
  assert (Hread1 : OS.ReadFile w1 targetPath = Ok originalContent)
    by (by rewrite (SnapshotFacts.ReadFile_frame _ _ _ Hp Hf)).
  destruct r as [id|e]; [|eauto].
  destruct (applyAndWrite_failed_hunk w1 targetPath _ _ _ _ _ Hparse Happly Hfail)
    as [msg ->]; eauto.
Qed.

(** When apply-patch succeeds, the patched text was written after the
    snapshot step, if there was one, and after every hunk applied. *)
Lemma apply_patch_success (t : ApplyPatchTool) (w w' : OS.World) (a : ApplyPatchArgs)
      (out : string) :
  ApplyPatchTool_Execute Patch PatchFromText PatchApply t w a = (w', Ok out) →
  ∃ targetPath originalContent patches newContent results w1,
    targetOf t a = Ok targetPath ∧
    OS.ReadFile w targetPath = Ok originalContent ∧
    PatchFromText (sanitizePatch (apPatch a)) = Ok patches ∧
    PatchApply patches originalContent = (newContent, results) ∧
    (false ∉ results) ∧
    OS.WriteFile w1 targetPath newContent = Ok w' ∧
    match ListSources (apBackend t), apSnapshot t with
    | Ok sources, Some s => ∃ id, Safety.CreateSnapshot s w sources = (w1, Ok id)
    | _, _ => w1 = w
    end.
Proof.
  unfold ApplyPatchTool_Execute. destruct (negb _); [discriminate|].
  destruct (targetOf t a) as [targetPath|] eqn:Ht; [|discriminate].
  destruct (IsPathAllowed _ _ _ _) as [[] [reason|]]; try discriminate.
  destruct (OS.ReadFile w targetPath) as [originalContent|] eqn:Hread; [|discriminate].
  unfold snapshotThenApply. intros H.
  exists targetPath, originalContent.
  destruct (ListSources (apBackend t)) as [sources|e];
    [destruct (apSnapshot t) as [s|]; [destruct (Safety.CreateSnapshot s w sources)
       as [w1 [id|e]] eqn:Hcs; [|discriminate]|]|].
  all: match type of H with applyAndWrite _ _ _ ?w0 _ _ _ = _ =>
         destruct (applyAndWrite_cases w0 targetPath originalContent
                     (sanitizePatch (apPatch a)))
           as [[msg Hm]|(ps & nc & rs & w2 & Hp & Ha & Hn & Hw & Hr)];
           [rewrite Hm in H; discriminate|];
           rewrite Hr in H; injection H as <- _;
           exists ps, nc, rs, w0; repeat (split; [done|]); eauto
       end.
Qed.


(** What the gate accepted starts with the bytes of the configuration
    root. *)
Lemma IsPathAllowed_accepted (c : Config) (w : OS.World) (backendType : ConfigSourceType)
      (targetPath : string) :
  IsPathAllowed c w backendType targetPath = (true, None) →
  ∃ home, OS.UserHomeDir w = Ok home ∧
          Filepath.HasPrefix (absTargetOf (configRootOf home) targetPath) (configRootOf home)
          = true.
Proof.
  unfold IsPathAllowed. destruct (securityOf c backendType); [|discriminate].
  destruct (OS.UserHomeDir w) as [home|]; [|discriminate]. cbv zeta.
  destruct (Filepath.HasPrefix _ _) eqn:Hp; [intros _; eauto|discriminate].
Qed.

(** Wired as in [main], with the default backup directory, a timestamp as
    snapshot id and an absolute target, apply-patch is all or nothing with
    no further condition: the snapshot cannot write the target. *)
Corollary apply_patch_all_or_nothing_default_backups
          (t : ApplyPatchTool) (w : OS.World) (a : ApplyPatchArgs)
          (home targetPath originalContent : string) (patches : list Patch)
          (newContent : string) (results : list bool) :
  OS.UserHomeDir w = Ok home →
  Filepath.IsAbs home = true →
  (∀ s, apSnapshot t = Some s →
        Safety.BackupDir s
        = Filepath.Join [home; ".local"; "share"; "hyprAgent"; "backups"]) →
  plain (OS.clock w) →
  plain (Filepath.Base (ConfigPath (apBackend t))) →
  targetOf t a = Ok targetPath →
  Filepath.IsAbs targetPath = true →
  OS.ReadFile w targetPath = Ok originalContent →
  PatchFromText (sanitizePatch (apPatch a)) = Ok patches →
  PatchApply patches originalContent = (newContent, results) →
  ∃ w' r,
    ApplyPatchTool_Execute Patch PatchFromText PatchApply t w a = (w', r) ∧
    (false ∈ results →
     (∃ msg, r = Err msg) ∧ OS.ReadFile w' targetPath = Ok originalContent) ∧
    (∀ out, r = Ok out →
            (false ∉ results) ∧ OS.ReadFile w' targetPath = Ok newContent).
Proof.
  intros Hhome Habs Hdir Hclock Hbase Htarget Htabs Hread Hparse Happly.
  destruct (ApplyPatchTool_Execute Patch PatchFromText PatchApply t w a) as [w' r] eqn:Hrun.
  exists w', r. split; [done|]. split.
  - intros Hfail.
    destruct (IsPathAllowed (apConfig t) w (TypeOf (apBackend t)) targetPath)
      as [ok err] eqn:Hgate.
    assert (Hdenied : (ok, err) ≠ (true, None) →
                      (∃ msg, r = Err msg) ∧ OS.ReadFile w' targetPath = Ok originalContent).
    { intros Hne. unfold ApplyPatchTool_Execute in Hrun.
      destruct (negb _); [injection Hrun as <- <-; eauto|].
      rewrite Htarget, Hgate in Hrun.
      destruct ok, err; try (injection Hrun as <- <-; eauto). done. }
    destruct ok; [destruct err; [by apply Hdenied|]|by apply Hdenied].
    destruct (IsPathAllowed_accepted _ _ _ _ Hgate) as (home' & Hhome' & Hprefix).
    rewrite Hhome in Hhome'. injection Hhome' as <-.
    unfold absTargetOf in Hprefix. rewrite Htabs in Hprefix.
    destruct (apply_patch_failed_hunk t w a _ _ _ _ _ Htarget Hread Hparse Happly Hfail)
      as (w2 & msg & Hrun2 & Hread2).
    { intros s sources Hs Hsrc.
      apply SnapshotFacts.ListSources_single in Hsrc as [_ ->].
      apply (PathFacts.snapshot_outside_config_root w home); auto. }
    rewrite Hrun in Hrun2. injection Hrun2 as -> ->. eauto.
  - intros out ->.
    destruct (apply_patch_success _ _ _ _ _ Hrun)
      as (tp & orig & ps & nc & rs & w1 & Ht & Hr & Hp & Ha & Hn & Hw & _).
    rewrite Htarget in Ht. injection Ht as <-.
    rewrite Hread in Hr. injection Hr as <-.
    rewrite Hparse in Hp. injection Hp as <-.
    rewrite Happly in Ha. injection Ha as <- <-.
    split; [done|]. by eapply SnapshotFacts.WriteFile_ReadFile.
Qed.


End ApplyPatch.


Lemma apply_patch_all_or_nothing_default_backups_witness :
  ∃ w' r,
    ApplyPatchTool_Execute _ Scenario.toyFromText Scenario.toyApply
      (Scenario.patchTool (Some Scenario.backups)) Scenario.patchedWorld Scenario.patchArgs
    = (w', r) ∧
    (false ∈ [false] →
     (∃ msg, r = Err msg) ∧
     OS.ReadFile w' "/home/user/.config/hypr/hyprland.conf" = Ok ("a=2" +:+ nl)) ∧
    (∀ out, r = Ok out →
            (false ∉ [false]) ∧
            OS.ReadFile w' "/home/user/.config/hypr/hyprland.conf" = Ok ("a=2" +:+ nl)).
Proof.
  apply (apply_patch_all_or_nothing_default_backups _ Scenario.toyFromText Scenario.toyApply
           (Scenario.patchTool (Some Scenario.backups)) Scenario.patchedWorld
           Scenario.patchArgs "/home/user" "/home/user/.config/hypr/hyprland.conf"
           ("a=2" +:+ nl) [("a=1" +:+ nl, "a=2" +:+ nl)] ("a=2" +:+ nl) [false]).
  - reflexivity.
  - reflexivity.
  - by intros s [= <-].
  - repeat split; (discriminate || reflexivity).
  - repeat split; (discriminate || reflexivity).
  - reflexivity.
  - reflexivity.
  - reflexivity.
  - vm_compute. reflexivity.
  - vm_compute. reflexivity.
Defined.




(** The same when the tool has a snapshot service but its backend detected
    nothing and cannot list its source: the patch for an explicit target
    is applied and written, and no snapshot exists afterwards. *)
Example apply_patch_unlisted_source_no_snapshot :
  let run := ApplyPatchTool_Execute _ Scenario.toyFromText Scenario.toyApply
               Scenario.undetectedTool Scenario.nativeWorld Scenario.explicitArgs in
  ListSources (apBackend Scenario.undetectedTool) = Err "config path not detected" ∧
  run.2 = Ok "Patch applied successfully to /home/user/.config/hypr/hyprland.conf" ∧
  OS.fs run.1
  = <["/home/user/.config/hypr/hyprland.conf" := OS.File ("a=2" +:+ nl)]>
      (OS.fs Scenario.nativeWorld).
Proof. cbv zeta. split; [reflexivity|]. split; vm_compute; reflexivity. Qed.

(** The scenario of a patch applied twice: the first call snapshots the
    source and writes the patched text, the second finds the hunk stale,
    fails, and leaves the file as the first call wrote it. *)
Example apply_patch_then_stale :
  let tool := Scenario.patchTool (Some Scenario.backups) in
  let first := ApplyPatchTool_Execute _ Scenario.toyFromText Scenario.toyApply
                 tool Scenario.snapshotWorld Scenario.patchArgs in
  let second := ApplyPatchTool_Execute _ Scenario.toyFromText Scenario.toyApply
                  tool first.1 Scenario.patchArgs in
  first.2 = Ok "Patch applied successfully to /home/user/.config/hypr/hyprland.conf" ∧
  OS.ReadFile first.1 "/home/user/.config/hypr/hyprland.conf" = Ok ("a=2" +:+ nl) ∧
  OS.ReadFile first.1
    "/home/user/.local/share/hyprAgent/backups/20260101-120000/hyprland.conf"
  = Ok ("a=1" +:+ nl) ∧
  second.2 = Err "patch application failed: 1 out of 1 hunks failed to apply. The file may have been modified since you read it. Please re-read the file and regenerate the patch" ∧
  OS.ReadFile second.1 "/home/user/.config/hypr/hyprland.conf" = Ok ("a=2" +:+ nl).
Proof. vm_compute. repeat split; reflexivity. Qed.

(** ** Parsing and re-serializing *)

Lemma Raw_classify (n : Z) (raw : string) : Raw (classify n raw) = raw.
Proof. unfold classify. repeat case_match; reflexivity. Qed.

Lemma String_classified (ls : list string) : ∀ f : nat → Z,
  String_ {| Lines := imap (λ i raw, classify (f i) raw) ls |} = serialize ls.
Proof.
  unfold String_. cbn [Lines].
  induction ls as [|l ls IH]; intros f; [reflexivity|].
  cbn [imap fold_right serialize]. rewrite Raw_classify. do 2 f_equal.
  apply (IH (λ i, f (S i))).
Qed.

Lemma serialize_removelast (l : list string) :
  l ≠ [] → serialize (removelast l) +:+ List.last l "" = GoStrings.Join l nl.
Proof.
  unfold GoStrings.Join.
  induction l as [|x l IH]; [contradiction|]. intros _.
  destruct l as [|y l]; [reflexivity|].
  change (removelast (x :: y :: l)) with (x :: removelast (y :: l)).
  change (List.last (x :: y :: l) "") with (List.last (y :: l) "").
  change (String.concat nl (x :: y :: l)) with (x +:+ nl +:+ String.concat nl (y :: l)).
  cbn [serialize fold_right]. rewrite !StringFacts.app_assoc. do 2 f_equal.
  apply IH. discriminate.
Qed.

Lemma serialize_all (l : list string) :
  l ≠ [] → serialize l = GoStrings.Join l nl +:+ nl.
Proof.
  unfold GoStrings.Join.
  induction l as [|x l IH]; [contradiction|]. intros _.
  destruct l as [|y l]; [reflexivity|].
  change (String.concat nl (x :: y :: l)) with (x +:+ nl +:+ String.concat nl (y :: l)).
  cbn [serialize fold_right]. rewrite !StringFacts.app_assoc. do 2 f_equal.
  apply IH. discriminate.
Qed.

(** The scanner's line split followed by the serialization: the text
    itself when it is empty or ends with a newline, and the text with a
    newline added otherwise. *)
Lemma serialize_newlineElems (data : string) :
  serialize (newlineElems data) =
  if (List.last (GoStrings.Split data "010"%char) "" =? "")%string
  then data else data +:+ nl.
Proof.
  unfold newlineElems.
  pose proof (StringFacts.Split_not_nil data "010"%char) as Hnil.
  pose proof (StringFacts.Join_Split data "010"%char) as Hjoin.
  pose proof (serialize_removelast _ Hnil) as Hrm.
  destruct (String.eqb_spec (List.last (GoStrings.Split data "010"%char) "") "") as [E|E].
  - rewrite E, StringFacts.app_nil_r in Hrm. rewrite Hrm. exact Hjoin.
  - rewrite serialize_all by exact Hnil. by rewrite <- Hjoin at 2.
Qed.

Lemma dropCR_id (ls : list string) :
  (∀ l, l ∈ ls → GoStrings.HasSuffix l (String "013"%char "") = false) →
  dropCR <$> ls = ls.
Proof.
  induction ls as [|l ls IH]; intros H; [reflexivity|].
  cbn [fmap list_fmap]. f_equal.
  - unfold dropCR, GoStrings.TrimSuffix. rewrite H; [reflexivity|apply list_elem_of_here].
  - apply IH. intros l' Hl'. apply H. by apply list_elem_of_further.
Qed.

(** Whenever the parser succeeds, the serialized IR is the scanner's lines,
    each followed by a newline. *)
Lemma parseText_String (data : string) (ir : IR) :
  parseText data = Ok ir → String_ ir = serialize (dropCR <$> newlineElems data).
Proof.
  unfold parseText, scanLines. destruct (existsb _ _); [discriminate|].
  intros [= <-]. apply (String_classified _ (λ i, (Z.of_nat i + 1)%Z)).
Qed.

(** C4 fails on the code: a text without a final newline comes back with
    one added. *)
Lemma roundtrip_fails_without_final_newline :
  ¬ (∀ data ir, parseText data = Ok ir → String_ ir = data).
Proof.
  intros H. specialize (H "a=1" _ eq_refl). vm_compute in H. discriminate H.
Qed.

(** C4 as amended: for a configuration file whose text is empty or ends
    with a newline, none of whose lines ends with a carriage return or
    reaches the scanner's limit of 65536 bytes, [Parse] succeeds and the
    unmodified IR serializes to the text byte for byte. *)
Theorem Parse_String_roundtrip (b : Backend) (w : OS.World) (data : string) :
  ConfigPath b ≠ "" →
  OS.ReadFile w (ConfigPath b) = Ok data →
  (data = "" ∨ ∃ body, data = body +:+ nl) →
  (∀ l, l ∈ newlineElems data →
        GoStrings.HasSuffix l (String "013"%char "") = false ∧
        (Z.of_nat (String.length l) < MaxScanTokenSize)%Z) →
  ∃ ir, Parse b w = Ok ir ∧ String_ ir = data.
Proof.
  intros Hpath Hread Hterm Hlines. unfold Parse.
  apply String.eqb_neq in Hpath. rewrite Hpath, Hread.
  destruct (parseText data) as [ir|e] eqn:Hparse.
  - exists ir. split; [reflexivity|].
    rewrite (parseText_String _ _ Hparse).
    rewrite dropCR_id by (intros l Hl; apply (Hlines l Hl)).
    rewrite serialize_newlineElems.
    destruct Hterm as [->|[body ->]]; [reflexivity|].
    unfold nl. by rewrite StringFacts.Split_last_terminated.
  - exfalso. unfold parseText, scanLines in Hparse.
    destruct (existsb _ _) eqn:Hlong; [|discriminate].
    apply existsb_exists in Hlong as [l [Hin Hlen]].
    apply list_elem_of_In, Hlines in Hin as [_ Hlt].
    apply Z.leb_le in Hlen. lia.
Qed.

Lemma Parse_String_roundtrip_witness :
  ∃ ir, Parse {| kind := KNative; ConfigPath := "/home/user/.config/hypr/hyprland.conf" |}
              Scenario.nativeWorld = Ok ir ∧
        String_ ir = "a=1" +:+ nl.
Proof.
  apply (Parse_String_roundtrip
           {| kind := KNative; ConfigPath := "/home/user/.config/hypr/hyprland.conf" |}
           Scenario.nativeWorld ("a=1" +:+ nl)).
  - discriminate.
  - reflexivity.
  - right. exists "a=1". reflexivity.
  - intros l Hl. vm_compute in Hl.
    apply list_elem_of_singleton in Hl. subst l. split; [reflexivity|].
    vm_compute. reflexivity.
Defined.

(** ** Where read-file and list-dir look *)

Lemma configRootOf_rooted (home : string) :
  Filepath.IsAbs home = true →
  Filepath.IsAbs (configRootOf home) = true ∧
  Filepath.Clean (configRootOf home) = configRootOf home.
Proof.
  intros H. unfold configRootOf. cbn [Filepath.Join].
  destruct (String.eqb_spec home "") as [->|_]; [discriminate|].
  assert (Ha : Filepath.IsAbs (GoStrings.Join [home; ".config"; "hypr"] "/") = true)
    by (by apply (PathFacts.IsAbs_app home)).
  split; [by apply PathFacts.IsAbs_Clean|by apply PathFacts.Clean_idempotent].
Qed.

(** C5 fails on the code for a relative path that climbs: from a directory
    beside the root, the accepted path [../hypr/hyprland.conf] is read
    exactly where it was authorized. *)
Lemma climbing_path_same_file_elsewhere : ¬ sameFileOnlyAtRoot.
Proof.
  intros H.
  specialize (H DefaultConfig Scenario.besideWorld SourceNative
                "../hypr/hyprland.conf" "/home/user").
  assert (Hcwd : OS.cwd Scenario.besideWorld = configRootOf "/home/user")
    by (apply H; vm_compute; reflexivity).
  vm_compute in Hcwd. discriminate Hcwd.
Qed.

(** C5 as amended: read-file and list-dir, once the gate accepted the
    path, hand the raw argument to the operating system, which resolves it
    against the working directory, whereas the gate resolved it against
    the configuration root.  For a relative path whose cleaned form keeps
    no dot-dot element, the file reached is the file authorized exactly
    when the working directory is the configuration root. *)
Theorem relative_path_resolved_against_cwd
        (jsonMarshalStrings : list string → string)
        (w : OS.World) (home p : string) :
  OS.UserHomeDir w = Ok home →
  Filepath.IsAbs home = true →
  Filepath.IsAbs (OS.cwd w) = true →
  Filepath.IsAbs p = false →
  ¬ climbs p →
  (∀ t content,
     ReadFileTool_Execute t w {| rfPath := p |} = Ok content →
     IsPathAllowed (rfConfig t) w (TypeOf (rfBackend t)) p = (true, None) ∧
     OS.fs w !! OS.abspath w p = Some (OS.File content)) ∧
  (∀ t out,
     ListDirTool_Execute jsonMarshalStrings t w {| ldPath := p |} = Ok out →
     IsPathAllowed (ldConfig t) w (TypeOf (ldBackend t)) p = (true, None) ∧
     OS.lookupPath w p = Some OS.Dir) ∧
  (OS.abspath w p = absTargetOf (configRootOf home) p
   ↔ Filepath.Clean (OS.cwd w) = configRootOf home).
Proof.
  intros Hhome Habs Hcwd Hrel Hclimb. split; [|split].
  - intros t content. unfold ReadFileTool_Execute. cbn [rfPath].
    destruct (IsPathAllowed _ _ _ _) as [[] [reason|]]; try discriminate.
    destruct (OS.ReadFile w p) as [c|] eqn:Hread; [|discriminate].
    intros [= <-]. split; [done|].
    by apply SnapshotFacts.ReadFile_File, SnapshotFacts.lookupPath_File in Hread as (_&_&?).
  - intros t out. unfold ListDirTool_Execute, ReadDir. cbn [ldPath].
    destruct (IsPathAllowed _ _ _ _) as [[] [reason|]]; try discriminate.
    destruct (OS.lookupPath w p) as [[d|]|]; try discriminate. done.
  - destruct (configRootOf_rooted home Habs) as [Hroot Hclean].
    unfold OS.abspath, absTargetOf. rewrite Hrel.
    rewrite (PathFacts.Join2 (configRootOf home)) by done.
    rewrite PathFacts.Clean_idempotent by (by apply PathFacts.IsAbs_app).
    rewrite <- (PathFacts.Join2 (configRootOf home)) by done.
    rewrite PathFacts.Join_same_iff by done. by rewrite Hclean.
Qed.

Lemma relative_path_resolved_against_cwd_witness :
  (∀ t content,
     ReadFileTool_Execute t Scenario.rootWorld {| rfPath := "hyprland.conf" |} = Ok content →
     IsPathAllowed (rfConfig t) Scenario.rootWorld (TypeOf (rfBackend t)) "hyprland.conf"
     = (true, None) ∧
     OS.fs Scenario.rootWorld !! OS.abspath Scenario.rootWorld "hyprland.conf"
     = Some (OS.File content)) ∧
  (∀ t out,
     ListDirTool_Execute (λ _, "[]") t Scenario.rootWorld {| ldPath := "hyprland.conf" |}
     = Ok out →
     IsPathAllowed (ldConfig t) Scenario.rootWorld (TypeOf (ldBackend t)) "hyprland.conf"
     = (true, None) ∧
     OS.lookupPath Scenario.rootWorld "hyprland.conf" = Some OS.Dir) ∧
  (OS.abspath Scenario.rootWorld "hyprland.conf"
   = absTargetOf (configRootOf "/home/user") "hyprland.conf"
   ↔ Filepath.Clean (OS.cwd Scenario.rootWorld) = configRootOf "/home/user").
Proof.
  apply (relative_path_resolved_against_cwd (λ _, "[]") Scenario.rootWorld
           "/home/user" "hyprland.conf").
  - reflexivity.
  - reflexivity.
  - reflexivity.
  - reflexivity.
  - unfold climbs. vm_compute.
    intros H. apply elem_of_cons in H as [H|H]; [discriminate H|by apply elem_of_nil in H].
Defined.

(** From the home directory, the accepted name [hyprland.conf] is looked up
    in the home directory, where no such file exists, and not in the
    configuration root where it was authorized; from the configuration
    root it is found. *)
Example read_file_from_root :
  ReadFileTool_Execute Scenario.readTool Scenario.rootWorld {| rfPath := "hyprland.conf" |}
  = Ok ("a=1" +:+ nl).
Proof. vm_compute. reflexivity. Qed.

Example read_file_misses_authorized_file :
  IsPathAllowed DefaultConfig Scenario.nativeWorld SourceNative "hyprland.conf" = (true, None) ∧
  absTargetOf (configRootOf "/home/user") "hyprland.conf"
  = "/home/user/.config/hypr/hyprland.conf" ∧
  OS.abspath Scenario.nativeWorld "hyprland.conf" = "/home/user/hyprland.conf" ∧
  ReadFileTool_Execute Scenario.readTool Scenario.nativeWorld {| rfPath := "hyprland.conf" |}
  = Err "failed to read file: open hyprland.conf: no such file or directory".
Proof. vm_compute. repeat split; reflexivity. Qed.

(** ** Sanitizing a patch *)

(** C6, at the input where the code departs from it: the cleanup keeps the
    lines outside the fences and drops the lines between them, so a fenced
    well-formed patch is emptied and the validation rejects it, whatever
    the diff library. *)
Theorem sanitizePatch_drops_fenced_hunks :
  GoStrings.Contains Scenario.hunk "@@" = true ∧
  sanitizePatch Scenario.fencedPatch = "" ∧
  ∀ (Patch : Type) (PatchFromText : string → result (list Patch))
    (PatchApply : list Patch → string → string * list bool)
    (t : ApplyPatchTool) (w : OS.World) (path : string),
    ApplyPatchTool_Execute Patch PatchFromText PatchApply t w
      {| apPath := path; apPatch := Scenario.fencedPatch |}
    = (w, Err "invalid patch format: missing @@ markers. The patch must be in unified diff format generated by make_patch tool").
Proof.
  split; [reflexivity|]. split; [vm_compute; reflexivity|].
  intros. unfold ApplyPatchTool_Execute.
  replace (sanitizePatch (apPatch {| apPath := path; apPatch := Scenario.fencedPatch |}))
    with "" by (vm_compute; reflexivity).
  reflexivity.
Qed.

(** ** The conversation loop *)

Section AgentFacts.

Context {P W : Type}.
Implicit Types (a : Agent P W) (st : Fanout (P:=P) (W:=W)).

Lemma provider_sendUpdate a msg : provider (sendUpdate a msg) = provider a.
Proof. unfold sendUpdate. destruct (_ <? _)%nat; reflexivity. Qed.

Lemma registry_sendUpdate a msg : registry (sendUpdate a msg) = registry a.
Proof. unfold sendUpdate. destruct (_ <? _)%nat; reflexivity. Qed.

Lemma history_sendUpdate a msg : history (sendUpdate a msg) = history a.
Proof. unfold sendUpdate. destruct (_ <? _)%nat; reflexivity. Qed.

(** One goroutine: it writes slot [i] and no other, fills it for its call,
    and leaves provider, registry and history alone. *)
Lemma runToolCall_spec i tc a w results :
  ∃ a' w' m,
    runToolCall i tc (a, w, results) = (a', w', <[i := m]> results) ∧
    provider a' = provider a ∧ registry a' = registry a ∧ history a' = history a ∧
    slotFilled (registry a) tc m.
Proof.
  unfold runToolCall, slotFilled.
  set (name := FunctionCall.Name (ToolCall.Function tc)).
  set (a1 := match actionLabel name with Some l => sendUpdate a l | None => a end).
  assert (H1 : provider a1 = provider a ∧ registry a1 = registry a ∧ history a1 = history a).
  { subst a1. destruct (actionLabel name);
      [rewrite provider_sendUpdate, registry_sendUpdate, history_sendUpdate|]; done. }
  destruct H1 as (Hp & Hr & Hh). rewrite Hr.
  destruct (Get (registry a) name) as [tool|] eqn:Hget.
  - destruct (Execute tool w _) as [w' r] eqn:Hexec.
    destruct r as [output|e]; eexists _, w', _; (split; [reflexivity|]);
      rewrite provider_sendUpdate, registry_sendUpdate, history_sendUpdate;
      repeat (split; [done|]); exists w; by rewrite Hexec.
  - eexists a1, w, _. split; [reflexivity|]. done.
Qed.

(** The fan-out over any sequence of completions [order]: the slots of the
    calls that completed are filled for their own call. *)
Lemma dispatch_fold (calls : list ToolCall.t) (reg : ToolRegistry W) :
  ∀ (order done : list nat) st,
    registry st.1.1 = reg →
    length st.2 = length calls →
    (∀ j tc, j ∈ done → calls !! j = Some tc → ∃ m, st.2 !! j = Some m ∧ slotFilled reg tc m) →
    let st' := foldl (λ st i, match calls !! i with
                              | Some tc => runToolCall i tc st
                              | None => st
                              end) st order in
    provider st'.1.1 = provider st.1.1 ∧ registry st'.1.1 = reg ∧
    history st'.1.1 = history st.1.1 ∧
    length st'.2 = length calls ∧
    (∀ j tc, j ∈ done ∨ j ∈ order → calls !! j = Some tc →
             ∃ m, st'.2 !! j = Some m ∧ slotFilled reg tc m).
Proof.
  induction order as [|i order IH]; intros done st Hreg Hlen Hdone; cbn [foldl].
  - repeat (split; [done|]). intros j tc [Hj|Hj]; [by apply Hdone|by apply elem_of_nil in Hj].
  - destruct st as [[a w] results]. cbn [fst snd] in *.
    destruct (calls !! i) as [tc|] eqn:Hi.
    + destruct (runToolCall_spec i tc a w results) as (a' & w' & m & -> & Hp & Hr & Hh & Hm).
      destruct (IH (i :: done) (a', w', <[i := m]> results)) as (Hp' & Hr' & Hh' & Hl' & Hs').
      * cbn [fst snd]. congruence.
      * cbn [snd]. by rewrite length_insert.
      * cbn [snd]. intros j tc' Hj Hc.
        destruct (decide (j = i)) as [->|Hne].
        -- exists m. split.
           ++ apply list_lookup_insert_eq. rewrite Hlen. by eapply lookup_lt_Some.
           ++ rewrite Hi in Hc. injection Hc as <-. by rewrite <- Hreg.
        -- rewrite list_lookup_insert_ne by done. apply Hdone; [|done].
           apply elem_of_cons in Hj as [?|?]; done.
      * cbn [fst snd] in *. repeat (split; [congruence|]).
        intros j tc' Hj. apply Hs'. rewrite elem_of_cons.
        destruct Hj as [Hj|Hj]; [tauto|]. apply elem_of_cons in Hj. tauto.
    + destruct (IH done (a, w, results) Hreg Hlen Hdone) as (Hp' & Hr' & Hh' & Hl' & Hs').
      repeat (split; [done|]). intros j tc Hj Hc. apply Hs'; [|done].
      destruct Hj as [Hj|Hj]; [tauto|]. apply elem_of_cons in Hj as [->|Hj]; [|tauto].
      congruence.
Qed.

(** Fan-out and fan-in for a completion order in which every call
    completes: slot [j] is filled for call [j]. *)
Lemma dispatch_slots a w (calls : list ToolCall.t) (order : list nat) :
  order ≡ₚ seq 0 (length calls) →
  ∃ a' w' results,
    dispatch a w calls order = (a', w', results) ∧
    provider a' = provider a ∧ registry a' = registry a ∧ history a' = history a ∧
    length results = length calls ∧
    ∀ j tc, calls !! j = Some tc → ∃ m, results !! j = Some m ∧ slotFilled (registry a) tc m.
Proof.
  intros Hperm. unfold dispatch.
  destruct (dispatch_fold calls (registry a) order []
              (a, w, replicate (length calls) Message.zero)) as (Hp & Hr & Hh & Hl & Hs).
  - reflexivity.
  - apply length_replicate.
  - intros j tc Hj. by apply elem_of_nil in Hj.
  - destruct (foldl _ _ order) as [[a' w'] results]. cbn [fst snd] in *.
    exists a', w', results. repeat (split; [done|]).
    intros j tc Hc. apply Hs; [|done]. right. rewrite Hperm.
    apply elem_of_seq. apply lookup_lt_Some in Hc. lia.
Qed.

End AgentFacts.

(** *** The turn limit *)

Section TurnLimit.

Context {P W : Type}.
Variable prov : LLMProvider P.
Variable sched : nat → nat → list nat.

Lemma provider_dispatch (a : Agent (P * nat) W) w calls order :
  provider (dispatch a w calls order).1.1 = provider a.
Proof.
  unfold dispatch.
  change (provider a) with (provider (a, w, replicate (length calls) Message.zero).1.1).
  generalize (a, w, replicate (length calls) Message.zero).
  induction order as [|i order IH]; intros st; [reflexivity|].
  cbn [foldl]. rewrite IH.
  destruct (calls !! i) as [tc|]; [|reflexivity].
  destruct st as [[a0 w0] r0].
  destruct (runToolCall_spec i tc a0 w0 r0) as (a' & w' & m & -> & Hp & _). exact Hp.
Qed.

(** However the provider and the tools behave, a run of the loop with [n]
    iterations left calls the provider at most [n] times. *)
Lemma turns_calls_bounded n : ∀ i (a : Agent (P * nat) W) p c w,
  provider a = counting prov →
  ((turns sched n i a ((p, c), w)).1.2.1.2 ≤ c + n)%nat.
Proof.
  induction n as [|n IH]; intros i a p c w Hp; [simpl; lia|].
  cbn [turns].
  rewrite provider_sendUpdate, Hp. unfold counting at 1. cbn [fst snd].
  destruct (prov p _ _) as [p' [resp|err ctx]].
  - destruct (Message.ToolCalls resp) as [|tc calls] eqn:Hcalls; [simpl; lia|].
    match goal with |- context [dispatch ?a0 ?w0 ?cs ?o] =>
      pose proof (provider_dispatch a0 w0 cs o) as Hd;
      destruct (dispatch a0 w0 cs o) as [[a' w'] results] end.
    cbn [fst] in Hd.
    etransitivity; [apply IH|lia].
    cbn [provider withHistory]. rewrite Hd. cbn [provider withHistory].
    rewrite provider_sendUpdate. exact Hp.
  - destruct ctx; simpl; lia.
Qed.

(** X23. [ProcessMessage] is a total function, and for every provider,
    registry and completion order it makes at most 25 calls to the
    provider. *)
Lemma ProcessMessage_at_most_25_calls (a : Agent (P * nat) W) p w input :
  provider a = counting prov →
  ((ProcessMessage sched a ((p, 0%nat), w) input).1.2.1.2 ≤ 25)%nat.
Proof.
  intros Hp. unfold ProcessMessage.
  apply (turns_calls_bounded maxTurns).
  cbn [provider withHistory].
  destruct (_ && _); cbn [provider withHistory]; rewrite provider_sendUpdate; exact Hp.
Qed.

End TurnLimit.

Lemma ProcessMessage_at_most_25_calls_witness :
  ((ProcessMessage Scenario.fifo
      (NewAgent (counting Scenario.busyProvider) (NewToolRegistry (W:=unit)) "")
      ((0%nat, 0%nat), tt) "hello").1.2.1.2 ≤ 25)%nat.
Proof.
  apply (ProcessMessage_at_most_25_calls Scenario.busyProvider Scenario.fifo
           (NewAgent (counting Scenario.busyProvider) (NewToolRegistry (W:=unit)) "")
           0%nat tt "hello").
  reflexivity.
Defined.

(** C7, at the input where the code departs from it: the limit is the
    constant 25 of the loop and the configured maximum never reaches the
    agent.  Configured with five turns, and with a provider that asks for a
    tool on every turn, the loop calls the provider 25 times before it
    returns the limit text without error. *)
Theorem ProcessMessage_ignores_configured_MaxTurns :
  let agent := Main.newAgent Scenario.fiveTurns SourceNative Scenario.busyProvider
                 (NewToolRegistry (W:=unit)) in
  let run := ProcessMessage Scenario.fifo agent (0%nat, tt) "hello" in
  MaxTurns (Configuration.Agent Scenario.fiveTurns) = 5%Z ∧
  run.1.2 = (25%nat, tt) ∧
  run.2 = Ok loopLimitText.
Proof. vm_compute. repeat split; reflexivity. Qed.

(** *** Order of the tool results *)

(** C8: in a turn whose response carries tool calls, whatever the order in
    which the executions complete, the loop continues with a history that
    is the old one, the response, and then one result per call, the result
    in position [j] being the one of call [j]: a tool message with that
    call's id and name, holding the not-found text for an unregistered
    name and otherwise the tool's output or its embedded error. *)
Theorem tool_results_in_call_order {P W : Type} (sched : nat → nat → list nat)
        (n i : nat) (a : Agent P W) (e : P * W) (p' : P) (resp : Message.t) :
  provider a e.1 (history a) (Definitions (registry a)) = (p', ChatOk resp) →
  Message.ToolCalls resp ≠ [] →
  sched i (length (Message.ToolCalls resp)) ≡ₚ seq 0 (length (Message.ToolCalls resp)) →
  ∃ a' w' results,
    turns sched (S n) i a e = turns sched n (S i) a' (p', w') ∧
    history a' = history a ++ [resp] ++ results ∧
    length results = length (Message.ToolCalls resp) ∧
    ∀ j tc, Message.ToolCalls resp !! j = Some tc →
            ∃ m, results !! j = Some m ∧ slotFilled (registry a) tc m.
Proof.
  intros Hchat Hcalls Hperm. cbn [turns].
  rewrite provider_sendUpdate, history_sendUpdate, registry_sendUpdate, Hchat.
  destruct (Message.ToolCalls resp) as [|tc calls] eqn:Hc; [done|].
  set (a0 := withHistory _ _).
  destruct (dispatch_slots a0 e.2 (tc :: calls) _ Hperm)
    as (a1 & w1 & results & -> & _ & Hr & Hh & Hl & Hs).
  exists (withHistory a1 (history a1 ++ results)), w1, results.
  split; [reflexivity|]. split.
  - cbn [history withHistory]. rewrite Hh. subst a0. cbn [history withHistory].
    by rewrite ?history_sendUpdate, <- app_assoc.
  - split; [done|]. intros j tc' Hj. destruct (Hs j tc' Hj) as (m & Hm & Hf).
    exists m. split; [done|]. subst a0. cbn [registry withHistory] in Hf.
    by rewrite registry_sendUpdate in Hf.
Qed.

Lemma tool_results_in_call_order_witness :
  ∃ a' w' results,
    turns Scenario.lifo 25 0
          (NewAgent Scenario.threeCallsThenDone Scenario.echoRegistry "") (0%nat, [])
    = turns Scenario.lifo 24 1 a' (1%nat, w') ∧
    history a' = [] ++ [Message.mk RoleAssistant "" "" Scenario.threeCalls ""] ++ results ∧
    length results = 3%nat ∧
    ∀ j tc, Scenario.threeCalls !! j = Some tc →
            ∃ m, results !! j = Some m ∧ slotFilled Scenario.echoRegistry tc m.
Proof.
  apply (tool_results_in_call_order Scenario.lifo 24 0
           (NewAgent Scenario.threeCallsThenDone Scenario.echoRegistry "") (0%nat, [])
           1%nat (Message.mk RoleAssistant "" "" Scenario.threeCalls "")).
  - reflexivity.
  - discriminate.
  - symmetry. apply Permutation_rev.
Defined.

(** The run of the scenario in full: the tools executed third call first,
    and the history still lists the results in the order of the calls. *)
Example reversed_completion_keeps_order :
  let run := ProcessMessage Scenario.lifo
               (NewAgent Scenario.threeCallsThenDone Scenario.echoRegistry "")
               (0%nat, []) "go" in
  run.1.2.2 = ["second"; "first"] ∧
  Message.Content <$> history run.1.1
  = ["go"; ""; "first(1)"; "second(2)"; "Error: Tool third not found"; "done"] ∧
  Message.ToolCallID <$> history run.1.1 = [""; ""; "id_a"; "id_b"; "id_c"; ""].
Proof. vm_compute. repeat split; reflexivity. Qed.

(** ** Detection of the installation *)

(** X22. With the backends in the order [main] lists them, the discovery
    tool never reports the Omarchy variant: whenever the Omarchy detector
    would succeed, the native one, probed before it, succeeds too. *)
Lemma detectLoop_never_omarchy (fmtQ : list string → string) (w : OS.World) :
  GoStrings.HasPrefix (detectLoop fmtQ w Main.backends).2
    ("{" +:+ dq +:+ "type" +:+ dq +:+ ": " +:+ dq +:+ "omarchy") = false.
Proof.
  unfold Main.backends, detectLoop, Detect, Main.hydeBackend, Main.nativeBackend,
    Main.omarchyBackend, NewNativeBackend, DetectHyDE, DetectNative, DetectOmarchy.
  cbn [kind].
  destruct (rootOrDefault w "") as [root|e]; [|reflexivity].
  destruct (negb (OS.Getenv w "HYDE_CONFIG_HOME" =? "")%string); [reflexivity|].
  destruct (OS.Stat w (Filepath.Join [root; "hyde.conf"])); [reflexivity|].
  destruct (negb (OS.IsNotExist w (Filepath.Join [root; "Configs"])) ||
            negb (OS.IsNotExist w (Filepath.Join [root; "scripts"]))); [reflexivity|].
  destruct (OS.Stat w (Filepath.Join [root; "hyprland.conf"])); [reflexivity|].
  destruct (OS.IsNotExist w (Filepath.Join [root; "omarchy"])); reflexivity.
Qed.

(** C9, at the input where the code departs from it: in a tree with the
    [omarchy] directory and the main file, the Omarchy detector succeeds,
    yet the generic native variant is probed before it and is the one the
    discovery tool and [main] select. *)
Theorem detect_native_shadows_omarchy :
  (Detect Main.omarchyBackend Scenario.omarchyWorld "").2 = Ok true ∧
  (∀ fmtQ : list string → string,
     (detectLoop fmtQ Scenario.omarchyWorld Main.backends).2
     = "{" +:+ dq +:+ "type" +:+ dq +:+ ": " +:+ dq +:+ "native" +:+ dq +:+
       ", " +:+ dq +:+ "sources" +:+ dq +:+ ": " +:+
       fmtQ ["/home/user/.config/hypr/hyprland.conf"] +:+ "}") ∧
  TypeOf (Main.detectActive Scenario.omarchyWorld Main.backends Main.nativeBackend)
  = SourceNative.
Proof.
  split; [vm_compute; reflexivity|]. split; [|vm_compute; reflexivity].
  intros fmtQ.
  replace (detectLoop fmtQ Scenario.omarchyWorld Main.backends)
    with (detectLoop fmtQ Scenario.omarchyWorld
            [Main.hydeBackend; Main.nativeBackend; Main.omarchyBackend]) by reflexivity.
  cbn [detectLoop].
  replace (Detect Main.hydeBackend Scenario.omarchyWorld "")
    with (Main.hydeBackend, @Ok bool false) by (vm_compute; reflexivity).
  replace (Detect Main.nativeBackend Scenario.omarchyWorld "")
    with ({| kind := KNative; ConfigPath := "/home/user/.config/hypr/hyprland.conf" |},
          @Ok bool true) by (vm_compute; reflexivity).
  reflexivity.
Qed.

(** Where the configuration root is a regular file, the probes below it
    fail, but not for a missing entry: the HyDE detector takes its
    directories for present and detects, the other two do not. *)
Example Detect_below_a_file :
  OS.Stat Scenario.fileRootWorld "/home/user/.config/hypr/Configs" = false ∧
  OS.IsNotExist Scenario.fileRootWorld "/home/user/.config/hypr/Configs" = false ∧
  Detect Main.hydeBackend Scenario.fileRootWorld ""
  = (withConfigPath Main.hydeBackend "/home/user/.config/hypr/hyprland.conf", Ok true) ∧
  Detect Main.nativeBackend Scenario.fileRootWorld "" = (Main.nativeBackend, Ok false) ∧
  Detect Main.omarchyBackend Scenario.fileRootWorld "" = (Main.omarchyBackend, Ok false).
Proof. vm_compute. repeat split; reflexivity. Qed.

(** ** Rollback *)

(** What exists is not reported missing, and what is reported missing
    does not exist. *)
Lemma Stat_IsNotExist (w : OS.World) (name : string) :
  OS.Stat w name = true → OS.IsNotExist w name = false.
Proof. intros H. unfold OS.IsNotExist. by rewrite H. Qed.

Lemma IsNotExist_Stat (w : OS.World) (name : string) :
  OS.IsNotExist w name = true → OS.Stat w name = false.
Proof. unfold OS.IsNotExist. by destruct (OS.Stat w name). Qed.

(** The snapshot service's [Restore], which the capability does not call:
    it fails for a snapshot that does not exist, and when it succeeds over
    targets that denote different files outside the snapshot, every target
    with a same-named copy in the snapshot holds that copy and the others
    are skipped. *)
Lemma Restore_not_found (s : Safety.SnapshotService) (w : OS.World) (id : string)
      (targets : list string) :
  OS.IsNotExist w (Filepath.Join [Safety.BackupDir s; id]) = true →
  Safety.Restore s w id targets = (w, Some ("snapshot " +:+ id +:+ " not found")).
Proof. intros H. unfold Safety.Restore. by rewrite H. Qed.

(** X10. A successful [Restore] of distinct targets, none of them a copy
    of the snapshot: every target with a same-named copy holds the bytes of
    that copy afterwards, and every other target is left as it was. *)
Lemma Restore_copies_back (s : Safety.SnapshotService) (w w' : OS.World) (id : string)
      (targets : list string) :
  let dir := Filepath.Join [Safety.BackupDir s; id] in
  Safety.Restore s w id targets = (w', None) →
  NoDup (OS.abspath w <$> targets) →
  (∀ t t', t ∈ targets → t' ∈ targets →
           OS.abspath w (Filepath.Join [dir; Filepath.Base t']) ≠ OS.abspath w t) →
  ∀ t, t ∈ targets →
    if OS.Stat w (Filepath.Join [dir; Filepath.Base t])
    then ∃ data, OS.ReadFile w (Filepath.Join [dir; Filepath.Base t]) = Ok data ∧
                 OS.ReadFile w' t = Ok data
    else OS.ReadFile w' t = OS.ReadFile w t.
Proof.
  intros dir. unfold Safety.Restore. fold dir.
  destruct (OS.IsNotExist w dir); [discriminate|].
  apply SnapshotFacts.restoreFiles_copies_back.
Qed.

Example Restore_brings_the_copy_back :
  let run := Safety.Restore Scenario.backups Scenario.snapshotWorld "20260101-110000"
               ["/home/user/.config/hypr/hyprland.conf"; "/home/user/.config/hypr/monitors.conf"] in
  run.2 = None ∧
  OS.ReadFile run.1 "/home/user/.config/hypr/hyprland.conf" = Ok ("a=0" +:+ nl) ∧
  OS.Stat run.1 "/home/user/.config/hypr/monitors.conf" = false.
Proof. vm_compute. repeat split; reflexivity. Qed.

(** A snapshot directory that is missing is reported; one whose path runs
    through a regular file is not, and [Restore] then finds no copy, skips
    every target and succeeds. *)
Example Restore_missing_and_below_a_file :
  Safety.Restore Scenario.backups Scenario.nativeWorld "20260101-110000"
    ["/home/user/.config/hypr/hyprland.conf"]
  = (Scenario.nativeWorld, Some "snapshot 20260101-110000 not found") ∧
  Safety.Restore {| Safety.BackupDir := "/home/user/.config/hypr/hyprland.conf" |}
    Scenario.nativeWorld "20260101-110000" ["/home/user/.config/hypr/hyprland.conf"]
  = (Scenario.nativeWorld, None).
Proof. vm_compute. split; reflexivity. Qed.

(** C10 fails on the code: with a snapshot id, the capability leaves the
    target as it is although the snapshot holds another copy. *)
Lemma rollback_with_id_restores_nothing :
  ¬ restoresSnapshot Scenario.backups "20260101-110000"
      ["/home/user/.config/hypr/hyprland.conf"]
      Scenario.snapshotWorld
      (RollbackTool_Execute Scenario.decodeRollback {| rbSnapshot := Some Scenario.backups |}
         Scenario.snapshotWorld (Scenario.rollbackJSON "20260101-110000")).1.
Proof.
  intros H.
  specialize (H "/home/user/.config/hypr/hyprland.conf" ("a=0" +:+ nl)).
  assert (Hin : "/home/user/.config/hypr/hyprland.conf"
                ∈ ["/home/user/.config/hypr/hyprland.conf"]) by apply list_elem_of_here.
  specialize (H Hin eq_refl).
  vm_compute in H. discriminate H.
Qed.

Section RollbackFacts.

Variable ParseArgs : string → result RollbackArgs.

(** C10 as amended: the rollback capability never restores anything.
    Every call leaves the world untouched and returns the error of the
    decoder when the arguments do not decode, and otherwise one of two
    fixed notices without error, for an empty and for a given snapshot id;
    so whatever snapshot and targets one takes, if a target differs from
    its same-named copy in the snapshot, the call has not restored the
    snapshot. *)
Theorem RollbackTool_Execute_restores_nothing (t : RollbackTool) (w : OS.World)
        (args : string) :
  RollbackTool_Execute ParseArgs t w args =
  (w, match ParseArgs args with
      | Err e => Err e
      | Ok a =>
          Ok (if (SnapshotID a =? "")%string
              then "Error: Snapshot ID required (automatic latest detection not implemented yet)"
              else "Rollback not fully implemented. Please manually restore from ~/.local/share/hyprAgent/backups/")
      end) ∧
  (∀ (s : Safety.SnapshotService) (id : string) (targets : list string)
     (target data old : string),
     target ∈ targets →
     OS.ReadFile w (Filepath.Join [Safety.BackupDir s; id; Filepath.Base target]) = Ok data →
     OS.ReadFile w target = Ok old →
     old ≠ data →
     ¬ restoresSnapshot s id targets w (RollbackTool_Execute ParseArgs t w args).1).
Proof.
  assert (Hw : (RollbackTool_Execute ParseArgs t w args).1 = w).
  { unfold RollbackTool_Execute. destruct (ParseArgs args) as [a|e]; [|done].
    by destruct (SnapshotID a =? "")%string. }
  split.
  - unfold RollbackTool_Execute. destruct (ParseArgs args) as [a|e]; [|done].
    by destruct (SnapshotID a =? "")%string.
  - intros s id targets target data old Hin Hcopy Hold Hne Hrestores.
    rewrite Hw in Hrestores.
    specialize (Hrestores target data Hin Hcopy). congruence.
Qed.

End RollbackFacts.

Lemma RollbackTool_Execute_restores_nothing_witness :
  RollbackTool_Execute Scenario.decodeRollback {| rbSnapshot := Some Scenario.backups |}
    Scenario.snapshotWorld (Scenario.rollbackJSON "20260101-110000")
  = (Scenario.snapshotWorld,
     Ok "Rollback not fully implemented. Please manually restore from ~/.local/share/hyprAgent/backups/") ∧
  RollbackTool_Execute Scenario.decodeRollback {| rbSnapshot := Some Scenario.backups |}
    Scenario.snapshotWorld "{}"
  = (Scenario.snapshotWorld,
     Ok "Error: Snapshot ID required (automatic latest detection not implemented yet)") ∧
  RollbackTool_Execute Scenario.decodeRollback {| rbSnapshot := Some Scenario.backups |}
    Scenario.snapshotWorld ""
  = (Scenario.snapshotWorld, Err "unexpected end of JSON input") ∧
  ¬ restoresSnapshot Scenario.backups "20260101-110000"
      ["/home/user/.config/hypr/hyprland.conf"; "/home/user/.config/hypr/monitors.conf"]
      Scenario.snapshotWorld
      (RollbackTool_Execute Scenario.decodeRollback {| rbSnapshot := Some Scenario.backups |}
         Scenario.snapshotWorld (Scenario.rollbackJSON "20260101-110000")).1.
Proof.
  split; [|split; [|split]].
  - apply (RollbackTool_Execute_restores_nothing Scenario.decodeRollback
             {| rbSnapshot := Some Scenario.backups |} Scenario.snapshotWorld
             (Scenario.rollbackJSON "20260101-110000")).
  - apply (RollbackTool_Execute_restores_nothing Scenario.decodeRollback
             {| rbSnapshot := Some Scenario.backups |} Scenario.snapshotWorld "{}").
  - apply (RollbackTool_Execute_restores_nothing Scenario.decodeRollback
             {| rbSnapshot := Some Scenario.backups |} Scenario.snapshotWorld "").
  - apply (proj2 (RollbackTool_Execute_restores_nothing Scenario.decodeRollback
                    {| rbSnapshot := Some Scenario.backups |} Scenario.snapshotWorld
                    (Scenario.rollbackJSON "20260101-110000"))
             Scenario.backups "20260101-110000"
             ["/home/user/.config/hypr/hyprland.conf"; "/home/user/.config/hypr/monitors.conf"]
             "/home/user/.config/hypr/hyprland.conf" ("a=0" +:+ nl) ("a=1" +:+ nl)).
    + apply list_elem_of_here.
    + reflexivity.
    + reflexivity.
    + discriminate.
Defined.

(** * Further properties

    The properties below cover what the statements above leave out: the
    rest of the gate and of the tools, the snapshot service, the parser and
    [Save], the backend's own [ApplyPatch], detection, the loop, the
    registry and the providers. *)

(** A pair is determined by its first component and the value of its
    second. *)
Lemma pair_with_snd {A B : Type} (x : A * B) (b : B) : x.2 = b → x = (x.1, b).
Proof. destruct x as [a b']. cbn [fst snd]. by intros ->. Qed.

(** ** The security gate, continued *)

Module GateFacts.

Lemma relSkip_suffix (b : list string) : ∀ t b' t',
  Filepath.relSkip b t = (b', t') → ∃ pre, b = pre ++ b'.
Proof.
  induction b as [|x b IH]; intros t b' t' H.
  - cbn in H. injection H as <- <-. by exists [].
  - destruct t as [|y t]; cbn in H.
    + injection H as <- <-. by exists [].
    + destruct (x =? y)%string.
      * destruct (IH _ _ _ H) as [pre ->]. by exists (x :: pre).
      * injection H as <- <-. by exists [].
Qed.

Lemma match_dotdot {A} (x : string) (u v : A) :
  x ≠ ".." → match x with ".." => u | _ => v end = v.
Proof.
  intros Hne.
  repeat (match goal with
          | |- match ?s with EmptyString => _ | String _ _ => _ end = _ => destruct s; try done
          | |- match ?c with Ascii _ _ _ _ _ _ _ _ => _ end = _ => destruct c
          | |- (if ?b then _ else _) = _ => destruct b; try done
          end).
Qed.

Lemma last_cons_ne {A} (x : A) (l : list A) (d : A) : l ≠ [] → List.last (x :: l) d = List.last l d.
Proof. by destruct l. Qed.

Lemma last_plain (E : list string) : E ≠ [] → Forall plain E → List.last E "" ≠ "".
Proof.
  induction E as [|x E IH]; [done|]. intros _ HE.
  apply Forall_cons in HE as [Hx HE].
  destruct E as [|y E]; [apply Hx|]. rewrite last_cons_ne by done. by apply IH.
Qed.

Lemma relElems_rooted (E : list string) :
  Forall plain E → Filepath.relElems ("/" +:+ GoStrings.Join E "/") = "" :: E.
Proof.
  intros HE. unfold Filepath.relElems.
  change ("/" +:+ GoStrings.Join E "/") with ("" +:+ String "/"%char (GoStrings.Join E "/")).
  rewrite StringFacts.Split_app_sep. cbn [GoStrings.Split app].
  destruct E as [|x E]; [reflexivity|].
  rewrite PathFacts.Split_Join by (done || by apply PathFacts.plain_noSlash).
  rewrite last_cons_ne by done.
  destruct (String.eqb_spec (List.last (x :: E) "") "") as [Heq|_]; [|done].
  by apply last_plain in Heq.
Qed.

Lemma Rel_rooted (E1 E2 : list string) :
  Forall plain E1 → Forall plain E2 →
  ∃ r, Filepath.Rel ("/" +:+ GoStrings.Join E1 "/") ("/" +:+ GoStrings.Join E2 "/") = Ok r.
Proof.
  intros H1 H2. unfold Filepath.Rel.
  rewrite !PathFacts.Clean_rooted by apply PathFacts.IsAbs_slash.
  rewrite !PathFacts.rootedElems_slash_Join by done.
  destruct (_ =? _)%string; [by eexists|].
  change (("/" +:+ GoStrings.Join E1 "/" =? ".")%string) with false. cbv iota.
  rewrite !PathFacts.IsAbs_slash. cbn [Bool.eqb negb].
  rewrite !relElems_rooted by done. cbn [Filepath.relSkip String.eqb].
  destruct (Filepath.relSkip E1 E2) as [b t] eqn:Hs.
  destruct (relSkip_suffix _ _ _ _ Hs) as [pre ->].
  apply Forall_app in H1 as [_ Hb].
  destruct b as [|x b]; [by eexists|].
  apply Forall_cons in Hb as [(_ & _ & Hx & _) _].
  destruct (String.eqb_spec x "..") as [->|Hne]; [done|].
  rewrite match_dotdot by done. destruct t; by eexists.
Qed.

Lemma absTargetOf_rooted (root p : string) :
  Filepath.IsAbs root = true →
  ∃ E, Forall plain E ∧ absTargetOf root p = "/" +:+ GoStrings.Join E "/".
Proof.
  intros Hroot. unfold absTargetOf.
  destruct (Filepath.IsAbs p) eqn:Hp.
  - exists (rootedElems p). split; [apply PathFacts.rootedElems_plain|].
    by apply PathFacts.Clean_rooted.
  - rewrite PathFacts.Join2 by done.
    rewrite PathFacts.Clean_idempotent by (by apply PathFacts.IsAbs_app).
    eexists. split; [apply PathFacts.rootedElems_plain|].
    apply PathFacts.Clean_rooted. by apply PathFacts.IsAbs_app.
Qed.

Lemma configRootOf_elems (home : string) :
  Filepath.IsAbs home = true →
  ∃ E, Forall plain E ∧ configRootOf home = "/" +:+ GoStrings.Join E "/".
Proof.
  intros H. exists (rootedElems home ++ [".config"; "hypr"]). split.
  - apply Forall_app. split; [apply PathFacts.rootedElems_plain|PathFacts.plain_names].
  - apply PathFacts.Join_home; [done|done|PathFacts.plain_names].
Qed.

(** Between a cleaned absolute base and a cleaned absolute target [Rel]
    always finds a relative path. *)
Lemma Rel_root_target (home p : string) :
  Filepath.IsAbs home = true →
  ∃ r, Filepath.Rel (configRootOf home) (absTargetOf (configRootOf home) p) = Ok r.
Proof.
  intros H.
  destruct (configRootOf_elems home H) as (E1 & H1 & Hr).
  destruct (absTargetOf_rooted (configRootOf home) p) as (E2 & H2 & Ht).
  { rewrite Hr. apply PathFacts.IsAbs_slash. }
  rewrite Ht, Hr. by apply Rel_rooted.
Qed.

Lemma prefix_refl (s : string) : String.prefix s s = true.
Proof. induction s as [|c s IH]; [done|]. cbn. by destruct (Ascii.ascii_dec c c). Qed.

Lemma prefix_app_l (a b s : string) :
  String.prefix (a +:+ b) s = true → String.prefix a s = true.
Proof.
  revert s. induction a as [|c a IH]; intros s; [intros _; apply PathFacts.prefix_nil|].
  rewrite StringFacts.app_cons. destruct s as [|d s]; [done|]. cbn.
  destruct (Ascii.ascii_dec c d); [apply IH|done].
Qed.

(** Joining the dot to the configuration root gives the root. *)
Lemma root_dot (home : string) :
  Filepath.IsAbs home = true →
  Filepath.Clean (Filepath.Join [configRootOf home; "."]) = configRootOf home.
Proof.
  intros H. destruct (configRootOf_rooted home H) as [Habs Hclean].
  rewrite PathFacts.Join2 by done.
  rewrite PathFacts.Clean_idempotent by (by apply PathFacts.IsAbs_app).
  rewrite <- Hclean at 2.
  apply PathFacts.Clean_eq_elems; [by apply PathFacts.IsAbs_app|done|].
  rewrite PathFacts.rootedElems_under.
  - cbn. by rewrite app_nil_r.
  - unfold climbs. cbn. apply not_elem_of_nil.
Qed.

End GateFacts.

(** X2. When the dot is among the allowed directories of a backend, as
    it is in the default settings of all three, the gate allows every path
    that is the configuration root or lies below it: the list of allowed
    files and the other allowed directories then restrict nothing inside
    the root. *)
Theorem IsPathAllowed_dot_allows_whole_root (c : Config) (w : OS.World)
        (backendType : ConfigSourceType) (sec : BackendSecurity) (home targetPath : string) :
  securityOf c backendType = Some sec →
  "." ∈ AllowedDirs sec →
  OS.UserHomeDir w = Ok home →
  Filepath.IsAbs home = true →
  let root := configRootOf home in
  let absTarget := absTargetOf root targetPath in
  absTarget = root ∨ Filepath.HasPrefix absTarget (root +:+ "/") = true →
  IsPathAllowed c w backendType targetPath = (true, None).
Proof.
  intros Hsec Hdot Hhome Habs root absTarget Hin.
  unfold IsPathAllowed. rewrite Hsec, Hhome. cbv zeta. fold root. fold absTarget.
  assert (Filepath.HasPrefix absTarget root = true) as ->.
  { destruct Hin as [->|Hin]; [apply GateFacts.prefix_refl|].
    by apply GateFacts.prefix_app_l in Hin. }
  cbn [negb].
  destruct (GateFacts.Rel_root_target home targetPath Habs) as [r Hr].
  fold root in Hr. fold absTarget in Hr. rewrite Hr.
  destruct (existsb (allowedFileMatch r absTarget) _); [done|].
  assert (existsb (allowedDirMatch root absTarget) (AllowedDirs sec) = true) as ->; [|done].
  apply existsb_exists. exists ".". split; [by apply list_elem_of_In|].
  unfold allowedDirMatch. unfold root at 1 2. rewrite GateFacts.root_dot by done. fold root.
  destruct Hin as [-> | ->]; [|by rewrite orb_true_r].
  by rewrite String.eqb_refl.
Qed.

Lemma IsPathAllowed_dot_allows_whole_root_witness :
  IsPathAllowed DefaultConfig Scenario.nativeWorld SourceNative
    "/home/user/.config/hypr/private/notes.txt" = (true, None).
Proof.
  apply (IsPathAllowed_dot_allows_whole_root DefaultConfig Scenario.nativeWorld SourceNative
           (Native (Security DefaultConfig)) "/home/user").
  - reflexivity.
  - apply list_elem_of_here.
  - reflexivity.
  - reflexivity.
  - right. vm_compute. reflexivity.
Defined.

(** X3. For an absolute path, read-file returns the bytes of the file at
    the cleaned path and list-dir lists the directory there, and only if
    the cleaned path starts with the bytes of the configuration root. *)
Theorem absolute_path_confined_to_root_bytes
        (jsonMarshalStrings : list string → string) (w : OS.World) (p : string) :
  Filepath.IsAbs p = true →
  (∀ t content,
     ReadFileTool_Execute t w {| rfPath := p |} = Ok content →
     ∃ home, OS.UserHomeDir w = Ok home ∧
             Filepath.HasPrefix (Filepath.Clean p) (configRootOf home) = true ∧
             OS.fs w !! Filepath.Clean p = Some (OS.File content)) ∧
  (∀ t out,
     ListDirTool_Execute jsonMarshalStrings t w {| ldPath := p |} = Ok out →
     ∃ home, OS.UserHomeDir w = Ok home ∧
             Filepath.HasPrefix (Filepath.Clean p) (configRootOf home) = true ∧
             OS.lookupPath w p = Some OS.Dir).
Proof.
  intros Habs. split.
  - intros t content. unfold ReadFileTool_Execute. cbn [rfPath].
    destruct (IsPathAllowed _ _ _ _) as [[] [reason|]] eqn:Hgate; try discriminate.
    destruct (OS.ReadFile w p) as [c|] eqn:Hread; [|discriminate].
    intros [= <-].
    destruct (IsPathAllowed_accepted _ _ _ _ Hgate) as (home & Hhome & Hpre).
    unfold absTargetOf in Hpre. rewrite Habs in Hpre.
    exists home. repeat split; [done|done|].
    apply SnapshotFacts.ReadFile_File, SnapshotFacts.lookupPath_File in Hread as (_&_&H).
    unfold OS.abspath in H. by rewrite Habs in H.
  - intros t out. unfold ListDirTool_Execute, ReadDir. cbn [ldPath].
    destruct (IsPathAllowed _ _ _ _) as [[] [reason|]] eqn:Hgate; try discriminate.
    destruct (OS.lookupPath w p) as [[d|]|]; try discriminate. intros _.
    destruct (IsPathAllowed_accepted _ _ _ _ Hgate) as (home & Hhome & Hpre).
    unfold absTargetOf in Hpre. rewrite Habs in Hpre. eauto.
Qed.

Lemma absolute_path_confined_to_root_bytes_witness :
  (∀ t content,
     ReadFileTool_Execute t Scenario.nativeWorld
       {| rfPath := "/home/user/.config/hypr/hyprland.conf" |} = Ok content →
     ∃ home, OS.UserHomeDir Scenario.nativeWorld = Ok home ∧
             Filepath.HasPrefix (Filepath.Clean "/home/user/.config/hypr/hyprland.conf")
               (configRootOf home) = true ∧
             OS.fs Scenario.nativeWorld !! Filepath.Clean "/home/user/.config/hypr/hyprland.conf"
             = Some (OS.File content)) ∧
  (∀ t out,
     ListDirTool_Execute (λ _, "[]") t Scenario.nativeWorld
       {| ldPath := "/home/user/.config/hypr/hyprland.conf" |} = Ok out →
     ∃ home, OS.UserHomeDir Scenario.nativeWorld = Ok home ∧
             Filepath.HasPrefix (Filepath.Clean "/home/user/.config/hypr/hyprland.conf")
               (configRootOf home) = true ∧
             OS.lookupPath Scenario.nativeWorld "/home/user/.config/hypr/hyprland.conf"
             = Some OS.Dir).
Proof.
  apply (absolute_path_confined_to_root_bytes (λ _, "[]") Scenario.nativeWorld
           "/home/user/.config/hypr/hyprland.conf").
  reflexivity.
Defined.

(** ** apply-patch, continued *)

(** X5. A patch text without code fence whose lines are all kept by the
    filler filter passes the cleanup unchanged, up to the surrounding white
    space. *)
Theorem sanitizePatch_keeps_clean_patch (patch : string) :
  GoStrings.Contains patch "```" = false →
  Forall (λ line, isFiller line = false) (GoStrings.Split patch "010"%char) →
  sanitizePatch patch = GoStrings.TrimSpace patch.
Proof.
  intros Hfence Hlines. unfold sanitizePatch. rewrite Hfence.
  assert (filter (λ line, isFiller line = false) (GoStrings.Split patch "010"%char)
          = GoStrings.Split patch "010"%char) as ->.
  { induction Hlines as [|line lines Hline _ IH]; [done|].
    by rewrite filter_cons_True, IH. }
  change nl with (String "010"%char ""). by rewrite StringFacts.Join_Split.
Qed.

Lemma sanitizePatch_keeps_clean_patch_witness :
  sanitizePatch Scenario.hunk = GoStrings.TrimSpace Scenario.hunk.
Proof.
  apply (sanitizePatch_keeps_clean_patch Scenario.hunk).
  - vm_compute. reflexivity.
  - let lines := eval vm_compute in (GoStrings.Split Scenario.hunk "010"%char) in
    change (GoStrings.Split Scenario.hunk "010"%char) with lines.
    repeat (apply Forall_cons; split; [vm_compute; reflexivity|]). apply Forall_nil_2.
Defined.

Section ApplyPatchFrame.

Variable Patch : Type.
Variable PatchFromText : string → result (list Patch).
Variable PatchApply : list Patch → string → string * list bool.

(** X4. Whatever its outcome, apply-patch changes no existing file or
    directory other than the target and the copies its snapshot writes, and
    leaves the working directory and the environment alone. *)
Theorem apply_patch_changes_only_target_and_copies
        (t : ApplyPatchTool) (w w' : OS.World) (a : ApplyPatchArgs) (r : result string)
        (q : string) :
  ApplyPatchTool_Execute Patch PatchFromText PatchApply t w a = (w', r) →
  is_Some (OS.fs w !! q) →
  (∀ targetPath, targetOf t a = Ok targetPath → q ≠ OS.abspath w targetPath) →
  (∀ s sources, apSnapshot t = Some s → ListSources (apBackend t) = Ok sources →
                q ∉ snapshotTargets s w sources) →
  sameProcess w w' ∧ OS.fs w' !! q = OS.fs w !! q.
Proof.
  intros Hrun Hq Htarget Hcopies.
  assert (Hsame : w' = w → sameProcess w w' ∧ OS.fs w' !! q = OS.fs w !! q).
  { intros ->. split; [apply SnapshotFacts.sameProcess_refl|done]. }
  unfold ApplyPatchTool_Execute in Hrun.
  destruct (negb _); [apply Hsame; congruence|].
  destruct (targetOf t a) as [targetPath|e] eqn:Ht; [|apply Hsame; congruence].
  specialize (Htarget _ eq_refl).
  destruct (IsPathAllowed _ _ _ _) as [[] [reason|]]; try (apply Hsame; congruence).
  destruct (OS.ReadFile w targetPath) as [orig|e]; [|apply Hsame; congruence].
  assert (Hwrite : ∀ w0, sameProcess w w0 → OS.fs w0 !! q = OS.fs w !! q →
            applyAndWrite Patch PatchFromText PatchApply w0 targetPath orig
              (sanitizePatch (apPatch a)) = (w', r) →
            sameProcess w w' ∧ OS.fs w' !! q = OS.fs w !! q).
  { intros w0 Hp Hf Hrun0.
    destruct (applyAndWrite_cases Patch PatchFromText PatchApply w0 targetPath orig
                (sanitizePatch (apPatch a)))
      as [[msg Hc]|(patches & newContent & results & w2 & _ & _ & _ & Hw & Hc)];
      rewrite Hc in Hrun0; injection Hrun0 as <- <-; [done|].
    apply SnapshotFacts.WriteFile_Ok in Hw as ->. split.
    - eapply SnapshotFacts.sameProcess_trans; [exact Hp|apply SnapshotFacts.sameProcess_setFs].
    - cbn [OS.fs OS.setFs]. rewrite lookup_insert_ne; [done|].
      by rewrite (SnapshotFacts.abspath_sameProcess _ _ _ Hp). }
  unfold snapshotThenApply in Hrun.
  destruct (ListSources (apBackend t)) as [sources|e] eqn:Hsrc;
    [destruct (apSnapshot t) as [s|] eqn:Hsnap|].
  2,3: by apply (Hwrite w); [apply SnapshotFacts.sameProcess_refl| |].
  destruct (Safety.CreateSnapshot s w sources) as [w1 r1] eqn:Hcs.
  destruct (SnapshotFacts.CreateSnapshot_frame _ _ _ _ _ q Hcs) as [Hp Hf];
    [done|by eapply Hcopies|].
  destruct r1 as [id|e]; [by apply (Hwrite w1)|].
  by injection Hrun as <- <-.
Qed.

End ApplyPatchFrame.

Lemma apply_patch_changes_only_target_and_copies_witness :
  sameProcess Scenario.snapshotWorld
    (ApplyPatchTool_Execute _ Scenario.toyFromText Scenario.toyApply
       (Scenario.patchTool (Some Scenario.backups)) Scenario.snapshotWorld
       Scenario.patchArgs).1 ∧
  OS.fs (ApplyPatchTool_Execute _ Scenario.toyFromText Scenario.toyApply
           (Scenario.patchTool (Some Scenario.backups)) Scenario.snapshotWorld
           Scenario.patchArgs).1
    !! "/home/user/.local/share/hyprAgent/backups/20260101-110000/hyprland.conf"
  = OS.fs Scenario.snapshotWorld
    !! "/home/user/.local/share/hyprAgent/backups/20260101-110000/hyprland.conf".
Proof.
  eapply (apply_patch_changes_only_target_and_copies _ Scenario.toyFromText Scenario.toyApply
            (Scenario.patchTool (Some Scenario.backups)) Scenario.snapshotWorld).
  - apply surjective_pairing.
  - vm_compute. eauto.
  - intros targetPath [= <-]. vm_compute. discriminate.
  - intros s sources [= <-] [= <-]. vm_compute.
    intros H. apply elem_of_cons in H as [H|H]; [discriminate|]. by apply not_elem_of_nil in H.
Defined.

(** ** The snapshot service *)

Module CopyFacts.

Import SnapshotFacts.

Lemma MkdirAll_ReadFile w path w1 name data :
  OS.MkdirAll w path = Ok w1 → OS.ReadFile w1 name = Ok data → OS.ReadFile w name = Ok data.
Proof.
  unfold OS.MkdirAll. destruct (path =? "")%string; [discriminate|].
  destruct (OS.mkdirs _ _) as [f|e] eqn:Hm; [|discriminate].
  intros [= <-] H. apply ReadFile_File, lookupPath_File in H as (H1 & H2 & H3).
  change (OS.abspath (OS.setFs w f) name) with (OS.abspath w name) in *.
  cbn [OS.fs OS.setFs] in H3.
  apply ReadFile_File, lookupPath_File. repeat split; [done|done|by eapply mkdirs_File].
Qed.

Lemma MkdirAll_sameProcess w path w1 : OS.MkdirAll w path = Ok w1 → sameProcess w w1.
Proof.
  unfold OS.MkdirAll. destruct (path =? "")%string; [discriminate|].
  destruct (OS.mkdirs _ _); [|discriminate]. intros [= <-]. apply sameProcess_setFs.
Qed.

(** The copy of a source holds its bytes when no later source is copied
    to the same place and no earlier copy overwrote the source. *)
Lemma snapshotFiles_copy (dir src : string) (post pre : list string) : ∀ w w',
  Safety.snapshotFiles w dir (pre ++ src :: post) = (w', None) →
  let dst := Filepath.Join [dir; Filepath.Base src] in
  (∀ f, f ∈ post → OS.abspath w (Filepath.Join [dir; Filepath.Base f]) ≠ OS.abspath w dst) →
  (∀ f, f ∈ pre → OS.abspath w (Filepath.Join [dir; Filepath.Base f]) ≠ OS.abspath w src) →
  OS.abspath w src ≠ OS.abspath w dst →
  sameProcess w w' ∧ ∃ data, OS.ReadFile w src = Ok data ∧ OS.ReadFile w' dst = Ok data.
Proof.
  induction pre as [|f0 pre IH]; intros w w' H dst Hpost Hpre Hne;
    cbn [app Safety.snapshotFiles] in H.
  - fold dst in H.
    destruct (Safety.copyFile w src dst) as [w1 [e|]] eqn:Hc; [discriminate|].
    destruct (copyFile_Ok _ _ _ _ Hc) as (Hp1 & _ & data & Hd1 & Hd2).
    destruct (snapshotFiles_frame _ _ _ _ _ (OS.abspath w dst) H) as [Hp2 Hf2].
    { intros f Hf. rewrite (abspath_sameProcess _ _ _ Hp1). by apply Hpost. }
    split; [by eapply sameProcess_trans|].
    exists data. split; [by apply Hd2|].
    rewrite <- Hd1. apply ReadFile_frame; [done|].
    by rewrite (abspath_sameProcess _ _ _ Hp1).
  - destruct (Safety.copyFile w f0 _) as [w1 [e|]] eqn:Hc; [discriminate|].
    destruct (copyFile_Ok _ _ _ _ Hc) as (Hp1 & Hf1 & _).
    destruct (IH w1 w' H) as (Hp2 & data & Hd1 & Hd2).
    { intros f Hf. rewrite !(abspath_sameProcess _ _ _ Hp1). by apply Hpost. }
    { intros f Hf. rewrite !(abspath_sameProcess _ _ _ Hp1).
      apply Hpre. by apply list_elem_of_further. }
    { by rewrite !(abspath_sameProcess _ _ _ Hp1). }
    split; [by eapply sameProcess_trans|].
    exists data. split; [|done].
    rewrite <- Hd1. symmetry. apply ReadFile_frame; [done|].
    apply Hf1. intros Heq. eapply Hpre; [apply list_elem_of_here|by symmetry].
Qed.

Lemma CreateSnapshot_copy (s : Safety.SnapshotService) (w w' : OS.World)
      (pre post : list string) (src id : string) :
  let dstOf f := OS.abspath w (Filepath.Join [Filepath.Join [Safety.BackupDir s; OS.clock w];
                                             Filepath.Base f]) in
  Safety.CreateSnapshot s w (pre ++ src :: post) = (w', Ok id) →
  (∀ f, f ∈ post → dstOf f ≠ dstOf src) →
  (∀ f, f ∈ pre → dstOf f ≠ OS.abspath w src) →
  OS.abspath w src ≠ dstOf src →
  id = OS.clock w ∧ sameProcess w w' ∧
  ∃ data, OS.ReadFile w src = Ok data ∧
          OS.ReadFile w' (Filepath.Join [Filepath.Join [Safety.BackupDir s; id];
                                         Filepath.Base src]) = Ok data.
Proof.
  intros dstOf. unfold Safety.CreateSnapshot.
  destruct (OS.MkdirAll w _) as [wm|e] eqn:Hm; [|discriminate].
  destruct (Safety.snapshotFiles wm _ _) as [w2 [e|]] eqn:Hs; [discriminate|].
  intros [= <- <-] Hpost Hpre Hne.
  pose proof (MkdirAll_sameProcess _ _ _ Hm) as Hpm.
  destruct (snapshotFiles_copy _ _ _ _ _ _ Hs) as (Hp & data & Hd1 & Hd2).
  { intros f Hf. rewrite !(abspath_sameProcess _ _ _ Hpm). by apply Hpost. }
  { intros f Hf. rewrite !(abspath_sameProcess _ _ _ Hpm). by apply Hpre. }
  { by rewrite !(abspath_sameProcess _ _ _ Hpm). }
  split; [done|]. split; [by eapply sameProcess_trans|].
  exists data. split; [by eapply MkdirAll_ReadFile|done].
Qed.

End CopyFacts.

(** X6. After a successful snapshot, the copy named after a source holds
    the bytes of that source, provided no later source is copied to the
    same place and no earlier copy overwrote the source: of several
    sources with the same base name the last one wins. *)
Theorem CreateSnapshot_copy_holds_last_source
        (s : Safety.SnapshotService) (w w' : OS.World)
        (pre post : list string) (src id : string) :
  let dstOf f := OS.abspath w (Filepath.Join [Filepath.Join [Safety.BackupDir s; OS.clock w];
                                             Filepath.Base f]) in
  Safety.CreateSnapshot s w (pre ++ src :: post) = (w', Ok id) →
  (∀ f, f ∈ post → dstOf f ≠ dstOf src) →
  (∀ f, f ∈ pre → dstOf f ≠ OS.abspath w src) →
  OS.abspath w src ≠ dstOf src →
  id = OS.clock w ∧
  ∃ data, OS.ReadFile w src = Ok data ∧
          OS.ReadFile w' (Filepath.Join [Filepath.Join [Safety.BackupDir s; id];
                                         Filepath.Base src]) = Ok data.
Proof.
  intros dstOf H Hpost Hpre Hne.
  destruct (CopyFacts.CreateSnapshot_copy s w w' pre post src id H Hpost Hpre Hne)
    as (Hid & _ & Hdata).
  by split.
Qed.

Lemma CreateSnapshot_copy_holds_last_source_witness :
  "20260101-120000" = OS.clock Scenario.snapshotWorld ∧
  ∃ data,
    OS.ReadFile Scenario.snapshotWorld "/home/user/.config/hypr/hyprland.conf" = Ok data ∧
    OS.ReadFile
      (Safety.CreateSnapshot Scenario.backups Scenario.snapshotWorld
         (["/home/user/.local/share/hyprAgent/backups/20260101-110000/hyprland.conf"] ++
          "/home/user/.config/hypr/hyprland.conf" :: [])).1
      (Filepath.Join [Filepath.Join [Safety.BackupDir Scenario.backups; "20260101-120000"];
                      Filepath.Base "/home/user/.config/hypr/hyprland.conf"]) = Ok data.
Proof.
  apply (CreateSnapshot_copy_holds_last_source Scenario.backups Scenario.snapshotWorld _
           ["/home/user/.local/share/hyprAgent/backups/20260101-110000/hyprland.conf"] []
           "/home/user/.config/hypr/hyprland.conf" "20260101-120000").
  - apply pair_with_snd. vm_compute. reflexivity.
  - intros f Hf. by apply elem_of_nil in Hf.
  - intros f Hf. apply list_elem_of_singleton in Hf as ->. vm_compute. discriminate.
  - vm_compute. discriminate.
Defined.

(** X7. A snapshot, successful or not, leaves every file that is not one
    of its destinations readable with the same bytes. *)
Theorem CreateSnapshot_keeps_other_files (s : Safety.SnapshotService) (w : OS.World)
        (files : list string) (name data : string) :
  OS.ReadFile w name = Ok data →
  OS.abspath w name ∉ snapshotTargets s w files →
  OS.ReadFile (Safety.CreateSnapshot s w files).1 name = Ok data.
Proof.
  intros Hread Hnot.
  destruct (Safety.CreateSnapshot s w files) as [w' r] eqn:Hcs. cbn [fst].
  destruct (SnapshotFacts.CreateSnapshot_frame _ _ _ _ _ (OS.abspath w name) Hcs)
    as [Hp Hf]; [by eapply SnapshotFacts.ReadFile_is_Some|done|].
  by rewrite (SnapshotFacts.ReadFile_frame _ _ _ Hp Hf).
Qed.

Lemma CreateSnapshot_keeps_other_files_witness :
  OS.ReadFile
    (Safety.CreateSnapshot Scenario.backups Scenario.snapshotWorld
       ["/home/user/.config/hypr/hyprland.conf"]).1
    "/home/user/.local/share/hyprAgent/backups/20260101-110000/hyprland.conf"
  = Ok ("a=0" +:+ nl).
Proof.
  apply (CreateSnapshot_keeps_other_files Scenario.backups Scenario.snapshotWorld).
  - reflexivity.
  - vm_compute. intros H. apply list_elem_of_singleton in H. discriminate.
Defined.

(** X8. Snapshot, then restore: when the sources are distinct files
    with distinct copies, none of them a copy itself, and the copies are
    left alone in between, a successful [Restore] of the snapshot gives
    every source the bytes it had when the snapshot was taken. *)
Theorem snapshot_then_Restore_roundtrip
        (s : Safety.SnapshotService) (w w1 w2 w3 : OS.World) (files : list string)
        (id : string) :
  Safety.CreateSnapshot s w files = (w1, Ok id) →
  NoDup (OS.abspath w <$> files) →
  NoDup (snapshotTargets s w files) →
  (∀ f, f ∈ files → OS.abspath w f ∉ snapshotTargets s w files) →
  sameProcess w1 w2 →
  (∀ d, d ∈ snapshotTargets s w files → OS.fs w2 !! d = OS.fs w1 !! d) →
  Safety.Restore s w2 id files = (w3, None) →
  ∀ f, f ∈ files → OS.ReadFile w3 f = OS.ReadFile w f.
Proof.
  intros Hcs Hnd Hndd Halias Hp12 Hkept Hres f Hf.
  set (dstOf := λ f, OS.abspath w (Filepath.Join
         [Filepath.Join [Safety.BackupDir s; OS.clock w]; Filepath.Base f])).
  assert (Hin : ∀ g, g ∈ files → dstOf g ∈ snapshotTargets s w files).
  { intros g Hg. unfold snapshotTargets. apply list_elem_of_fmap. by exists g. }
  destruct (list_elem_of_split _ _ Hf) as (pre & post & Hfiles).
  assert (Hdistinct : (∀ g, g ∈ post → dstOf g ≠ dstOf f) ∧ (∀ g, g ∈ pre → dstOf g ≠ dstOf f)).
  { unfold snapshotTargets in Hndd. fold dstOf in Hndd. rewrite Hfiles in Hndd.
    rewrite fmap_app, fmap_cons in Hndd.
    apply NoDup_app in Hndd as (_ & Hpre & Hrest).
    apply NoDup_cons in Hrest as [Hpost _]. split.
    - intros g Hg Heq. apply Hpost. rewrite <- Heq. apply list_elem_of_fmap. by exists g.
    - intros g Hg Heq. apply (Hpre (dstOf g)); [apply list_elem_of_fmap; by exists g|].
      rewrite Heq. apply list_elem_of_here. }
  destruct Hdistinct as [Hpost Hpre].
  rewrite Hfiles in Hcs.
  destruct (CopyFacts.CreateSnapshot_copy s w w1 pre post f id Hcs) as (-> & Hp01 & data & Hd0 & Hd1).
  { done. }
  { intros g Hg Heq. apply (Halias f Hf). fold dstOf. rewrite <- Heq. apply Hin.
    rewrite Hfiles. apply elem_of_app. by left. }
  { intros Heq. apply (Halias f Hf). rewrite Heq. by apply Hin. }
  assert (Hp02 : sameProcess w w2) by (by eapply SnapshotFacts.sameProcess_trans).
  set (dir := Filepath.Join [Safety.BackupDir s; OS.clock w]) in *.
  assert (Hd2 : OS.ReadFile w2 (Filepath.Join [dir; Filepath.Base f]) = Ok data).
  { rewrite <- Hd1. apply SnapshotFacts.ReadFile_frame; [done|].
    rewrite (SnapshotFacts.abspath_sameProcess _ _ _ Hp01). apply Hkept. by apply Hin. }
  unfold Safety.Restore in Hres. fold dir in Hres.
  destruct (OS.IsNotExist w2 dir); [discriminate|].
  pose proof (SnapshotFacts.restoreFiles_copies_back dir files w2 w3 Hres) as Hback.
  specialize (Hback ltac:(erewrite list_fmap_ext; [exact Hnd|];
                            intros; by apply SnapshotFacts.abspath_sameProcess)).
  specialize (Hback ltac:(intros t t' Ht Ht'; rewrite !(SnapshotFacts.abspath_sameProcess _ _ _ Hp02);
                            intros Heq; apply (Halias t Ht); rewrite <- Heq; by apply Hin)).
  specialize (Hback f Hf).
  assert (OS.Stat w2 (Filepath.Join [dir; Filepath.Base f]) = true) as Hstat.
  { unfold OS.Stat. apply SnapshotFacts.ReadFile_File in Hd2. by rewrite Hd2. }
  rewrite Hstat in Hback. destruct Hback as (data' & Hr & Hw3). congruence.
Qed.

Lemma snapshot_then_Restore_roundtrip_witness :
  OS.ReadFile
    (Safety.Restore Scenario.backups
       (OS.setFs Scenario.nativeWorld
          (<["/home/user/.config/hypr/hyprland.conf" := OS.File "broken"]>
             (OS.fs (Safety.CreateSnapshot Scenario.backups Scenario.nativeWorld
                       ["/home/user/.config/hypr/hyprland.conf"]).1)))
       "20260101-120000" ["/home/user/.config/hypr/hyprland.conf"]).1
    "/home/user/.config/hypr/hyprland.conf"
  = OS.ReadFile Scenario.nativeWorld "/home/user/.config/hypr/hyprland.conf".
Proof.
  eapply (snapshot_then_Restore_roundtrip Scenario.backups Scenario.nativeWorld
            (Safety.CreateSnapshot Scenario.backups Scenario.nativeWorld
               ["/home/user/.config/hypr/hyprland.conf"]).1
            (OS.setFs Scenario.nativeWorld
               (<["/home/user/.config/hypr/hyprland.conf" := OS.File "broken"]>
                  (OS.fs (Safety.CreateSnapshot Scenario.backups Scenario.nativeWorld
                            ["/home/user/.config/hypr/hyprland.conf"]).1)))
            _ ["/home/user/.config/hypr/hyprland.conf"] "20260101-120000").
  - apply pair_with_snd. vm_compute. reflexivity.
  - vm_compute. apply NoDup_singleton.
  - vm_compute. apply NoDup_singleton.
  - intros f Hf. apply list_elem_of_singleton in Hf as ->. vm_compute.
    intros H. apply list_elem_of_singleton in H. discriminate.
  - by repeat split.
  - intros d Hd. vm_compute in Hd. apply list_elem_of_singleton in Hd as ->.
    cbn [OS.fs OS.setFs]. by rewrite lookup_insert_ne.
  - apply pair_with_snd. vm_compute. reflexivity.
  - apply list_elem_of_here.
Defined.

(** X11. Targets without a copy in the snapshot are skipped silently:
    when the snapshot exists and holds none of them, [Restore] succeeds and
    changes nothing. *)
Theorem Restore_skips_targets_without_copy (s : Safety.SnapshotService) (w : OS.World)
        (id : string) (targets : list string) :
  OS.Stat w (Filepath.Join [Safety.BackupDir s; id]) = true →
  (∀ t, t ∈ targets →
        OS.Stat w (Filepath.Join [Filepath.Join [Safety.BackupDir s; id]; Filepath.Base t])
        = false) →
  Safety.Restore s w id targets = (w, None).
Proof.
  intros Hdir Hnone. unfold Safety.Restore. rewrite (Stat_IsNotExist _ _ Hdir).
  induction targets as [|t targets IH]; [done|].
  cbn [Safety.restoreFiles]. rewrite (Hnone t) by apply list_elem_of_here.
  apply IH. intros t' Ht'. apply Hnone. by apply list_elem_of_further.
Qed.

Lemma Restore_skips_targets_without_copy_witness :
  Safety.Restore Scenario.backups Scenario.snapshotWorld "20260101-110000"
    ["/home/user/.config/hypr/monitors.conf"]
  = (Scenario.snapshotWorld, None).
Proof.
  apply (Restore_skips_targets_without_copy Scenario.backups Scenario.snapshotWorld).
  - reflexivity.
  - intros t Ht. apply list_elem_of_singleton in Ht as ->. reflexivity.
Defined.

Lemma Restore_copies_back_witness :
  if OS.Stat Scenario.snapshotWorld
       (Filepath.Join [Filepath.Join [Safety.BackupDir Scenario.backups; "20260101-110000"];
                       Filepath.Base "/home/user/.config/hypr/hyprland.conf"])
  then ∃ data,
      OS.ReadFile Scenario.snapshotWorld
        (Filepath.Join [Filepath.Join [Safety.BackupDir Scenario.backups; "20260101-110000"];
                        Filepath.Base "/home/user/.config/hypr/hyprland.conf"]) = Ok data ∧
      OS.ReadFile
        (Safety.Restore Scenario.backups Scenario.snapshotWorld "20260101-110000"
           ["/home/user/.config/hypr/hyprland.conf"; "/home/user/.config/hypr/monitors.conf"]).1
        "/home/user/.config/hypr/hyprland.conf" = Ok data
  else OS.ReadFile
         (Safety.Restore Scenario.backups Scenario.snapshotWorld "20260101-110000"
            ["/home/user/.config/hypr/hyprland.conf"; "/home/user/.config/hypr/monitors.conf"]).1
         "/home/user/.config/hypr/hyprland.conf"
       = OS.ReadFile Scenario.snapshotWorld "/home/user/.config/hypr/hyprland.conf".
Proof.
  apply (Restore_copies_back Scenario.backups Scenario.snapshotWorld _ "20260101-110000"
           ["/home/user/.config/hypr/hyprland.conf"; "/home/user/.config/hypr/monitors.conf"]).
  - apply pair_with_snd. vm_compute. reflexivity.
  - vm_compute. apply NoDup_cons. split; [|apply NoDup_singleton].
    intros H. apply list_elem_of_singleton in H. discriminate.
  - intros t t' Ht Ht'.
    apply elem_of_cons in Ht as [->|Ht]; [|apply list_elem_of_singleton in Ht as ->];
      (apply elem_of_cons in Ht' as [->|Ht']; [|apply list_elem_of_singleton in Ht' as ->]);
      vm_compute; discriminate.
  - apply list_elem_of_here.
Defined.

(** *** Undoing a patch *)

Module DirFacts.

Import SnapshotFacts.

Lemma substring_all (s : string) : ∀ n, String.length s ≤ n → String.substring 0 n s = s.
Proof.
  induction s as [|c s IH]; intros n Hn; [by destruct n|].
  destruct n as [|n]; [cbn in Hn; lia|]. cbn. f_equal. apply IH. cbn in Hn. lia.
Qed.

Lemma mkdirs_made (ds : list string) : ∀ f f' d,
  OS.mkdirs f ds = Ok f' → d ∈ ds → f' !! d = Some OS.Dir.
Proof.
  induction ds as [|d0 ds IH]; intros f f' d H Hin; [by apply elem_of_nil in Hin|].
  cbn [OS.mkdirs] in H.
  destruct (f !! d0) as [[data|]|] eqn:Hd0; [discriminate| |].
  - apply elem_of_cons in Hin as [->|Hin]; [|by eapply IH].
    rewrite (mkdirs_keeps _ _ _ d0 H) by (by rewrite Hd0). done.
  - apply elem_of_cons in Hin as [->|Hin]; [|by eapply IH].
    rewrite (mkdirs_keeps _ _ _ d0 H) by (by rewrite lookup_insert_eq).
    apply lookup_insert_eq.
Qed.

Lemma ancestorsFrom_full (rest : list string) : ∀ prefix e,
  prefix +:+ "/" +:+ GoStrings.Join (e :: rest) "/" ∈ OS.ancestorsFrom prefix (e :: rest).
Proof.
  induction rest as [|e' rest IH]; intros prefix e; cbn [OS.ancestorsFrom].
  - apply list_elem_of_here.
  - apply list_elem_of_further. rewrite PathFacts.Join_cons2.
    replace (prefix +:+ "/" +:+ e +:+ String "/"%char (GoStrings.Join (e' :: rest) "/"))
      with ((prefix +:+ "/" +:+ e) +:+ "/" +:+ GoStrings.Join (e' :: rest) "/");
      [apply IH|].
    by rewrite StringFacts.app_assoc.
Qed.

Lemma abspath_rooted (w : OS.World) (path : string) :
  Filepath.IsAbs (OS.cwd w) = true →
  ∃ E, Forall plain E ∧ OS.abspath w path = "/" +:+ GoStrings.Join E "/".
Proof.
  intros Hcwd. unfold OS.abspath. destruct (Filepath.IsAbs path) eqn:Hp.
  - exists (rootedElems path). split; [apply PathFacts.rootedElems_plain|].
    by apply PathFacts.Clean_rooted.
  - rewrite PathFacts.Join2 by done. eexists.
    split; [apply PathFacts.rootedElems_plain|].
    apply PathFacts.Clean_rooted. by apply PathFacts.IsAbs_app.
Qed.

Lemma ancestors_self (E : list string) :
  E ≠ [] → Forall plain E →
  "/" +:+ GoStrings.Join E "/" ∈ OS.ancestors ("/" +:+ GoStrings.Join E "/").
Proof.
  intros Hne HE. unfold OS.ancestors.
  change (String.length ("/" +:+ ?s)) with (S (String.length s)).
  change (String.substring 1 (S ?n) ("/" +:+ ?s)) with (String.substring 0 (S n) s).
  rewrite substring_all by lia.
  assert (Filepath.relElems (GoStrings.Join E "/") = E) as ->.
  { unfold Filepath.relElems.
    rewrite PathFacts.Split_Join by (done || by apply PathFacts.plain_noSlash).
    destruct (String.eqb_spec (List.last E "") "") as [Heq|_]; [|done].
    by apply GateFacts.last_plain in Heq. }
  destruct E as [|e rest]; [done|]. apply (ancestorsFrom_full rest "" e).
Qed.

(** After [MkdirAll] the directory is there. *)
Lemma MkdirAll_isDir (w w1 : OS.World) (path : string) :
  Filepath.IsAbs (OS.cwd w) = true →
  OS.MkdirAll w path = Ok w1 → OS.lookupPath w1 path = Some OS.Dir.
Proof.
  intros Hcwd. unfold OS.MkdirAll, OS.lookupPath.
  destruct (path =? "")%string; [discriminate|].
  destruct (OS.mkdirs _ _) as [f|e] eqn:Hm; [|discriminate]. intros [= <-].
  change (OS.abspath (OS.setFs w f) path) with (OS.abspath w path).
  destruct (_ =? "/")%string eqn:Hroot; [done|]. cbn [OS.fs OS.setFs].
  eapply mkdirs_made; [exact Hm|].
  destruct (abspath_rooted w path Hcwd) as (E & HE & Hq). rewrite Hq in *.
  destruct E as [|e E]; [done|]. by apply ancestors_self.
Qed.

(** A successful write leaves every directory a directory. *)
Lemma WriteFile_keeps_dir (w w' : OS.World) (name data d : string) :
  OS.WriteFile w name data = Ok w' →
  OS.lookupPath w d = Some OS.Dir → OS.lookupPath w' d = Some OS.Dir.
Proof.
  intros Hw Hd. pose proof (WriteFile_Ok _ _ _ _ Hw) as ->.
  unfold OS.lookupPath in *.
  change (OS.abspath (OS.setFs w ?f) d) with (OS.abspath w d).
  destruct (d =? "")%string; [done|].
  destruct (OS.abspath w d =? "/")%string eqn:Hroot; [done|].
  cbn [OS.fs OS.setFs]. rewrite lookup_insert_ne; [done|].
  intros Heq. unfold OS.WriteFile, OS.lookupPath in Hw.
  destruct (String.eqb_spec name "") as [->|Hname];
    [destruct (OS.isDir _ _); cbn in Hw; discriminate|].
  rewrite Heq, Hroot, Hd in Hw. discriminate.
Qed.

Lemma copyFile_keeps_dir (w w' : OS.World) (src dst d : string) :
  Safety.copyFile w src dst = (w', None) →
  OS.lookupPath w d = Some OS.Dir → OS.lookupPath w' d = Some OS.Dir.
Proof.
  unfold Safety.copyFile.
  destruct (OS.lookupPath w src); [|discriminate].
  destruct (OS.WriteFile w dst "") as [wa|e] eqn:Hw; [|discriminate].
  destruct (OS.lookupPath wa src) as [[data|]|]; try discriminate.
  intros [= <-] Hd.
  pose proof (WriteFile_keeps_dir _ _ _ _ _ Hw Hd) as Hda.
  pose proof (WriteFile_Ok _ _ _ _ Hw) as ->.
  unfold OS.lookupPath in *. cbn [OS.fs OS.setFs] in *.
  change (OS.abspath (OS.setFs ?x ?f) ?n) with (OS.abspath x n) in *.
  change (OS.abspath (OS.setFs ?x ?f) ?n) with (OS.abspath x n) in *.
  destruct (d =? "")%string; [done|].
  destruct (OS.abspath w d =? "/")%string; [done|].
  destruct (decide (OS.abspath w dst = OS.abspath w d)) as [Heq|Hne].
  - rewrite Heq, lookup_insert_eq in Hda. discriminate.
  - rewrite !lookup_insert_ne by done. by rewrite lookup_insert_ne in Hda.
Qed.

Lemma snapshotFiles_keeps_dir (dir d : string) (files : list string) : ∀ w w',
  Safety.snapshotFiles w dir files = (w', None) →
  OS.lookupPath w d = Some OS.Dir → OS.lookupPath w' d = Some OS.Dir.
Proof.
  induction files as [|src files IH]; intros w w' H Hd; cbn [Safety.snapshotFiles] in H.
  - by injection H as <-.
  - destruct (Safety.copyFile w src _) as [w1 [e|]] eqn:Hc; [discriminate|].
    eapply IH; [exact H|]. by eapply copyFile_keeps_dir.
Qed.

Lemma CreateSnapshot_dir_exists (s : Safety.SnapshotService) (w w1 : OS.World)
      (files : list string) (id : string) :
  Filepath.IsAbs (OS.cwd w) = true →
  Safety.CreateSnapshot s w files = (w1, Ok id) →
  OS.lookupPath w1 (Filepath.Join [Safety.BackupDir s; id]) = Some OS.Dir.
Proof.
  intros Hcwd. unfold Safety.CreateSnapshot.
  destruct (OS.MkdirAll w _) as [wm|e] eqn:Hm; [|discriminate].
  destruct (Safety.snapshotFiles wm _ _) as [w2 [e|]] eqn:Hs; [discriminate|].
  intros [= <- <-]. eapply snapshotFiles_keeps_dir; [exact Hs|].
  by eapply MkdirAll_isDir.
Qed.

(** Copying a file over an existing file whose directory exists
    succeeds. *)
Lemma copyFile_over (w : OS.World) (src dst data old : string) :
  OS.ReadFile w src = Ok data →
  OS.ReadFile w dst = Ok old →
  OS.isDir w (Filepath.Dir (OS.abspath w dst)) = true →
  OS.abspath w src ≠ OS.abspath w dst →
  ∃ w', Safety.copyFile w src dst = (w', None) ∧ OS.ReadFile w' dst = Ok data.
Proof.
  intros Hsrc Hdst Hdir Hne.
  apply ReadFile_File in Hsrc. apply ReadFile_File in Hdst.
  pose proof Hdst as Hdst'. apply lookupPath_File in Hdst' as (Hd1 & Hd2 & Hd3).
  unfold Safety.copyFile. rewrite Hsrc.
  assert (Hw : OS.WriteFile w dst ""
               = Ok (OS.setFs w (<[OS.abspath w dst := OS.File ""]> (OS.fs w)))).
  { unfold OS.WriteFile. rewrite Hdst, Hdir.
    by destruct (String.eqb_spec dst "") as [E|_]. }
  rewrite Hw.
  assert (OS.lookupPath (OS.setFs w (<[OS.abspath w dst := OS.File ""]> (OS.fs w))) src
          = Some (OS.File data)) as ->.
  { apply lookupPath_File in Hsrc as (Hs1 & Hs2 & Hs3). apply lookupPath_File.
    change (OS.abspath (OS.setFs ?x ?f) ?n) with (OS.abspath x n).
    cbn [OS.fs OS.setFs]. by rewrite lookup_insert_ne. }
  eexists. split; [reflexivity|].
  apply ReadFile_File, lookupPath_File.
  change (OS.abspath (OS.setFs ?x ?f) ?n) with (OS.abspath x n).
  change (OS.abspath (OS.setFs ?x ?f) ?n) with (OS.abspath x n).
  cbn [OS.fs OS.setFs]. by rewrite lookup_insert_eq.
Qed.

Lemma WriteFile_isDir (w w' : OS.World) (name data : string) :
  OS.WriteFile w name data = Ok w' →
  OS.isDir w (Filepath.Dir (OS.abspath w name)) = true.
Proof.
  unfold OS.WriteFile.
  destruct (OS.lookupPath w name) as [[d|]|]; try discriminate;
    destruct (OS.isDir _ _); try done; by rewrite andb_false_r.
Qed.

End DirFacts.

Section Undo.

Variable Patch : Type.
Variable PatchFromText : string → result (list Patch).
Variable PatchApply : list Patch → string → string * list bool.

(** X9. A successful apply-patch on the backend's own source, made with
    a snapshot service, can be undone: [Restore] of the snapshot taken
    (its id is the time stamp) succeeds and gives the source its bytes from
    before the patch. *)
Theorem Restore_undoes_apply_patch (t : ApplyPatchTool) (w w' : OS.World)
        (a : ApplyPatchArgs) (s : Safety.SnapshotService) (out : string) :
  let src := ConfigPath (apBackend t) in
  let dst := Filepath.Join [Filepath.Join [Safety.BackupDir s; OS.clock w];
                            Filepath.Base src] in
  apSnapshot t = Some s →
  apPath a = "" →
  Filepath.IsAbs (OS.cwd w) = true →
  OS.abspath w src ≠ OS.abspath w dst →
  ApplyPatchTool_Execute Patch PatchFromText PatchApply t w a = (w', Ok out) →
  ∃ w'', Safety.Restore s w' (OS.clock w) [src] = (w'', None) ∧
         OS.ReadFile w'' src = OS.ReadFile w src.
Proof.
  intros src dst Hsnap Hpath Hcwd Hne Hrun.
  destruct (apply_patch_success _ _ _ _ _ _ _ _ Hrun)
    as (targetPath & orig & patches & newContent & results & w1 &
        Htarget & Hread & _ & _ & _ & Hwrite & Hcs).
  unfold targetOf in Htarget. rewrite Hpath in Htarget. cbn [String.eqb] in Htarget.
  destruct (ListSources (apBackend t)) as [sources|e] eqn:Hsrc; [|discriminate].
  destruct (SnapshotFacts.ListSources_single _ _ Hsrc) as [_ ->].
  injection Htarget as <-. fold src in Hread, Hwrite, Hcs.
  rewrite Hsnap in Hcs. destruct Hcs as [id Hcs].
  pose proof (DirFacts.CreateSnapshot_dir_exists _ _ _ _ _ Hcwd Hcs) as Hdir.
  destruct (SnapshotFacts.CreateSnapshot_single _ _ _ _ _ Hcs)
    as (-> & Hp1 & data & Hcopy & Hsame).
  fold src dst in Hcopy, Hsame.
  specialize (Hsame Hne). rewrite Hread in Hsame. injection Hsame as <-.
  pose proof (DirFacts.WriteFile_keeps_dir _ _ _ _ _ Hwrite Hdir) as Hdir'.
  pose proof (DirFacts.WriteFile_isDir _ _ _ _ Hwrite) as Hparent.
  pose proof (SnapshotFacts.WriteFile_ReadFile _ _ _ _ Hwrite) as Hnew.
  pose proof (SnapshotFacts.WriteFile_Ok _ _ _ _ Hwrite) as Hw'.
  assert (Hp' : sameProcess w1 w') by (rewrite Hw'; apply SnapshotFacts.sameProcess_setFs).
  assert (Hne1 : OS.abspath w1 src ≠ OS.abspath w1 dst)
    by (by rewrite !(SnapshotFacts.abspath_sameProcess _ _ _ Hp1)).
  assert (Hcopy' : OS.ReadFile w' dst = Ok orig).
  { rewrite <- Hcopy. apply SnapshotFacts.ReadFile_frame; [done|].
    rewrite Hw'. cbn [OS.fs OS.setFs]. by rewrite lookup_insert_ne. }
  assert (Hparent' : OS.isDir w' (Filepath.Dir (OS.abspath w' src)) = true).
  { rewrite (SnapshotFacts.abspath_sameProcess _ _ _ Hp').
    unfold OS.isDir in *.
    destruct (OS.lookupPath w1 (Filepath.Dir (OS.abspath w1 src))) as [[d|]|] eqn:Hl;
      try discriminate.
    by rewrite (DirFacts.WriteFile_keeps_dir _ _ _ _ _ Hwrite Hl). }
  destruct (DirFacts.copyFile_over w' dst src orig newContent Hcopy' Hnew Hparent')
    as (w'' & Hc & Hback).
  { rewrite !(SnapshotFacts.abspath_sameProcess _ _ _ Hp'). by intros Heq; apply Hne1. }
  exists w''. split; [|by rewrite Hread].
  unfold Safety.Restore. cbn [Safety.restoreFiles].
  rewrite Stat_IsNotExist by (unfold OS.Stat; by rewrite Hdir').
  unfold OS.Stat. fold src. fold dst.
  apply SnapshotFacts.ReadFile_File in Hcopy'. rewrite Hcopy'.
  by rewrite Hc.
Qed.

End Undo.

Lemma Restore_undoes_apply_patch_witness :
  ∃ w'',
    Safety.Restore Scenario.backups
      (ApplyPatchTool_Execute _ Scenario.toyFromText Scenario.toyApply
         (Scenario.patchTool (Some Scenario.backups)) Scenario.snapshotWorld
         Scenario.patchArgs).1
      (OS.clock Scenario.snapshotWorld)
      [ConfigPath (apBackend (Scenario.patchTool (Some Scenario.backups)))]
    = (w'', None) ∧
    OS.ReadFile w'' (ConfigPath (apBackend (Scenario.patchTool (Some Scenario.backups))))
    = OS.ReadFile Scenario.snapshotWorld
        (ConfigPath (apBackend (Scenario.patchTool (Some Scenario.backups)))).
Proof.
  eapply (Restore_undoes_apply_patch _ Scenario.toyFromText Scenario.toyApply
            (Scenario.patchTool (Some Scenario.backups)) Scenario.snapshotWorld _
            Scenario.patchArgs Scenario.backups).
  - reflexivity.
  - reflexivity.
  - reflexivity.
  - vm_compute. discriminate.
  - apply pair_with_snd. vm_compute. reflexivity.
Defined.

(** ** The parser and [Save] *)

Module LineFacts.

Lemma Split_sepFree (s : string) (sep : ascii) : Forall (sepFree sep) (GoStrings.Split s sep).
Proof.
  induction s as [|c s IH]; cbn [GoStrings.Split]; [by repeat constructor|].
  destruct (Ascii.eqb c sep) eqn:Hc; [by constructor|].
  destruct (GoStrings.Split s sep) as [|h t] eqn:Hs;
    [by apply StringFacts.Split_not_nil in Hs|].
  apply Forall_cons in IH as [Hh Ht]. constructor; [|done].
  unfold sepFree in *. cbn [GoStrings.Split]. by rewrite Hc, Hh.
Qed.

Lemma Split_Join_sep (sep : ascii) (l : list string) :
  l ≠ [] → Forall (sepFree sep) l →
  GoStrings.Split (GoStrings.Join l (String sep "")) sep = l.
Proof.
  unfold GoStrings.Join.
  induction l as [|x l IH]; [done|]. intros _ Hl.
  apply Forall_cons in Hl as [Hx Hl].
  destruct l as [|y l]; [exact Hx|].
  change (String.concat (String sep "") (x :: y :: l))
    with (x +:+ String sep "" +:+ String.concat (String sep "") (y :: l)).
  change (String sep "" +:+ ?s) with (String sep s).
  rewrite StringFacts.Split_app_sep, Hx, IH by done. done.
Qed.

Lemma Contains_sepFree (sep : ascii) (s : string) :
  GoStrings.Contains s (String sep "") = false → sepFree sep s.
Proof.
  unfold sepFree. induction s as [|c s IH]; [done|].
  cbn [GoStrings.Contains String.prefix GoStrings.Split].
  destruct (Ascii.ascii_dec sep c) as [->|Hne].
  - by rewrite PathFacts.prefix_nil.
  - cbn [orb]. intros H. rewrite (IH H).
    destruct (Ascii.eqb_spec c sep) as [->|_]; done.
Qed.

Lemma serialize_Raw (ls : list ConfigLine) :
  String_ {| Lines := ls |} = serialize (Raw <$> ls).
Proof.
  unfold String_. cbn [Lines]. induction ls as [|l ls IH]; [done|].
  cbn [fold_right fmap list_fmap serialize]. by rewrite IH.
Qed.

Lemma newlineElems_serialize (rs : list string) :
  Forall (sepFree "010"%char) rs → newlineElems (serialize rs) = rs.
Proof.
  intros Hrs. unfold newlineElems.
  destruct rs as [|r rs]; [reflexivity|].
  rewrite serialize_all by done.
  assert (GoStrings.Split (GoStrings.Join (r :: rs) nl +:+ nl) "010"%char
          = (r :: rs) ++ [""]) as ->.
  { change (GoStrings.Join (r :: rs) nl +:+ nl)
      with (GoStrings.Join (r :: rs) (String "010"%char "") +:+ String "010"%char "").
    by rewrite StringFacts.Split_app_sep, Split_Join_sep. }
  rewrite last_last, String.eqb_refl. apply removelast_last.
Qed.

(** The last piece is empty only for the empty string and for a string
    that ends in the separator. *)
Lemma Split_last_empty (sep : ascii) (s : string) :
  List.last (GoStrings.Split s sep) "" = "" →
  s = "" ∨ ∃ body, s = body +:+ String sep "".
Proof.
  induction s as [|c s IH]; [by left|]. cbn [GoStrings.Split]. intros Hl. right.
  pose proof (StringFacts.Split_not_nil s sep) as Hnil.
  destruct (Ascii.eqb_spec c sep) as [->|Hne].
  - destruct (GoStrings.Split s sep) as [|h t] eqn:Hs; [done|].
    change (List.last ("" :: h :: t) "") with (List.last (h :: t) "") in Hl.
    destruct (IH Hl) as [->|[body ->]]; [by exists ""|].
    by exists (String sep body).
  - destruct (GoStrings.Split s sep) as [|h t] eqn:Hs; [done|].
    destruct t as [|h' t]; [discriminate|].
    change (List.last (String c h :: h' :: t) "") with (List.last (h :: h' :: t) "") in Hl.
    destruct (IH Hl) as [->|[body ->]]; [discriminate|].
    by exists (String c body).
Qed.

Lemma SplitN2_Contains (sep : ascii) (s : string) :
  GoStrings.Contains s (String sep "") = true →
  ∃ k v, GoStrings.SplitN2 s sep = [k; v] ∧ s = k +:+ String sep v ∧
         GoStrings.Contains k (String sep "") = false.
Proof.
  induction s as [|c s IH]; [discriminate|].
  cbn [GoStrings.Contains String.prefix GoStrings.SplitN2].
  destruct (Ascii.eqb_spec c sep) as [->|Hne].
  - intros _. by exists "", s.
  - destruct (Ascii.ascii_dec sep c) as [->|_]; [done|]. cbn [orb].
    intros H. destruct (IH H) as (k & v & -> & -> & Hk).
    exists (String c k), v. repeat split.
    cbn [GoStrings.Contains String.prefix].
    destruct (Ascii.ascii_dec sep c) as [->|_]; done.
Qed.

Lemma LineNum_classify (n : Z) (raw : string) : LineNum (classify n raw) = n.
Proof. unfold classify. repeat case_match; reflexivity. Qed.

Lemma scanLines_Ok (data : string) :
  (∀ l, l ∈ newlineElems data → (Z.of_nat (String.length l) < MaxScanTokenSize)%Z) →
  scanLines data = Ok (dropCR <$> newlineElems data).
Proof.
  intros H. unfold scanLines.
  destruct (existsb _ _) eqn:Hlong; [|done].
  apply existsb_exists in Hlong as [l [Hin Hlen]].
  apply list_elem_of_In, H in Hin. apply Z.leb_le in Hlen. lia.
Qed.

Lemma scanLines_Err (data : string) (ls : list string) :
  scanLines data = Ok ls →
  ∀ l, l ∈ newlineElems data → (Z.of_nat (String.length l) < MaxScanTokenSize)%Z.
Proof.
  unfold scanLines. destruct (existsb _ _) eqn:Hlong; [discriminate|].
  intros _ l Hl. destruct (Z.ltb_spec (Z.of_nat (String.length l)) MaxScanTokenSize); [done|].
  assert (existsb (λ l, (MaxScanTokenSize <=? Z.of_nat (String.length l))%Z)
                  (newlineElems data) = true); [|congruence].
  apply existsb_exists. exists l. split; [by apply list_elem_of_In|by apply Z.leb_le].
Qed.

End LineFacts.

(** X12. [Parse] succeeds exactly when the configuration path is set,
    the file can be read and every line is shorter than 65536 bytes. *)
Theorem Parse_succeeds_iff (b : Backend) (w : OS.World) :
  (∃ ir, Parse b w = Ok ir) ↔
  ConfigPath b ≠ "" ∧
  ∃ data, OS.ReadFile w (ConfigPath b) = Ok data ∧
          ∀ l, l ∈ newlineElems data →
               (Z.of_nat (String.length l) < MaxScanTokenSize)%Z.
Proof.
  unfold Parse, parseText. split.
  - intros [ir H]. destruct (String.eqb_spec (ConfigPath b) ""); [discriminate|].
    split; [done|]. destruct (OS.ReadFile w _) as [data|]; [|discriminate].
    exists data. split; [done|].
    destruct (scanLines data) as [ls|] eqn:Hs; [|discriminate].
    by eapply LineFacts.scanLines_Err.
  - intros (Hpath & data & Hread & Hshort).
    apply String.eqb_neq in Hpath. rewrite Hpath, Hread.
    rewrite LineFacts.scanLines_Ok by done. by eexists.
Qed.

(** X13. The lines of a parsed file are numbered from 1 without gap, one
    per line of the file, and each keeps the text of its line without the
    carriage return before the newline. *)
Theorem Parse_numbers_lines (b : Backend) (w : OS.World) (ir : IR) :
  Parse b w = Ok ir →
  ∃ data, OS.ReadFile w (ConfigPath b) = Ok data ∧
          length (Lines ir) = length (newlineElems data) ∧
          ∀ i line, Lines ir !! i = Some line →
                    LineNum line = (Z.of_nat i + 1)%Z ∧
                    ∃ l, newlineElems data !! i = Some l ∧ Raw line = dropCR l.
Proof.
  unfold Parse, parseText, scanLines.
  destruct (_ =? _)%string; [discriminate|].
  destruct (OS.ReadFile w _) as [data|]; [|discriminate].
  destruct (existsb _ _); [discriminate|]. intros [= <-]. cbn [Lines].
  exists data. split; [done|]. split; [by rewrite length_imap, length_fmap|].
  intros i line. rewrite list_lookup_imap, list_lookup_fmap.
  destruct (newlineElems data !! i) as [l|]; [|discriminate]. cbn.
  intros [= <-]. rewrite LineFacts.LineNum_classify, Raw_classify. eauto.
Qed.

Lemma Parse_numbers_lines_witness :
  ∃ data, OS.ReadFile Scenario.nativeWorld (ConfigPath Scenario.detectedNative) = Ok data ∧
          length (Lines {| Lines := [classify 1 "a=1"] |}) = length (newlineElems data) ∧
          ∀ i line, Lines {| Lines := [classify 1 "a=1"] |} !! i = Some line →
                    LineNum line = (Z.of_nat i + 1)%Z ∧
                    ∃ l, newlineElems data !! i = Some l ∧ Raw line = dropCR l.
Proof.
  apply (Parse_numbers_lines Scenario.detectedNative Scenario.nativeWorld).
  vm_compute. reflexivity.
Defined.

(** X14. A file that does not end with a newline comes back from [Parse]
    and [String] with exactly one newline added. *)
Theorem Parse_String_appends_missing_newline (b : Backend) (w : OS.World) (data : string) :
  ConfigPath b ≠ "" →
  OS.ReadFile w (ConfigPath b) = Ok data →
  data ≠ "" →
  (∀ body, data ≠ body +:+ nl) →
  (∀ l, l ∈ newlineElems data →
        GoStrings.HasSuffix l (String "013"%char "") = false ∧
        (Z.of_nat (String.length l) < MaxScanTokenSize)%Z) →
  ∃ ir, Parse b w = Ok ir ∧ String_ ir = data +:+ nl.
Proof.
  intros Hpath Hread Hne Hterm Hlines. unfold Parse, parseText.
  apply String.eqb_neq in Hpath. rewrite Hpath, Hread.
  rewrite LineFacts.scanLines_Ok by (intros l Hl; apply (Hlines l Hl)).
  eexists. split; [reflexivity|].
  rewrite (String_classified _ (λ i, (Z.of_nat i + 1)%Z)).
  rewrite dropCR_id by (intros l Hl; apply (Hlines l Hl)).
  rewrite serialize_newlineElems.
  destruct (String.eqb_spec (List.last (GoStrings.Split data "010"%char) "") "") as [E|_];
    [|done].
  apply LineFacts.Split_last_empty in E as [->|[body ->]]; [done|].
  by destruct (Hterm body).
Qed.

Lemma Parse_String_appends_missing_newline_witness :
  ∃ ir, Parse Scenario.detectedNative Services.unterminatedWorld = Ok ir ∧
        String_ ir = "a=1" +:+ nl.
Proof.
  apply (Parse_String_appends_missing_newline Scenario.detectedNative
           Services.unterminatedWorld "a=1").
  - discriminate.
  - reflexivity.
  - discriminate.
  - intros body. destruct body as [|c1 [|c2 [|c3 [|c4 body]]]]; discriminate.
  - intros l Hl. vm_compute in Hl. apply list_elem_of_singleton in Hl as ->.
    split; [reflexivity|]. vm_compute. reflexivity.
Defined.

(** X15. A line classified as key and value splits at its first equals
    sign: the trimmed line is the part before it, the sign and the part
    after it, and key and value are these two parts, trimmed.  The index
    [parts[1]] is therefore always in range. *)
Theorem classify_key_value_parts (n : Z) (raw : string) :
  Type_ (classify n raw) = LineTypeKeyValue →
  ∃ k v, GoStrings.TrimSpace raw = k +:+ "=" +:+ v ∧
         GoStrings.Contains k "=" = false ∧
         Key (classify n raw) = GoStrings.TrimSpace k ∧
         Value (classify n raw) = GoStrings.TrimSpace v.
Proof.
  unfold classify. set (trimmed := GoStrings.TrimSpace raw).
  destruct (trimmed =? "")%string; [discriminate|].
  destruct (GoStrings.HasPrefix trimmed "#"); [discriminate|].
  destruct (GoStrings.HasPrefix trimmed "$"); [by repeat case_match|].
  destruct (GoStrings.HasSuffix trimmed "{"); [discriminate|].
  destruct (trimmed =? "}")%string; [discriminate|].
  destruct (GoStrings.Contains trimmed "=") eqn:Hc; [|discriminate].
  destruct (LineFacts.SplitN2_Contains "="%char trimmed Hc) as (k & v & -> & Heq & Hk).
  intros _. exists k, v. by repeat split.
Qed.

Lemma classify_key_value_parts_witness :
  ∃ k v, GoStrings.TrimSpace "  gaps_in = 5 " = k +:+ "=" +:+ v ∧
         GoStrings.Contains k "=" = false ∧
         Key (classify 1 "  gaps_in = 5 ") = GoStrings.TrimSpace k ∧
         Value (classify 1 "  gaps_in = 5 ") = GoStrings.TrimSpace v.
Proof.
  apply (classify_key_value_parts 1 "  gaps_in = 5 "). reflexivity.
Defined.

(** X16. [Save], then [Parse]: for lines whose raw text has no newline,
    no final carriage return and fewer than 65536 bytes, parsing the saved
    file gives the same raw lines, renumbered from 1 and classified
    afresh. *)
Theorem Save_then_Parse (b : Backend) (w w' : OS.World) (ir : IR) :
  Save b w ir = (w', None) →
  (∀ line, line ∈ Lines ir →
     GoStrings.Contains (Raw line) nl = false ∧
     GoStrings.HasSuffix (Raw line) (String "013"%char "") = false ∧
     (Z.of_nat (String.length (Raw line)) < MaxScanTokenSize)%Z) →
  Parse b w' =
  Ok {| Lines := imap (λ i line, classify (Z.of_nat i + 1) (Raw line)) (Lines ir) |}.
Proof.
  unfold Save, Parse. destruct (_ =? _)%string; [discriminate|].
  destruct (OS.WriteFile w _ _) as [w1|e] eqn:Hw; [|discriminate].
  intros [= <-] Hlines. rewrite (SnapshotFacts.WriteFile_ReadFile _ _ _ _ Hw).
  destruct ir as [ls]. cbn [Lines] in *. rewrite LineFacts.serialize_Raw.
  assert (Hel : newlineElems (serialize (Raw <$> ls)) = Raw <$> ls).
  { apply LineFacts.newlineElems_serialize. apply Forall_fmap, Forall_forall.
    intros line Hl. apply LineFacts.Contains_sepFree. by apply Hlines. }
  unfold parseText. rewrite LineFacts.scanLines_Ok; rewrite Hel.
  - rewrite dropCR_id.
    + by rewrite imap_fmap.
    + intros l Hl. apply list_elem_of_fmap in Hl as (line & -> & Hl). by apply Hlines.
  - intros l Hl. apply list_elem_of_fmap in Hl as (line & -> & Hl). by apply Hlines.
Qed.

Lemma Save_then_Parse_witness :
  Parse Scenario.detectedNative
    (Save Scenario.detectedNative Scenario.nativeWorld
       {| Lines := [classify 7 "$mod = SUPER"; classify 9 "bind = $mod, Q, killactive"] |}).1
  = Ok {| Lines := imap (λ i line, classify (Z.of_nat i + 1) (Raw line))
                     [classify 7 "$mod = SUPER"; classify 9 "bind = $mod, Q, killactive"] |}.
Proof.
  apply (Save_then_Parse Scenario.detectedNative Scenario.nativeWorld _
           {| Lines := [classify 7 "$mod = SUPER"; classify 9 "bind = $mod, Q, killactive"] |}).
  - apply pair_with_snd. vm_compute. reflexivity.
  - intros line Hl. cbn [Lines] in Hl.
    apply elem_of_cons in Hl as [->|Hl]; [|apply list_elem_of_singleton in Hl as ->];
      (split; [reflexivity|split; [reflexivity|vm_compute; reflexivity]]).
Defined.

Section BackendApplyPatch.

Variable Patch : Type.
Variable PatchFromText : string → result (list Patch).
Variable PatchApply : list Patch → string → string * list bool.
Variable writeFault : OS.World → string → string → option (nat * string).

(** A file that was created holds afterwards what the write stored: all
    the bytes, or the first ones when the write failed. *)
Lemma Create_WriteString (w w1 : OS.World) (name data : string)
      (fault : option (nat * string)) :
  OS.Create w name = Ok w1 →
  OS.ReadFile (OS.WriteString fault w1 name data).1 name
  = Ok match fault with
       | None => data
       | Some (n, _) => String.substring 0 n data
       end.
Proof.
  intros Hc. unfold OS.Create in Hc.
  pose proof (SnapshotFacts.WriteFile_Ok _ _ _ _ Hc) as Hw1.
  assert (Hany : ∀ d, OS.WriteFile w name d
                      = Ok (OS.setFs w (<[OS.abspath w name := OS.File d]> (OS.fs w)))).
  { intros d. unfold OS.WriteFile in Hc |- *.
    destruct (OS.lookupPath w name) as [[d0|]|]; try discriminate;
      by destruct (_ && _). }
  assert (Hstored : ∀ d, OS.setFs w1 (<[OS.abspath w1 name := OS.File d]> (OS.fs w1))
                         = OS.setFs w (<[OS.abspath w name := OS.File d]> (OS.fs w))).
  { intros d. rewrite Hw1.
    change (OS.abspath (OS.setFs w ?f) name) with (OS.abspath w name).
    unfold OS.setFs. cbn [OS.env OS.cwd OS.clock OS.fs]. by rewrite insert_insert_eq. }
  unfold OS.WriteString. destruct fault as [[n e]|]; cbn [fst]; rewrite Hstored.
  - by apply (SnapshotFacts.WriteFile_ReadFile w).
  - by apply (SnapshotFacts.WriteFile_ReadFile w).
Qed.

(** X17. The backend's own [ApplyPatch] writes only after every hunk
    applied.  A failing hunk ends the call with an error and the file tree
    as it was.  When the call returns no error, every hunk applied and the
    target holds the patched text.  When it returns an error, the file
    tree is as it was, or every hunk applied, the target was created
    (truncated) and the error is the one of the write, which left in the
    target the bytes it had stored. *)
Theorem Backend_ApplyPatch_all_or_nothing (b : Backend) (w : OS.World)
        (path patchText : string) :
  let run := ApplyPatch Patch PatchFromText PatchApply writeFault b w path patchText in
  let targetPath := if (path =? "")%string then ConfigPath b else path in
  (∀ text patches newText results,
     OS.ReadFile w targetPath = Ok text →
     PatchFromText patchText = Ok patches →
     PatchApply patches text = (newText, results) →
     false ∈ results →
     run = (w, Some "some patches failed to apply")) ∧
  match run.2 with
  | None =>
      ∃ text patches newText results,
        OS.ReadFile w targetPath = Ok text ∧
        PatchFromText patchText = Ok patches ∧
        PatchApply patches text = (newText, results) ∧
        (false ∉ results) ∧
        OS.ReadFile run.1 targetPath = Ok newText
  | Some e =>
      run.1 = w ∨
      ∃ text patches newText results w1 n,
        OS.ReadFile w targetPath = Ok text ∧
        PatchFromText patchText = Ok patches ∧
        PatchApply patches text = (newText, results) ∧
        (false ∉ results) ∧
        OS.Create w targetPath = Ok w1 ∧
        writeFault w1 targetPath newText = Some (n, e) ∧
        OS.ReadFile run.1 targetPath = Ok (String.substring 0 n newText)
  end.
Proof.
  cbv zeta. unfold ApplyPatch.
  assert (Hempty : ∀ text, OS.ReadFile w "" ≠ Ok text) by (intros text; discriminate).
  destruct (String.eqb_spec path "") as [->|Hpath];
    [destruct (String.eqb_spec (ConfigPath b) "") as [Hc|Hc]|].
  { rewrite Hc. split; [intros text ? ? ? Hr; by destruct (Hempty text)|by left]. }
  all: match goal with |- context [OS.ReadFile ?w0 ?p = Ok _ ∧ _] =>
         destruct (OS.ReadFile w0 p) as [text|] eqn:Hread;
           [|split; [discriminate|by left]] end.
  all: destruct (PatchFromText patchText) as [patches|] eqn:Hparse;
         [|split; [discriminate|by left]].
  all: destruct (PatchApply patches text) as [newText results] eqn:Happly.
  all: assert (Hflags : existsb negb results = true ↔ false ∈ results)
         by (rewrite existsb_exists, list_elem_of_In; split;
             [intros ([] & Hin & Hb); [discriminate|done]|intros Hin; by exists false]).
  all: destruct (existsb negb results) eqn:Hex;
         [split; [done|by left]|].
  all: assert (Hnot : false ∉ results)
         by (intros Hin; apply Hflags in Hin; discriminate).
  all: split;
         [intros text' patches' newText' results' [= <-] [= <-] Ha Hin;
          rewrite Happly in Ha; injection Ha as <- <-; done|].
  all: match goal with |- context [OS.Create ?w0 ?p] =>
         destruct (OS.Create w0 p) as [w1|] eqn:Hcreate; [|by left];
         pose proof (Create_WriteString w0 w1 p newText
                       (writeFault w1 p newText) Hcreate) as Hstored end.
  all: match goal with |- context [writeFault ?w0 ?p ?d] =>
         destruct (writeFault w0 p d) as [[n e]|] eqn:Hfault end.
  all: cbn [OS.WriteString fst snd] in Hstored |- *.
  all: try (right; exists text, patches, newText, results, w1, n; by repeat split).
  all: exists text, patches, newText, results; by repeat split.
Qed.

End BackendApplyPatch.

Lemma Backend_ApplyPatch_all_or_nothing_witness :
  ApplyPatch _ Scenario.toyFromText Scenario.toyApply (λ _ _ _, None)
    Scenario.detectedNative Scenario.patchedWorld "" (GoStrings.TrimSpace Scenario.hunk)
  = (Scenario.patchedWorld, Some "some patches failed to apply").
Proof.
  apply (proj1 (Backend_ApplyPatch_all_or_nothing _ Scenario.toyFromText Scenario.toyApply
                  (λ _ _ _, None) Scenario.detectedNative Scenario.patchedWorld ""
                  (GoStrings.TrimSpace Scenario.hunk))
           ("a=2" +:+ nl) [("a=1" +:+ nl, "a=2" +:+ nl)] ("a=2" +:+ nl) [false]).
  - reflexivity.
  - vm_compute. reflexivity.
  - vm_compute. reflexivity.
  - apply list_elem_of_here.
Defined.

(** A write that fails after two bytes: the call returns the error of the
    write and the configuration file holds those two bytes. *)
Example Backend_ApplyPatch_failing_write :
  let run := ApplyPatch _ Scenario.toyFromText Scenario.toyApply
               (λ _ _ _, Some (2, "write: no space left on device"))
               Scenario.detectedNative Scenario.nativeWorld ""
               (GoStrings.TrimSpace Scenario.hunk) in
  run.2 = Some "write: no space left on device" ∧
  OS.ReadFile run.1 "/home/user/.config/hypr/hyprland.conf" = Ok "a=".
Proof. vm_compute. split; reflexivity. Qed.

(** ** Detection, continued *)

Module DetectFacts.

Lemma cleanStep_nonempty (rooted : bool) (kept : list string) (e : string) :
  Forall (λ x, x ≠ "") kept → Forall (λ x, x ≠ "") (Filepath.cleanStep rooted kept e).
Proof.
  intros Hk. unfold Filepath.cleanStep.
  destruct (String.eqb_spec e "") as [->|Hne]; [done|]. cbn [orb].
  destruct (e =? ".")%string; [done|].
  destruct (String.eqb_spec e "..") as [->|_].
  - destruct kept as [|top rest]; [destruct rooted; by repeat constructor|].
    destruct (top =? "..")%string; [by constructor|].
    by apply Forall_cons in Hk as [_ ?].
  - by constructor.
Qed.

Lemma fold_cleanStep_nonempty (rooted : bool) (elems : list string) : ∀ kept,
  Forall (λ x, x ≠ "") kept →
  Forall (λ x, x ≠ "") (fold_left (Filepath.cleanStep rooted) elems kept).
Proof.
  induction elems as [|e elems IH]; intros kept Hk; [done|].
  cbn [fold_left]. by apply IH, cleanStep_nonempty.
Qed.

Lemma Clean_nonempty (p : string) : Filepath.Clean p ≠ "".
Proof.
  unfold Filepath.Clean. destruct (Filepath.IsAbs p); [discriminate|].
  pose proof (fold_cleanStep_nonempty false (GoStrings.Split p Filepath.Separator) []
                (Forall_nil_2 _)) as H.
  apply Forall_rev in H. fold (Filepath.cleanElems false (GoStrings.Split p Filepath.Separator)) in H.
  destruct (Filepath.cleanElems _ _) as [|e l]; [discriminate|].
  apply Forall_cons in H as [He _].
  destruct l as [|y l]; [exact He|]. rewrite PathFacts.Join_cons2.
  destruct e; [done|discriminate].
Qed.

Lemma Join_file_nonempty (root name : string) :
  name ≠ "" → Filepath.Join [root; name] ≠ "".
Proof.
  intros Hn. cbn [Filepath.Join].
  destruct (root =? "")%string; [|apply Clean_nonempty].
  apply String.eqb_neq in Hn. rewrite Hn. apply Clean_nonempty.
Qed.

Lemma ListSources_withConfigPath (b : Backend) (p : string) :
  p ≠ "" → ListSources (withConfigPath b p) = Ok [p].
Proof.
  intros Hp. unfold ListSources. cbn [ConfigPath withConfigPath].
  apply String.eqb_neq in Hp. by rewrite Hp.
Qed.

(** What [Detect] leaves in the backend. *)
Lemma Detect_cases (b b' : Backend) (w : OS.World) (rootPath : string) (r : result bool) :
  Detect b w rootPath = (b', r) →
  match r with
  | Ok true =>
      ∃ root, rootOrDefault w rootPath = Ok root ∧
              b' = withConfigPath b (Filepath.Join [root; "hyprland.conf"]) ∧
              (kind b ≠ KHyDE →
               OS.Stat w (Filepath.Join [root; "hyprland.conf"]) = true)
  | _ => b' = b
  end.
Proof.
  unfold Detect, DetectNative, DetectHyDE, DetectOmarchy.
  destruct (kind b) eqn:Hk; destruct (rootOrDefault w rootPath) as [root|e] eqn:Hroot;
    try (by intros [= <- <-]).
  - destruct (OS.Stat w _) eqn:Hs; intros [= <- <-]; [by exists root|done].
  - destruct (negb _); [intros [= <- <-]; by exists root|].
    destruct (OS.Stat w _); [intros [= <- <-]; by exists root|].
    destruct (_ || _); intros [= <- <-]; [by exists root|done].
  - destruct (OS.IsNotExist w _); [by intros [= <- <-]|].
    destruct (OS.Stat w (Filepath.Join [root; "hyprland.conf"])) eqn:Hs;
      intros [= <- <-]; [by exists root|done].
Qed.

Lemma Detect_found (b b' : Backend) (w : OS.World) (rootPath : string) :
  Detect b w rootPath = (b', Ok true) →
  TypeOf b' = TypeOf b ∧ ListSources b' = Ok [ConfigPath b'].
Proof.
  intros H. destruct (Detect_cases _ _ _ _ _ H) as (root & _ & -> & _).
  split; [done|]. cbn [ConfigPath withConfigPath].
  by apply ListSources_withConfigPath, Join_file_nonempty.
Qed.

End DetectFacts.

(** X18. A [Detect] that finds its variant records the main file of the
    root in the backend, which then lists exactly this file as its source;
    for the native and the Omarchy variant the file exists.  A [Detect]
    that finds nothing, or fails, leaves the backend as it was. *)
Theorem Detect_records_source_when_found (b b' : Backend) (w : OS.World)
        (rootPath : string) (r : result bool) :
  Detect b w rootPath = (b', r) →
  match r with
  | Ok true =>
      ∃ root, rootOrDefault w rootPath = Ok root ∧
              b' = withConfigPath b (Filepath.Join [root; "hyprland.conf"]) ∧
              ListSources b' = Ok [Filepath.Join [root; "hyprland.conf"]] ∧
              (kind b ≠ KHyDE →
               OS.Stat w (Filepath.Join [root; "hyprland.conf"]) = true)
  | _ => b' = b
  end.
Proof.
  intros H. pose proof (DetectFacts.Detect_cases _ _ _ _ _ H) as Hc.
  destruct r as [[]|]; try done.
  destruct Hc as (root & Hroot & -> & Hstat). exists root. repeat split; [done| |done].
  by apply DetectFacts.ListSources_withConfigPath, DetectFacts.Join_file_nonempty.
Qed.

Lemma Detect_records_source_when_found_witness :
  ∃ root, rootOrDefault Scenario.nativeWorld "" = Ok root ∧
          (Detect Main.nativeBackend Scenario.nativeWorld "").1
          = withConfigPath Main.nativeBackend (Filepath.Join [root; "hyprland.conf"]) ∧
          ListSources (Detect Main.nativeBackend Scenario.nativeWorld "").1
          = Ok [Filepath.Join [root; "hyprland.conf"]] ∧
          (kind Main.nativeBackend ≠ KHyDE →
           OS.Stat Scenario.nativeWorld (Filepath.Join [root; "hyprland.conf"]) = true).
Proof.
  apply (Detect_records_source_when_found Main.nativeBackend _ Scenario.nativeWorld ""
           (Ok true)).
  vm_compute. reflexivity.
Defined.

(** X19. Wherever the Omarchy variant is detected the native one is
    detected too, with the same main file. *)
Theorem Detect_omarchy_implies_native (w : OS.World) (rootPath : string)
        (omarchy omarchy' native : Backend) :
  kind omarchy = KOmarchy →
  kind native = KNative →
  Detect omarchy w rootPath = (omarchy', Ok true) →
  Detect native w rootPath = (withConfigPath native (ConfigPath omarchy'), Ok true).
Proof.
  intros Ho Hn. unfold Detect. rewrite Ho, Hn. unfold DetectOmarchy, DetectNative.
  destruct (rootOrDefault w rootPath) as [root|]; [|discriminate].
  destruct (OS.IsNotExist w _); [discriminate|].
  destruct (OS.Stat w _); [|discriminate]. by intros [= <-].
Qed.

Lemma Detect_omarchy_implies_native_witness :
  Detect Main.nativeBackend Scenario.omarchyWorld ""
  = (withConfigPath Main.nativeBackend
       (ConfigPath (Detect Main.omarchyBackend Scenario.omarchyWorld "").1), Ok true).
Proof.
  apply (Detect_omarchy_implies_native Scenario.omarchyWorld "" Main.omarchyBackend).
  - reflexivity.
  - reflexivity.
  - vm_compute. reflexivity.
Defined.

(** X20. For every list of backends, the detection tool reports the first
    backend that detects, with its type and its one source, and the loop of
    [main] picks the same backend as the active one. *)
Theorem detectLoop_reports_first_detecting (fmtQ : list string → string) (w : OS.World)
        (pre post : list Backend) (b b' dflt : Backend) :
  Forall (λ x, (Detect x w "").2 ≠ Ok true) pre →
  Detect b w "" = (b', Ok true) →
  (detectLoop fmtQ w (pre ++ b :: post)).2
  = "{" +:+ dq +:+ "type" +:+ dq +:+ ": " +:+ dq +:+ TypeOf b +:+ dq +:+
    ", " +:+ dq +:+ "sources" +:+ dq +:+ ": " +:+ fmtQ [ConfigPath b'] +:+ "}" ∧
  Main.detectActive w (pre ++ b :: post) dflt = b'.
Proof.
  intros Hpre Hb. destruct (DetectFacts.Detect_found _ _ _ _ Hb) as [Hty Hsrc].
  induction pre as [|x pre IH]; cbn [app detectLoop Main.detectActive].
  - by rewrite Hb, Hsrc, Hty.
  - apply Forall_cons in Hpre as [Hx Hpre]. specialize (IH Hpre).
    destruct (Detect x w "") as [x' [[]|e]]; [done| |];
      destruct (detectLoop fmtQ w (pre ++ b :: post)); exact IH.
Qed.

Lemma detectLoop_reports_first_detecting_witness :
  (detectLoop (λ _, "[]") Scenario.nativeWorld ([Main.hydeBackend] ++ Main.nativeBackend ::
                                                 [Main.omarchyBackend])).2
  = "{" +:+ dq +:+ "type" +:+ dq +:+ ": " +:+ dq +:+ TypeOf Main.nativeBackend +:+ dq +:+
    ", " +:+ dq +:+ "sources" +:+ dq +:+ ": " +:+
    (λ _, "[]") [ConfigPath (Detect Main.nativeBackend Scenario.nativeWorld "").1] +:+ "}" ∧
  Main.detectActive Scenario.nativeWorld
    ([Main.hydeBackend] ++ Main.nativeBackend :: [Main.omarchyBackend]) Main.nativeBackend
  = (Detect Main.nativeBackend Scenario.nativeWorld "").1.
Proof.
  apply (detectLoop_reports_first_detecting (λ _, "[]") Scenario.nativeWorld
           [Main.hydeBackend] [Main.omarchyBackend] Main.nativeBackend).
  - apply Forall_cons. split; [vm_compute; discriminate|apply Forall_nil_2].
  - vm_compute. reflexivity.
Defined.

(** X21. When no backend detects, the tool reports the unknown type and
    leaves the backends as they were, and [main] keeps its default. *)
Theorem detectLoop_unknown_when_none_detects (fmtQ : list string → string) (w : OS.World)
        (bs : list Backend) (dflt : Backend) :
  Forall (λ x, (Detect x w "").2 ≠ Ok true) bs →
  (detectLoop fmtQ w bs).2
  = "{" +:+ dq +:+ "type" +:+ dq +:+ ": " +:+ dq +:+ "unknown" +:+ dq +:+ "}" ∧
  (detectLoop fmtQ w bs).1 = bs ∧
  Main.detectActive w bs dflt = dflt.
Proof.
  induction bs as [|x bs IH]; intros H; [done|].
  apply Forall_cons in H as [Hx H]. specialize (IH H).
  cbn [detectLoop Main.detectActive].
  destruct (Detect x w "") as [x' r] eqn:Hd.
  pose proof (DetectFacts.Detect_cases _ _ _ _ _ Hd) as Hc.
  destruct r as [[]|e]; [done| |]; subst x';
    destruct (detectLoop fmtQ w bs) as [bs' out]; cbn [fst snd] in *;
    destruct IH as (-> & -> & ->); done.
Qed.

Lemma detectLoop_unknown_when_none_detects_witness :
  (detectLoop (λ _, "[]") Services.emptyWorld Main.backends).2
  = "{" +:+ dq +:+ "type" +:+ dq +:+ ": " +:+ dq +:+ "unknown" +:+ dq +:+ "}" ∧
  (detectLoop (λ _, "[]") Services.emptyWorld Main.backends).1 = Main.backends ∧
  Main.detectActive Services.emptyWorld Main.backends Main.nativeBackend
  = Main.nativeBackend.
Proof.
  apply (detectLoop_unknown_when_none_detects (λ _, "[]") Services.emptyWorld).
  repeat (apply Forall_cons; split; [vm_compute; discriminate|]). apply Forall_nil_2.
Defined.

(** ** The conversation loop, continued *)

Section LoopFacts.

Context {P W : Type}.
Variable sched : nat → nat → list nat.
Implicit Types (a : Agent P W).

Lemma system_sendUpdate a msg : system (sendUpdate a msg) = system a.
Proof. unfold sendUpdate. destruct (_ <? _)%nat; reflexivity. Qed.

Lemma foldl_runToolCall_keeps (calls : list ToolCall.t) (order : list nat) :
  ∀ st : Fanout (P:=P) (W:=W),
    let st' := foldl (λ st i, match calls !! i with
                              | Some tc => runToolCall i tc st
                              | None => st
                              end) st order in
    provider st'.1.1 = provider st.1.1 ∧ registry st'.1.1 = registry st.1.1 ∧
    history st'.1.1 = history st.1.1.
Proof.
  induction order as [|i order IH]; intros st; [done|].
  cbn [foldl]. cbv zeta in IH.
  destruct (IH (match calls !! i with
                | Some tc => runToolCall i tc st
                | None => st
                end)) as (-> & -> & ->).
  destruct (calls !! i) as [tc|]; [|done].
  destruct st as [[a0 w0] r0].
  by destruct (runToolCall_spec i tc a0 w0 r0) as (a' & w' & m & -> & Hp & Hr & Hh & _).
Qed.

(** The fan-out leaves provider, registry and history alone, whatever the
    completion order. *)
Lemma dispatch_keeps a w (calls : list ToolCall.t) (order : list nat) :
  provider (dispatch a w calls order).1.1 = provider a ∧
  registry (dispatch a w calls order).1.1 = registry a ∧
  history (dispatch a w calls order).1.1 = history a.
Proof.
  apply (foldl_runToolCall_keeps calls order (a, w, replicate (length calls) Message.zero)).
Qed.

Lemma turns_history (n : nat) : ∀ i a e,
  ∃ rest, history (turns sched n i a e).1.1 = history a ++ rest.
Proof.
  induction n as [|n IH]; intros i a e; cbn [turns].
  - exists []. cbn [fst]. by rewrite history_sendUpdate, app_nil_r.
  - rewrite provider_sendUpdate, registry_sendUpdate, history_sendUpdate.
    destruct (provider a _ _ _) as [p' [resp|err ctx]].
    + destruct (Message.ToolCalls resp) as [|tc calls] eqn:Hcalls.
      * exists [resp]. cbn [fst]. by rewrite !history_sendUpdate.
      * match goal with |- context [dispatch ?a0 ?w0 ?cs ?o] =>
          destruct (dispatch_keeps a0 w0 cs o) as (_ & _ & Hh);
          destruct (dispatch a0 w0 cs o) as [[a' w'] results] end.
        cbn [fst] in Hh. cbn [history withHistory] in Hh.
        rewrite ?history_sendUpdate in Hh.
        match goal with |- context [turns sched n ?j ?a0 ?e0] =>
          destruct (IH j a0 e0) as [rest Hrest] end.
        rewrite Hrest. cbn [history withHistory]. rewrite Hh.
        exists ([resp] ++ results ++ rest). by rewrite <- !List.app_assoc.
    + exists []. rewrite app_nil_r.
      destruct ctx; cbn [fst]; by rewrite !history_sendUpdate.
Qed.

Lemma turns_answer (n : nat) : ∀ i a e text,
  (turns sched n i a e).2 = Ok text →
  text = loopLimitText ∨
  ∃ resp, last (history (turns sched n i a e).1.1) = Some resp ∧
          Message.Content resp = text ∧ Message.ToolCalls resp = [].
Proof.
  induction n as [|n IH]; intros i a e text; cbn [turns].
  - intros [= <-]. by left.
  - rewrite provider_sendUpdate, registry_sendUpdate, history_sendUpdate.
    destruct (provider a _ _ _) as [p' [resp|err ctx]].
    + destruct (Message.ToolCalls resp) as [|tc calls] eqn:Hcalls.
      * cbn [fst snd]. intros [= <-]. right. exists resp.
        rewrite !history_sendUpdate. cbn [history withHistory].
        by rewrite last_snoc.
      * match goal with |- context [dispatch ?a0 ?w0 ?cs ?o] =>
          destruct (dispatch a0 w0 cs o) as [[a' w'] results] end.
        apply IH.
    + destruct ctx; discriminate.
Qed.

(** A provider that spends at most [k] per call spends at most [k] times
    the number of iterations in the loop. *)
Lemma turns_cost_bounded (cost : P → nat) (k n : nat) : ∀ i a e,
  (∀ p h d, cost (provider a p h d).1 ≤ cost p + k) →
  cost (turns sched n i a e).1.2.1 ≤ cost e.1 + k * n.
Proof.
  induction n as [|n IH]; intros i a e Hk; cbn [turns]; [cbn [fst snd]; lia|].
  rewrite provider_sendUpdate, registry_sendUpdate, history_sendUpdate.
  pose proof (Hk e.1 (history a) (Definitions (registry a))) as Hcall.
  destruct (provider a _ _ _) as [p' [resp|err ctx]]; cbn [fst] in Hcall.
  - destruct (Message.ToolCalls resp) as [|tc calls] eqn:Hcalls; [cbn [fst snd]; lia|].
    match goal with |- context [dispatch ?a0 ?w0 ?cs ?o] =>
      destruct (dispatch_keeps a0 w0 cs o) as (Hp & _ & _);
      destruct (dispatch a0 w0 cs o) as [[a' w'] results] end.
    cbn [fst] in Hp. cbn [provider withHistory] in Hp. rewrite provider_sendUpdate in Hp.
    etransitivity; [apply IH|cbn [fst]; lia].
    cbn [provider withHistory]. by rewrite Hp.
  - destruct ctx; cbn [fst snd]; lia.
Qed.

End LoopFacts.

(** X24. The history only grows: after [ProcessMessage] it is the history
    from before, followed by the system prompt if the history was empty and
    the prompt is not, the user's message, and what the turns added. *)
Theorem ProcessMessage_history_append_only {P W : Type} (sched : nat → nat → list nat)
        (a : Agent P W) (e : P * W) (input : string) :
  let opening :=
    (if (length (history a) =? 0)%nat && negb (system a =? "")%string
     then [Message.mk RoleSystem (system a) "" [] ""] else []) ++
    [Message.mk RoleUser input "" [] ""] in
  ∃ rest, history (ProcessMessage sched a e input).1.1 = history a ++ opening ++ rest.
Proof.
  intros opening. unfold ProcessMessage.
  match goal with |- context [turns sched ?n ?i ?a0 ?e0] =>
    destruct (turns_history sched n i a0 e0) as [rest ->] end.
  exists rest. subst opening. cbn [history withHistory].
  rewrite system_sendUpdate, history_sendUpdate.
  destruct (_ && _); cbn [history withHistory]; rewrite ?history_sendUpdate;
    by rewrite <- ?app_assoc.
Qed.

(** X25. A text returned without error is the fixed loop-limit text or
    the content of the last message of the history, a response without tool
    calls. *)
Theorem ProcessMessage_answer {P W : Type} (sched : nat → nat → list nat)
        (a : Agent P W) (e : P * W) (input text : string) :
  (ProcessMessage sched a e input).2 = Ok text →
  text = loopLimitText ∨
  ∃ resp, last (history (ProcessMessage sched a e input).1.1) = Some resp ∧
          Message.Content resp = text ∧ Message.ToolCalls resp = [].
Proof. unfold ProcessMessage. apply turns_answer. Qed.

Lemma ProcessMessage_answer_witness :
  "done" = loopLimitText ∨
  ∃ resp,
    last (history (ProcessMessage Scenario.lifo
                     (NewAgent Scenario.threeCallsThenDone Scenario.echoRegistry "")
                     (0%nat, []) "go").1.1) = Some resp ∧
    Message.Content resp = "done" ∧ Message.ToolCalls resp = [].
Proof.
  apply (ProcessMessage_answer Scenario.lifo
           (NewAgent Scenario.threeCallsThenDone Scenario.echoRegistry "") (0%nat, []) "go").
  vm_compute. reflexivity.
Defined.

(** ** The registry *)

(** X26. Looking a name up after [Register]: the registered tool under its
    own name, whatever was registered under it before, and the registry's
    former answer under any other name. *)
Theorem Get_after_Register {W : Type} (r : ToolRegistry W) (t : Tool W) (name : string) :
  Get (Register r t) name =
  if (name =? ToolDefinition.Name (Definition_ t))%string then Some t else Get r name.
Proof.
  unfold Get, Register. cbn [tools].
  destruct (String.eqb_spec name (ToolDefinition.Name (Definition_ t))) as [->|Hne].
  - apply lookup_insert_eq.
  - by apply lookup_insert_ne.
Qed.

(** [Definitions] lists the definition of every tool [Get] can find, once
    per name. *)
Theorem Definitions_lists_registered_tools {W : Type} (r : ToolRegistry W) :
  length (Definitions r) = size (tools r) ∧
  ∀ d, d ∈ Definitions r ↔ ∃ name tool, Get r name = Some tool ∧ Definition_ tool = d.
Proof.
  unfold Definitions, Get. split.
  - by rewrite length_fmap, length_map_to_list.
  - intros d. rewrite list_elem_of_fmap. split.
    + intros ([name tool] & -> & Hin). apply elem_of_map_to_list in Hin. by exists name, tool.
    + intros (name & tool & Hget & <-). exists (name, tool). split; [done|].
      by apply elem_of_map_to_list.
Qed.

(** ** The providers *)

Section GeminiFacts.

Context {Svc J : Type}.
Variable ctxErr : Svc → CtxErr.
Variable unmarshalMap : string → J * bool.
Variable resultMap : string → J.
Variable marshalMap : J → string.
Variable SendMessage :
  Svc → list (list Genai.FunctionDeclaration) → option (Genai.Content J) →
  list (Genai.Content J) → list (Genai.Part J) →
  Svc * result (Genai.GenerateContentResponse J).

(** The session history built by the replay loop: one entry per message
    that is not a system message, in order. *)
Lemma replay_history (messages : list Message.t) : ∀ sys hist,
  (replay unmarshalMap resultMap messages sys hist).2
  = hist ++ ((λ msg, Genai.mkContent (geminiRole msg) (geminiParts unmarshalMap resultMap msg))
               <$> List.filter (λ m, negb (Message.Role m =? RoleSystem)%string) messages).
Proof.
  induction messages as [|msg messages IH]; intros sys hist; cbn [replay List.filter].
  - by rewrite app_nil_r.
  - destruct (Message.Role msg =? RoleSystem)%string; cbn [negb]; rewrite IH; [done|].
    by rewrite fmap_cons, <- List.app_assoc.
Qed.

Lemma Chat_after_tool_message (s : Svc) (h : list Message.t) (m : Message.t)
      (tools : list ToolDefinition.t) :
  Message.Role m = RoleTool →
  GeminiProvider_Chat unmarshalMap resultMap marshalMap SendMessage s (h ++ [m]) tools
  = (s, Returned (Err "last message was not from user")).
Proof.
  intros Hm. unfold GeminiProvider_Chat.
  pose proof (replay_history (h ++ [m]) None []) as Hr.
  destruct (replay _ _ (h ++ [m]) None []) as [sys hist]. cbn [snd app] in Hr. subst hist.
  assert (negb (Message.Role m =? RoleSystem)%string = true) as Hns by (by rewrite Hm).
  rewrite List.filter_app. cbn [List.filter]. rewrite Hns.
  rewrite fmap_app, fmap_cons, fmap_nil, last_snoc. cbn [Genai.Role].
  unfold geminiRole. by rewrite Hm.
Qed.

(** X27. The Gemini provider sends nothing and returns the error "last
    message was not from user" whenever the conversation holds no message
    besides system messages, or the last such message is from the assistant
    or is a tool result. *)
Theorem Gemini_Chat_needs_user_message_last (s : Svc) (messages : list Message.t)
        (tools : list ToolDefinition.t) :
  match lastSpoken messages with
  | Some m => Message.Role m = RoleAssistant ∨ Message.Role m = RoleTool
  | None => True
  end →
  GeminiProvider_Chat unmarshalMap resultMap marshalMap SendMessage s messages tools
  = (s, Returned (Err "last message was not from user")).
Proof.
  unfold lastSpoken, GeminiProvider_Chat. intros H.
  pose proof (replay_history messages None []) as Hr.
  destruct (replay _ _ messages None []) as [sys hist]. cbn [snd app] in Hr. subst hist.
  rewrite fmap_last.
  destruct (last _) as [m|]; [|done]. cbn [fmap option_fmap option_map Genai.Role].
  unfold geminiRole. by destruct H as [-> | ->].
Qed.

Context {W : Type}.
Variable sched : nat → nat → list nat.

(** X28. With the Gemini provider the loop cannot continue after a tool
    call: when a response asks for tools, the results are appended, the
    next call of the provider fails without reaching the service, and the
    loop returns an error. *)
Theorem Gemini_loop_fails_after_tool_calls (n i : nat) (a : Agent Svc W) (e : Svc * W)
        (p' : Svc) (resp : Message.t) :
  provider a = asProvider ctxErr
                 (GeminiProvider_Chat unmarshalMap resultMap marshalMap SendMessage) →
  provider a e.1 (history a) (Definitions (registry a)) = (p', ChatOk resp) →
  Message.ToolCalls resp ≠ [] →
  sched i (length (Message.ToolCalls resp)) ≡ₚ seq 0 (length (Message.ToolCalls resp)) →
  ∃ a' w' msg,
    turns sched (S (S n)) i a e = (a', (p', w'), Err msg) ∧
    msg ∈ ["last message was not from user";
           "LLM request timed out after waiting too long. The API may be slow or unavailable";
           "request was cancelled"].
Proof.
  intros Hprov Hchat Hcalls Hperm.
  change (turns sched (S (S n)) i a e) with
    (let a := sendUpdate a ("Thinking (Turn " +:+ pretty (i + 1)%nat +:+ ")...") in
     let '(p', outcome) := provider a e.1 (history a) (Definitions (registry a)) in
     match outcome with
     | ChatErr err DeadlineExceeded =>
         (sendUpdate a "Request timed out", (p', e.2),
          Err "LLM request timed out after waiting too long. The API may be slow or unavailable")
     | ChatErr err Canceled =>
         (sendUpdate a "Request cancelled", (p', e.2), Err "request was cancelled")
     | ChatErr err CtxNone =>
         (sendUpdate a "Error communicating with LLM", (p', e.2), Err err)
     | ChatOk resp =>
         let a := withHistory a (history a ++ [resp]) in
         match Message.ToolCalls resp with
         | [] => (sendUpdate a "Done", (p', e.2), Ok (Message.Content resp))
         | calls =>
             let '(a, w', results) :=
               dispatch a e.2 calls (sched i (length calls)) in
             turns sched (S n) (S i) (withHistory a (history a ++ results)) (p', w')
         end
     end).
  cbv zeta. rewrite provider_sendUpdate, registry_sendUpdate, history_sendUpdate, Hchat.
  destruct (Message.ToolCalls resp) as [|tc calls] eqn:Hc; [done|].
  match goal with |- context [dispatch ?a0 ?w0 ?cs ?o] =>
    destruct (dispatch_slots a0 w0 cs o Hperm)
      as (a' & w' & results & -> & Hp & Hr & Hh & Hlen & Hslots) end.
  cbn [provider registry history withHistory] in Hp, Hr, Hh.
  rewrite ?provider_sendUpdate in Hp. rewrite ?history_sendUpdate in Hh.
  assert (∃ front m, results = front ++ [m] ∧ Message.Role m = RoleTool)
    as (front & m & -> & Hm).
  { assert (∃ tcl, (tc :: calls) !! length calls = Some tcl) as [tcl Htcl]
      by (apply lookup_lt_is_Some; cbn [length]; lia).
    destruct (Hslots _ _ Htcl) as (m & Hlast & Hfilled).
    exists (take (length calls) results), m. split; [|apply Hfilled].
    rewrite <- (take_S_r _ _ _ Hlast). symmetry. apply take_ge. rewrite Hlen. done. }
  cbn [turns].
  rewrite !provider_sendUpdate, !registry_sendUpdate, !history_sendUpdate.
  cbn [provider registry history withHistory]. rewrite Hp, Hprov.
  unfold asProvider at 1. rewrite Hh.
  rewrite (List.app_assoc _ front [m]), Chat_after_tool_message by done.
  cbn [fst snd].
  destruct (ctxErr p') eqn:Hctx; eexists _, w', _; (split; [reflexivity|]).
  - apply list_elem_of_here.
  - apply list_elem_of_further, list_elem_of_here.
  - do 2 apply list_elem_of_further. apply list_elem_of_here.
Qed.

End GeminiFacts.

Lemma Gemini_Chat_needs_user_message_last_witness :
  Services.geminiChat 7 [Message.mk RoleSystem "be kind" "" [] "";
                    Message.mk RoleUser "hello" "" [] "";
                    Message.mk RoleAssistant "" ""
                      [ToolCall.mk "" "function" (FunctionCall.mk "first" "{}")] "";
                    Message.mk RoleTool "first{}" "first" [] ""] []
  = (7, Returned (Err "last message was not from user")).
Proof.
  apply (Gemini_Chat_needs_user_message_last (λ s, (s, true)) (λ s, s) (λ j, j)
           Services.geminiSend 7).
  right. reflexivity.
Defined.

Lemma Gemini_loop_fails_after_tool_calls_witness :
  ∃ a' w' msg,
    turns Scenario.fifo 2 0
          (withHistory Services.geminiAgent [Message.mk RoleUser "hello" "" [] ""]) (0, [])
    = (a', (1, w'), Err msg) ∧
    msg ∈ ["last message was not from user";
           "LLM request timed out after waiting too long. The API may be slow or unavailable";
           "request was cancelled"].
Proof.
  apply (Gemini_loop_fails_after_tool_calls (λ _, CtxNone) (λ s, (s, true)) (λ s, s) (λ j, j)
           Services.geminiSend Scenario.fifo 0 0
           (withHistory Services.geminiAgent [Message.mk RoleUser "hello" "" [] ""]) (0, []) 1
           (Message.mk RoleAssistant "" ""
              [ToolCall.mk "" "function" (FunctionCall.mk "first" "{}")] "")).
  - reflexivity.
  - vm_compute. reflexivity.
  - discriminate.
  - reflexivity.
Defined.

Section OpenAIFacts.

Context {Svc W : Type}.
Variable ctxErr : Svc → CtxErr.
Variable create :
  Svc → Openai.ChatCompletionRequest → Svc * result Openai.ChatCompletionResponse.
Variable Sleep : Svc → nat → Svc.
Variable sched : nat → nat → list nat.

Lemma attempts_requests (p : OpenAIProvider) (messages : list Message.t)
      (tools : list ToolDefinition.t) (n : nat) : ∀ attempt s c lastErr,
  (attempts (λ s, ctxErr s.1) (countingRequests create) (λ s n, (Sleep s.1 n, s.2))
            n attempt p (s, c) messages tools lastErr).1.2 ≤ c + n.
Proof.
  induction n as [|n IH]; intros attempt s c lastErr; cbn [attempts]; [cbn; lia|].
  assert (Hsleep : ∀ b : bool, (if b then (Sleep (s, c).1 (2 ^ attempt), (s, c).2) else (s, c))
                   = ((if b then Sleep s (2 ^ attempt) else s), c)) by (by intros []).
  rewrite Hsleep. unfold countingRequests at 1. cbn [fst snd].
  destruct (create _ _) as [s' [resp|err]].
  - destruct (Openai.Choices resp); cbn [fst snd]; lia.
  - cbn [fst]. destruct (ctxErr s'); cbn [fst snd]; try lia.
    etransitivity; [apply IH|lia].
Qed.

(** X29. One call of the OpenAI provider sends at most three requests,
    whatever the service answers. *)
Theorem OpenAI_Chat_at_most_three_requests (p : OpenAIProvider) (s : Svc) (c : nat)
        (messages : list Message.t) (tools : list ToolDefinition.t) :
  (OpenAIProvider_Chat (λ s, ctxErr s.1) (countingRequests create)
     (λ s n, (Sleep s.1 n, s.2)) p (s, c) messages tools).1.2 ≤ c + 3.
Proof. apply attempts_requests. Qed.

(** X30. With the OpenAI provider, one user message costs at most 75
    requests: 25 turns of at most three attempts. *)
Theorem ProcessMessage_OpenAI_at_most_75_requests (p : OpenAIProvider)
        (a : Agent (Svc * nat) W) (s : Svc) (w : W) (input : string) :
  provider a = asProvider (λ s, ctxErr s.1)
                 (OpenAIProvider_Chat (λ s, ctxErr s.1) (countingRequests create)
                    (λ s n, (Sleep s.1 n, s.2)) p) →
  (ProcessMessage sched a ((s, 0), w) input).1.2.1.2 ≤ 75.
Proof.
  intros Hp. unfold ProcessMessage.
  match goal with |- context [turns sched ?n ?i ?a0 ?e0] =>
    pose proof (turns_cost_bounded sched snd 3 n i a0 e0) as Hb end.
  cbn [fst snd] in Hb. unfold maxTurns in *. etransitivity; [apply Hb|lia].
  intros [s0 c0] h d. cbn [provider withHistory].
  assert (provider (if (length (history (sendUpdate a "Analysing request...")) =? 0)%nat &&
                       negb (system (sendUpdate a "Analysing request...") =? "")%string
                    then withHistory (sendUpdate a "Analysing request...")
                           (history (sendUpdate a "Analysing request...") ++
                            [Message.mk RoleSystem (system (sendUpdate a "Analysing request..."))
                               "" [] ""])
                    else sendUpdate a "Analysing request...") = provider a) as ->.
  { destruct (_ && _); cbn [provider withHistory]; apply provider_sendUpdate. }
  rewrite Hp. unfold asProvider.
  pose proof (attempts_requests p h d 3 0 s0 c0 None) as Hreq.
  unfold OpenAIProvider_Chat, maxRetries.
  destruct (attempts _ _ _ 3 0 p (s0, c0) h d None) as [s1 [[m|err]|]]; exact Hreq.
Qed.

(** The request carries one message per message of the history, in
    order, with its tool-call id and name; a tool result is sent with role
    "tool" and never with an empty content. *)
Theorem OpenAI_request_mirrors_history (p : OpenAIProvider) (messages : list Message.t)
        (tools : list ToolDefinition.t) :
  let sent := Openai.Messages (openaiRequest p messages tools) in
  length sent = length messages ∧
  ∀ i msg, messages !! i = Some msg →
    ∃ om, sent !! i = Some om ∧
          Openai.ToolCallID om = Message.ToolCallID msg ∧
          Openai.Name om = Message.Name msg ∧
          (Openai.Role om = "tool" ↔ Message.Role msg = RoleTool) ∧
          (Openai.Role om = "tool" → Openai.Content om ≠ "") ∧
          (Message.Content msg ≠ "" → Openai.Content om = Message.Content msg).
Proof.
  cbn [openaiRequest Openai.Messages]. split; [apply length_fmap|].
  intros i msg Hi. rewrite list_lookup_fmap, Hi. eexists. split; [reflexivity|].
  unfold openaiMessage. cbn [Openai.ToolCallID Openai.Name Openai.Role Openai.Content].
  repeat split.
  - destruct (Message.Role msg =? RoleSystem)%string; [discriminate|].
    destruct (Message.Role msg =? RoleAssistant)%string; [discriminate|].
    destruct (String.eqb_spec (Message.Role msg) RoleTool); [done|discriminate].
  - intros ->. reflexivity.
  - destruct (Message.Role msg =? RoleSystem)%string; [discriminate|].
    destruct (Message.Role msg =? RoleAssistant)%string; [discriminate|].
    destruct (Message.Role msg =? RoleTool)%string; [|discriminate].
    intros _. cbn [String.eqb Ascii.eqb Bool.eqb andb].
    destruct (String.eqb_spec (Message.Content msg) ""); [discriminate|done].
  - intros Hne. apply String.eqb_neq in Hne. rewrite Hne. by rewrite andb_false_r.
Qed.

End OpenAIFacts.

Lemma ProcessMessage_OpenAI_at_most_75_requests_witness :
  (ProcessMessage Scenario.fifo Services.openaiAgent ((tt, 0), tt) "hello").1.2.1.2 ≤ 75.
Proof.
  apply (ProcessMessage_OpenAI_at_most_75_requests (λ _, CtxNone) Services.failingClient
           (λ s _, s) Scenario.fifo {| model := "gpt" |} Services.openaiAgent tt tt "hello").
  reflexivity.
Defined.
